(** * Audiobookshelf integration for Home Assistant: the polling layer

    A shallow embedding of [custom_components/audiobookshelf/sensor.py] and
    [binary_sensor.py]: the JSON payloads the REST API returns, the sensor
    registry, library discovery, the refresh cycle of the update
    coordinator and the update of one sensor entity, followed by the
    properties proved about them.

    Conventions.
    - Python values decoded from JSON are the inductive [json]; a Python
      [dict] with [str] keys is an insertion-ordered association list with
      pairwise distinct keys; [None] is [JNull].
    - A Python [float] is a binary64 number, as the Standard Library
      specifies them ([spec_float] at precision 53 and [emax = 1024]),
      with its correctly rounded division.
    - A [str] is a [string] of 8-bit characters.  The model follows
      Python on the strings of ASCII characters, one character of the
      model for each character of the string: the case functions
      ([isupper], [lower]) are the ASCII ones and [len] counts the
      characters of the model, which is what Python does on these strings
      and not beyond them.
    - A call that may raise returns a [result]; [Raise e] is the exception
      that leaves the call. *)

From Stdlib Require Import ZArith List String Ascii Bool Lia.
From Stdlib Require Import SpecFloat.
From stdpp Require Import base option list gmap strings pretty.

(** * Python values, exceptions and built-ins *)

Module Py.

#[local] Unset Elimination Schemes.
Inductive json : Type :=
| JNull
| JBool (b : bool)
| JInt (n : Z)
| JFloat (f : spec_float)
| JStr (s : string)
| JList (l : list json)
| JObj (kvs : list (string * json)).
#[local] Set Elimination Schemes.

(** A [dict] whose keys are [str]. *)
Abbreviation dict := (list (string * json)).

(** The exception classes that occur.  [ClientError] stands for
    [aiohttp.ClientError] and all of its subclasses, [DaciteError] for the
    error that leaves [dacite.from_dict] when the data do not fit the data
    class (a required field is missing, a value has not the declared
    type), whatever its class: it is a subclass of [dacite.DaciteError],
    but for a dict in a field whose type is a list, where dacite from
    version 1.8 on lets a [ValueError] of [dict()] through.  [OtherError]
    is any other exception class, by name. *)
Inductive exn : Type :=
| KeyError (key : string)
| TypeError
| AttributeError
| ValueError
| OverflowError
| ClientError (msg : string)
| UpdateFailed (msg : string)
| DaciteError
| OtherError (name : string).

(** The outcome of a call.  [Unmodelled] marks the one thing the data
    model leaves out: a Python [dict] with a key that is not a [str]; a
    function returns it where Python would go on with such a dict. *)
Inductive result (A : Type) : Type :=
| Ok (a : A)
| Raise (e : exn)
| Unmodelled.
Arguments Ok {A} a.
Arguments Raise {A} e.
Arguments Unmodelled {A}.

#[global] Instance result_ret : MRet result := @Ok.
#[global] Instance result_bind : MBind result := fun A B f r =>
  match r with
  | Ok a => f a
  | Raise e => Raise e
  | Unmodelled => Unmodelled
  end.
#[global] Instance result_fmap : FMap result := fun A B f r =>
  match r with
  | Ok a => Ok (f a)
  | Raise e => Raise e
  | Unmodelled => Unmodelled
  end.

(** [isinstance(e, aiohttp.ClientError)] *)
Definition is_client_error (e : exn) : bool :=
  match e with ClientError _ => true | _ => false end.

(** [isinstance(e, KeyError)] *)
Definition is_key_error (e : exn) : bool :=
  match e with KeyError _ => true | _ => false end.

(** [isinstance(e, AttributeError)] *)
Definition is_attribute_error (e : exn) : bool :=
  match e with AttributeError => true | _ => false end.

(** [isinstance(e, UpdateFailed)] *)
Definition is_update_failed (e : exn) : bool :=
  match e with UpdateFailed _ => true | _ => false end.

(** ** Floats *)

Abbreviation prec := 53%Z.
Abbreviation emax := 1024%Z.

(** [float(n)] for an [int] [n], correctly rounded (ties to even); the
    infinite results are the ones for which Python raises
    [OverflowError]. *)
Definition float_of_Z (n : Z) : spec_float := binary_normalize prec emax n 0 false.

(** [x / y] on floats, for a divisor that is not zero. *)
Definition fdiv (x y : spec_float) : spec_float := SFdiv prec emax x y.

(** [x == 0] for a float [x]: both zeros are, no NaN is. *)
Definition float_is_zero (x : spec_float) : bool :=
  SFeqb x (S754_zero false).

(** [a / b] where [b] is positive, rounded to the nearest integer, a tie
    to the even one. *)
Definition div_half_even (a b : Z) : Z :=
  let q := (a / b)%Z in
  let r := (a mod b)%Z in
  match (2 * r ?= b)%Z with
  | Lt => q
  | Gt => (q + 1)%Z
  | Eq => if Z.even q then q else (q + 1)%Z
  end.

(** The float nearest to the decimal numeral [k / 10^ndigits], [k]
    being the digits without their sign [s]: what reading the numeral
    gives. *)
Definition decimal (s : bool) (k : Z) (ndigits : nat) : spec_float :=
  match k, (10 ^ Z.of_nat ndigits)%Z with
  | Zpos k', Zpos scale =>
      SFdiv prec emax (S754_finite s k' 0) (S754_finite false scale 0)
  | _, _ => S754_zero s
  end.

(** [round(x, ndigits)] for a float [x] and [ndigits >= 0], as CPython
    computes it: the decimal numeral with [ndigits] digits after the point
    that is nearest to the exact value of [x] (a tie goes to the even last
    digit), read back as a float.  Zeros, infinities and NaN round to
    themselves, and the sign of [x] is kept. *)
Definition py_round (x : spec_float) (ndigits : nat) : spec_float :=
  match x with
  | S754_finite s m e =>
      let scale := (10 ^ Z.of_nat ndigits)%Z in
      decimal s
        match e with
        | Zneg p => div_half_even (Zpos m * scale) (2 ^ Zpos p)
        | _ => (Zpos m * scale * 2 ^ e)%Z
        end
        ndigits
  | _ => x
  end.

(** The float a number stands for when it is an operand of a float
    operation; [bool] is a subclass of [int]. *)
Definition to_float (v : json) : result spec_float :=
  match v with
  | JBool b => Ok (float_of_Z (if b then 1 else 0))
  | JInt n =>
      match float_of_Z n with
      | S754_infinity _ => Raise OverflowError
      | f => Ok f
      end
  | JFloat f => Ok f
  | _ => Raise TypeError
  end.

(** ** Dictionaries *)

(** [d.get(k)], as an option. *)
Fixpoint dict_get {V : Type} (k : string) (d : list (string * V)) : option V :=
  match d with
  | [] => None
  | (k', v) :: d' => if String.eqb k k' then Some v else dict_get k d'
  end.

(** [d[k] = v]: an existing key keeps its place, a new one goes last. *)
Fixpoint dict_set {V : Type} (k : string) (v : V) (d : list (string * V))
  : list (string * V) :=
  match d with
  | [] => [(k, v)]
  | (k', v') :: d' =>
      if String.eqb k k' then (k, v) :: d' else (k', v') :: dict_set k v d'
  end.

(** [d.update(e)] *)
Definition dict_update {V : Type} (d e : list (string * V)) : list (string * V) :=
  fold_left (fun acc kv => dict_set kv.1 kv.2 acc) e d.

(** The dict that inserting the pairs in order into [{}] builds (a dict
    comprehension, a dict display). *)
Definition dict_of_pairs {V : Type} (kvs : list (string * V)) : list (string * V) :=
  dict_update [] kvs.

Definition dict_keys {V : Type} (d : list (string * V)) : list string := d.*1.

(** [d.get(k, default)] on a dict. *)
Definition get_or (k : string) (dflt : json) (d : dict) : json :=
  default dflt (dict_get k d).

(** [d[k]] on a dict. *)
Definition getitem (k : string) (d : dict) : result json :=
  match dict_get k d with
  | Some v => Ok v
  | None => Raise (KeyError k)
  end.

(** ** Operations on arbitrary values *)

(** [v[k]] for a [str] key [k]: only a dict can be subscripted by a
    [str]; a list or str wants an integer, the rest is not subscriptable. *)
Definition subscript (v : json) (k : string) : result json :=
  match v with
  | JObj d => getitem k d
  | _ => Raise TypeError
  end.

(** [v.get(k)]: only a dict has a method [get]. *)
Definition method_get (v : json) (k : string) (dflt : json) : result json :=
  match v with
  | JObj d => Ok (get_or k dflt d)
  | _ => Raise AttributeError
  end.

(** The characters of a [str], each a [str] of length one. *)
Fixpoint chars (s : string) : list json :=
  match s with
  | EmptyString => []
  | String c s' => JStr (String c EmptyString) :: chars s'
  end.

(** [for x in v]: the items of a list, the keys of a dict, the characters
    of a str. *)
Definition iter (v : json) : result (list json) :=
  match v with
  | JList l => Ok l
  | JObj d => Ok (JStr <$> dict_keys d)
  | JStr s => Ok (chars s)
  | _ => Raise TypeError
  end.

(** [len(v)]; for a [str], the number of its characters, each being one
    character of the model. *)
Definition len (v : json) : result Z :=
  match v with
  | JList l => Ok (Z.of_nat (length l))
  | JObj d => Ok (Z.of_nat (length d))
  | JStr s => Ok (Z.of_nat (String.length s))
  | _ => Raise TypeError
  end.

(** [bool(v)] *)
Definition truthy (v : json) : bool :=
  match v with
  | JNull => false
  | JBool b => b
  | JInt n => negb (n =? 0)%Z
  | JFloat f => negb (float_is_zero f)
  | JStr s => negb (String.eqb s "")
  | JList l => match l with [] => false | _ => true end
  | JObj d => match d with [] => false | _ => true end
  end.

(** [v == s] for a [str] [s]: a str is equal to strs only. *)
Definition eq_str (v : json) (s : string) : bool :=
  match v with
  | JStr s' => String.eqb s' s
  | _ => false
  end.

(** [v in (0, None)]: [v is None], or [v == 0], which holds of the
    integer 0, of [False] (a [bool] is an [int]) and of the floats 0.0 and
    -0.0. *)
Definition in_zero_none (v : json) : bool :=
  match v with
  | JNull => true
  | JBool b => negb b
  | JInt n => (n =? 0)%Z
  | JFloat f => float_is_zero f
  | _ => false
  end.

(** A loop body run over a list, left to right, until it raises. *)
Fixpoint foldM {A B : Type} (f : A -> B -> result A) (a : A) (l : list B)
  : result A :=
  match l with
  | [] => Ok a
  | x :: l' => a' ← f a x; foldM f a' l'
  end.

Fixpoint mapM_result {A B : Type} (f : A -> result B) (l : list A)
  : result (list B) :=
  match l with
  | [] => Ok []
  | x :: l' => y ← f x; ys ← mapM_result f l'; Ok (y :: ys)
  end.

End Py.
Export Py.

(** * sensor.py: the functions of the fixed sensors *)

(** [count_active_users]: the users that are active and are not called
    "hass". *)
Definition count_active_users (data : dict) : result json :=
  users ← getitem "users" data;
  users ← iter users;
  count ← foldM (fun (count : Z) (user : json) =>
      is_active ← subscript user "isActive";
      if truthy is_active then
        username ← subscript user "username";
        if negb (eq_str username "hass") then Ok (count + 1)%Z else Ok count
      else Ok count) 0%Z users;
  Ok (JInt count).

(** The loop of [clean_user_attributes], [user["token"] = "<redacted>"] for
    each user in turn: the users as the loop leaves them, and how it ends.
    Only a dict takes an item under a [str] key. *)
Fixpoint redact_tokens (users : list json) : list json * result () :=
  match users with
  | [] => ([], Ok ())
  | JObj user :: rest =>
      let '(rest', r) := redact_tokens rest in
      (JObj (dict_set "token" (JStr "<redacted>") user) :: rest', r)
  | user :: rest => (user :: rest, Raise TypeError)
  end.

(** [clean_user_attributes] writes into its argument: the first component
    is [data] as the call leaves it, the second what the call returns
    (that same object) or raises. *)
Definition clean_user_attributes (data : dict) : dict * result dict :=
  match dict_get "users" data with
  | None => (data, Raise (KeyError "users"))
  | Some (JList users) =>
      let '(users', r) := redact_tokens users in
      let data' := dict_set "users" (JList users') data in
      (data', r ≫= fun _ => Ok data')
  | Some (JObj []) | Some (JStr "") => (data, Ok data)
  | Some _ => (data, Raise TypeError)
  end.

Definition count_open_sessions (data : dict) : result json :=
  sessions ← getitem "openSessions" data;
  count ← len sessions;
  Ok (JInt count).

Definition count_libraries (data : dict) : result json :=
  libraries ← getitem "libraries" data;
  count ← len libraries;
  Ok (JInt count).

(** The loop body of [extract_library_details].  The id is the key of the
    new entry: a list or a dict cannot be one, and a number that is not
    zero makes a key that is not a [str]. *)
Definition extract_library_detail (details : dict) (library : json) : result dict :=
  library_id ← method_get library "id" JNull;
  if truthy library_id then
    media_type ← method_get library "mediaType" JNull;
    provider ← method_get library "provider" JNull;
    let entry := JObj [("mediaType", media_type); ("provider", provider)] in
    match library_id with
    | JStr k => Ok (dict_set k entry details)
    | JList _ | JObj _ => Raise TypeError
    | _ => Unmodelled
    end
  else Ok details.

Definition extract_library_details (data : dict) : result dict :=
  libraries ← iter (get_or "libraries" (JList []) data);
  foldM extract_library_detail [] libraries.

Definition f60 : spec_float := Eval vm_compute in float_of_Z 60.
Definition f1024 : spec_float := Eval vm_compute in float_of_Z 1024.

(** [get_total_duration]: seconds to hours, rounded to 0 decimal places. *)
Definition get_total_duration (total_duration : json) : result json :=
  match total_duration with
  | JNull => Ok JNull
  | _ =>
      x ← to_float total_duration;
      Ok (JFloat (py_round (fdiv (fdiv x f60) f60) 0))
  end.

(** [get_total_size]: bytes to GB, rounded to 2 decimal places. *)
Definition get_total_size (total_size : json) : result json :=
  match total_size with
  | JNull => Ok JNull
  | _ =>
      x ← to_float total_size;
      Ok (JFloat (py_round (fdiv (fdiv (fdiv x f1024) f1024) f1024) 2))
  end.

Definition get_library_stats (data : dict) : result dict :=
  extract_library_details data.

Definition do_nothing (data : dict) : dict := data.

(** [extract_server_version]: [data["serverSettings"]["version"]], and
    [None] when a key is missing. *)
Definition extract_server_version (data : dict) : result json :=
  match (settings ← getitem "serverSettings" data; subscript settings "version") with
  | Raise (KeyError _) => Ok JNull
  | r => r
  end.

(** * sensor.py: the registry *)

(** One entry of [sensors].  [data_function] reads its argument only;
    [attributes_function] may write into it ([clean_user_attributes]
    does), so it returns the argument as it leaves it beside its result. *)
Record Sensor : Type := {
  endpoint : string;
  name : string;
  unique_id : option string;
  data_function : dict -> result json;
  attributes_function : dict -> dict * result dict;
  unit_name : string
}.

(** An attributes function that leaves its argument alone. *)
Definition pure_attributes (f : dict -> result dict) : dict -> dict * result dict :=
  fun data => (data, f data).

(** The four sensors [sensors] starts with. *)
Definition sensors : gmap string Sensor :=
  <["server_version" := {|
      endpoint := "api/authorize";
      name := "Audiobookshelf Server Version";
      unique_id := None;
      data_function := extract_server_version;
      attributes_function := pure_attributes (fun data => Ok (do_nothing data));
      unit_name := "version" |}]>
 (<["libraries" := {|
      endpoint := "api/libraries";
      name := "Audiobookshelf Libraries";
      unique_id := None;
      data_function := count_libraries;
      attributes_function := pure_attributes get_library_stats;
      unit_name := "libraries" |}]>
 (<["sessions" := {|
      endpoint := "api/users/online";
      name := "Audiobookshelf Open Sessions";
      unique_id := None;
      data_function := count_open_sessions;
      attributes_function := pure_attributes (fun data => Ok (do_nothing data));
      unit_name := "sessions" |}]>
 (<["users" := {|
      endpoint := "api/users";
      name := "Audiobookshelf Users";
      unique_id := None;
      data_function := count_active_users;
      attributes_function := clean_user_attributes;
      unit_name := "users" |}]> ∅))).

(** * sensor.py: libraries *)

Module LibraryFolder.
Record t : Type := {
  id : string;
  full_path : option string;
  library_id : string;
  added_at : option json
}.
End LibraryFolder.

Module LibrarySettings.
Record t : Type := {
  cover_aspect_ratio : option json;
  disable_watcher : option bool;
  auto_scan_cron_expression : option string;
  skip_matching_media_with_asin : option bool;
  skip_matching_media_with_isbn : option bool;
  audiobooks_only : option bool;
  epubs_allow_scripted_content : option bool;
  hide_single_book_series : option bool;
  only_show_later_books_in_continue_series : option bool;
  metadata_precedence : option (list string);
  mark_as_finished_percent_complete : option json;
  mark_as_finished_time_remaining : option json
}.
End LibrarySettings.

Module Library.
Record t : Type := {
  id : string;
  name : string;
  folders : option (list LibraryFolder.t);
  display_order : option json;
  icon : option string;
  media_type : option string;
  provider : option string;
  settings : option LibrarySettings.t;
  last_scan : option json;
  last_scan_version : option string;
  created_at : option json;
  last_update : option json
}.
End Library.

(** ** Key conversion *)

(** [c.isupper()] and [c.lower()] for one character, as they are on the
    ASCII characters: the upper-case ones are [A] to [Z].  Python's
    functions know the upper-case characters of all of Unicode; the
    statements about the conversion of keys are for keys of ASCII
    characters ([ascii_string], [ascii_keys]). *)
Definition isupper (c : ascii) : bool :=
  let n := nat_of_ascii c in (65 <=? n)%nat && (n <=? 90)%nat.

Definition lower (c : ascii) : ascii :=
  if isupper c then ascii_of_nat (nat_of_ascii c + 32) else c.

(** [s.lstrip("_")] *)
Fixpoint lstrip_underscore (s : string) : string :=
  match s with
  | String "_" s' => lstrip_underscore s'
  | _ => s
  end.

(** The characters [_convert_key] joins: an upper-case character becomes
    an underscore and its lower-case form. *)
Fixpoint snake_chars (key : string) : string :=
  match key with
  | EmptyString => EmptyString
  | String c key' =>
      if isupper c then String "_" (String (lower c) (snake_chars key'))
      else String c (snake_chars key')
  end.

Definition _convert_key (key : string) : string :=
  lstrip_underscore (snake_chars key).

(** [camel_to_snake]: the keys of a dict are converted and its values
    that are dicts or lists are converted in turn; the same for the items
    of a list.  The dict comprehension inserts in order, so of two keys
    with one converted form the later one gives the value. *)
Fixpoint camel_to_snake (data : json) : json :=
  match data with
  | JObj kvs =>
      JObj (dict_of_pairs
        (map (fun kv =>
                (_convert_key kv.1,
                 match kv.2 with
                 | JObj _ | JList _ => camel_to_snake kv.2
                 | value => value
                 end)) kvs))
  | JList l =>
      JList (map (fun item =>
                match item with
                | JObj _ | JList _ => camel_to_snake item
                | _ => item
                end) l)
  | _ => data
  end.

(** ** Records from dicts

    [dacite.from_dict] with its default configuration, for the three data
    classes: a field whose type allows [None] is [None] when its key is
    missing or holds [None]; a key that is no field is ignored; a required
    field that is missing, and a value that is not of the field's type,
    raise ([DaciteError], which stands for the error of [from_dict]
    whatever its class).  A [bool] is an [int] for [isinstance]. *)

Definition as_str (v : json) : option string :=
  match v with JStr s => Some s | _ => None end.

Definition as_bool (v : json) : option bool :=
  match v with JBool b => Some b | _ => None end.

Definition as_int (v : json) : option json :=
  match v with JInt _ | JBool _ => Some v | _ => None end.

Definition as_str_list (v : json) : option (list string) :=
  match v with JList l => mapM as_str l | _ => None end.

Definition required_field {A : Type} (check : json -> option A) (field : string)
    (data : dict) : result A :=
  match dict_get field data ≫= check with
  | Some a => Ok a
  | None => Raise DaciteError
  end.

Definition optional_field {A : Type} (check : json -> option A) (field : string)
    (data : dict) : result (option A) :=
  match dict_get field data with
  | None | Some JNull => Ok None
  | Some v =>
      match check v with
      | Some a => Ok (Some a)
      | None => Raise DaciteError
      end
  end.

(** A field whose type is a data class, or a list of one, or [None]. *)
Definition optional_nested {A : Type} (build : json -> result A) (field : string)
    (data : dict) : result (option A) :=
  match dict_get field data with
  | None | Some JNull => Ok None
  | Some v => Some <$> build v
  end.

Definition from_dict_LibraryFolder (data : dict) : result LibraryFolder.t :=
  id ← required_field as_str "id" data;
  full_path ← optional_field as_str "full_path" data;
  library_id ← required_field as_str "library_id" data;
  added_at ← optional_field as_int "added_at" data;
  Ok {| LibraryFolder.id := id; LibraryFolder.full_path := full_path;
        LibraryFolder.library_id := library_id;
        LibraryFolder.added_at := added_at |}.

Definition from_dict_LibrarySettings (data : dict) : result LibrarySettings.t :=
  cover_aspect_ratio ← optional_field as_int "cover_aspect_ratio" data;
  disable_watcher ← optional_field as_bool "disable_watcher" data;
  auto_scan_cron_expression ← optional_field as_str "auto_scan_cron_expression" data;
  skip_asin ← optional_field as_bool "skip_matching_media_with_asin" data;
  skip_isbn ← optional_field as_bool "skip_matching_media_with_isbn" data;
  audiobooks_only ← optional_field as_bool "audiobooks_only" data;
  epubs ← optional_field as_bool "epubs_allow_scripted_content" data;
  hide_single ← optional_field as_bool "hide_single_book_series" data;
  only_later ← optional_field as_bool "only_show_later_books_in_continue_series" data;
  metadata_precedence ← optional_field as_str_list "metadata_precedence" data;
  percent ← optional_field as_int "mark_as_finished_percent_complete" data;
  remaining ← optional_field as_int "mark_as_finished_time_remaining" data;
  Ok {| LibrarySettings.cover_aspect_ratio := cover_aspect_ratio;
        LibrarySettings.disable_watcher := disable_watcher;
        LibrarySettings.auto_scan_cron_expression := auto_scan_cron_expression;
        LibrarySettings.skip_matching_media_with_asin := skip_asin;
        LibrarySettings.skip_matching_media_with_isbn := skip_isbn;
        LibrarySettings.audiobooks_only := audiobooks_only;
        LibrarySettings.epubs_allow_scripted_content := epubs;
        LibrarySettings.hide_single_book_series := hide_single;
        LibrarySettings.only_show_later_books_in_continue_series := only_later;
        LibrarySettings.metadata_precedence := metadata_precedence;
        LibrarySettings.mark_as_finished_percent_complete := percent;
        LibrarySettings.mark_as_finished_time_remaining := remaining |}.

Definition build_folders (v : json) : result (list LibraryFolder.t) :=
  match v with
  | JList items =>
      mapM_result (fun item =>
        match item with
        | JObj d => from_dict_LibraryFolder d
        | _ => Raise DaciteError
        end) items
  | _ => Raise DaciteError
  end.

Definition build_settings (v : json) : result LibrarySettings.t :=
  match v with
  | JObj d => from_dict_LibrarySettings d
  | _ => Raise DaciteError
  end.

Definition from_dict_Library (data : dict) : result Library.t :=
  id ← required_field as_str "id" data;
  name ← required_field as_str "name" data;
  folders ← optional_nested build_folders "folders" data;
  display_order ← optional_field as_int "display_order" data;
  icon ← optional_field as_str "icon" data;
  media_type ← optional_field as_str "media_type" data;
  provider ← optional_field as_str "provider" data;
  settings ← optional_nested build_settings "settings" data;
  last_scan ← optional_field as_int "last_scan" data;
  last_scan_version ← optional_field as_str "last_scan_version" data;
  created_at ← optional_field as_int "created_at" data;
  last_update ← optional_field as_int "last_update" data;
  Ok {| Library.id := id; Library.name := name; Library.folders := folders;
        Library.display_order := display_order; Library.icon := icon;
        Library.media_type := media_type; Library.provider := provider;
        Library.settings := settings; Library.last_scan := last_scan;
        Library.last_scan_version := last_scan_version;
        Library.created_at := created_at; Library.last_update := last_update |}.

(** [dict(v)]: a copy of a dict; otherwise [v] is iterated and each item
    must be a sequence of length two, a key that can be hashed and a
    value. *)
Definition pair_of_item (item : json) : result (string * json) :=
  match item with
  | JList [k; v] =>
      match k with
      | JStr s => Ok (s, v)
      | JList _ | JObj _ => Raise TypeError
      | _ => Unmodelled
      end
  | JStr (String a (String b EmptyString)) =>
      Ok (String a EmptyString, JStr (String b EmptyString))
  | JObj [(k1, _); (k2, _)] => Ok (k1, JStr k2)
  | JList _ | JStr _ | JObj _ => Raise ValueError
  | _ => Raise TypeError
  end.

Definition py_dict (v : json) : result dict :=
  match v with
  | JObj d => Ok d
  | _ =>
      items ← iter v;
      foldM (fun acc item => kv ← pair_of_item item; Ok (dict_set kv.1 kv.2 acc))
            [] items
  end.

(** * The server and the configuration *)

(** Modelled from the spec: [const.py] is not among the sources; the
    specification's section 6 gives the status of a success, 200. *)
Definition HTTP_OK : Z := 200.

(** The entry's configuration, [conf]. *)
Record Config : Type := {
  CONF_API_KEY : string;
  CONF_URL : string;
  CONF_SCAN_INTERVAL : Z
}.

(** A GET: its URL and its [Authorization] header. *)
Record Request : Type := {
  url : string;
  authorization : string
}.

(** What [session.get] and [response.json()] do with a request: the
    request raises, or there is a response with its status, whose body
    decodes to a JSON value or whose decoding raises. *)
Inductive Outcome : Type :=
| Response (status : Z) (body : json)
| BadBody (status : Z) (e : exn)
| RequestError (e : exn).

Definition request (conf : Config) (path : string) : Request :=
  {| url := CONF_URL conf +:+ "/" +:+ path;
     authorization := "Bearer " +:+ CONF_API_KEY conf |}.

(** [try: ... except aiohttp.ClientError: handler] *)
Definition except_client_error {A : Type} (body : result A) (handler : string -> result A)
  : result A :=
  match body with
  | Raise (ClientError msg) => handler msg
  | _ => body
  end.

(** * sensor.py: the coordinator *)

(** One library of the listing: [from_dict(data_class=Library,
    data=dict(camel_to_snake(lib)))]. *)
Definition library_of (lib : json) : result Library.t :=
  d ← py_dict (camel_to_snake lib);
  from_dict_Library d.

(** [get_libraries]: the libraries of the listing, and the empty list
    when the status is not 200 or the request raises a client error. *)
Definition get_libraries (conf : Config) (server : Request -> Outcome)
  : result (list Library.t) :=
  except_client_error
    match server (request conf "api/libraries") with
    | RequestError e => Raise e
    | Response status data =>
        if (status =? HTTP_OK)%Z then
          libraries_data ← method_get data "libraries" (JList []);
          libs ← iter libraries_data;
          mapM_result library_of libs
        else Ok []
    | BadBody status e =>
        if (status =? HTTP_OK)%Z then Raise e else Ok []
    end
    (fun _ => Ok []).

Definition library_stats_endpoint (library_id : string) : string :=
  "api/libraries/" +:+ library_id +:+ "/stats".

Definition size_key (library_id : string) : string :=
  "library_" +:+ library_id +:+ "_size".
Definition items_key (library_id : string) : string :=
  "library_" +:+ library_id +:+ "_items".
Definition duration_key (library_id : string) : string :=
  "library_" +:+ library_id +:+ "_duration".

Definition size_sensor (library : Library.t) : Sensor := {|
  endpoint := library_stats_endpoint (Library.id library);
  name := "Audiobookshelf " +:+ Library.name library +:+ " Size";
  unique_id := Some (size_key (Library.id library));
  data_function := fun data => get_total_size (get_or "totalSize" JNull data);
  unit_name := "GB";
  attributes_function := pure_attributes (fun data => Ok (do_nothing data)) |}.

Definition items_sensor (library : Library.t) : Sensor := {|
  endpoint := library_stats_endpoint (Library.id library);
  name := "Audiobookshelf " +:+ Library.name library +:+ " Items";
  unique_id := Some (items_key (Library.id library));
  data_function := fun data => Ok (get_or "totalItems" JNull data);
  unit_name := "items";
  attributes_function := pure_attributes (fun data => Ok (do_nothing data)) |}.

Definition duration_sensor (library : Library.t) : Sensor := {|
  endpoint := library_stats_endpoint (Library.id library);
  name := "Audiobookshelf " +:+ Library.name library +:+ " Duration";
  unique_id := Some (duration_key (Library.id library));
  data_function := fun data => get_total_duration (get_or "totalDuration" JNull data);
  unit_name := "hours";
  attributes_function := pure_attributes (fun data => Ok (do_nothing data)) |}.

(** [generate_library_sensors]: [sensors.update] with the three sensors
    of each library in turn.  The registry is the module's global
    [sensors]; here it is passed in and returned. *)
Definition generate_library_sensors (libraries : list Library.t)
    (registry : gmap string Sensor) : gmap string Sensor :=
  foldl (fun registry library =>
           <[duration_key (Library.id library) := duration_sensor library]>
          (<[items_key (Library.id library) := items_sensor library]>
          (<[size_key (Library.id library) := size_sensor library]> registry)))
        registry libraries.

(** [{sensor["endpoint"] for sensor in sensors.values()}] *)
Definition unique_endpoints (registry : gmap string Sensor) : gset string :=
  list_to_set (endpoint <$> (map_to_list registry).*2).

(** One pass of the loop of [_async_update_data] for [endpoint]: the
    response's JSON, or the exception that leaves the inner [try]. *)
Definition fetch_endpoint (endpoint : string) (o : Outcome) : result json :=
  except_client_error
    match o with
    | RequestError e => Raise e
    | Response status response_data =>
        if negb (status =? HTTP_OK)%Z then
          Raise (UpdateFailed ("Error fetching data for " +:+ endpoint +:+ ": "
                               +:+ pretty status))
        else Ok response_data
    | BadBody status e =>
        if negb (status =? HTTP_OK)%Z then
          Raise (UpdateFailed ("Error fetching data for " +:+ endpoint +:+ ": "
                               +:+ pretty status))
        else Raise e
    end
    (fun e => Raise (UpdateFailed ("Error fetching data for " +:+ endpoint +:+ ": " +:+ e))).

(** The loop over the endpoints: the requests sent so far, in order, and
    the dict built or the exception that ends the loop. *)
Fixpoint fetch_endpoints (conf : Config) (server : Request -> Outcome)
    (endpoints : list string) (data : gmap string json) (sent : list Request)
  : list Request * result (gmap string json) :=
  match endpoints with
  | [] => (sent, Ok data)
  | endpoint :: rest =>
      let req := request conf endpoint in
      match fetch_endpoint endpoint (server req) with
      | Ok response_data =>
          fetch_endpoints conf server rest (<[endpoint := response_data]> data)
                          (sent ++ [req])
      | Raise e => (sent ++ [req], Raise e)
      | Unmodelled => (sent ++ [req], Unmodelled)
      end
  end.

(** [_async_update_data].  [set_iter] is the order in which Python
    iterates over a set; the requests sent are returned beside the
    result.  The outer handler raises the [UpdateFailed] it catches
    again. *)
Definition _async_update_data (set_iter : gset string -> list string)
    (conf : Config) (server : Request -> Outcome) (registry : gmap string Sensor)
  : list Request * result (gmap string json) :=
  fetch_endpoints conf server (set_iter (unique_endpoints registry)) ∅ [].

(** The coordinator: its configuration and [data], [None] before the
    first successful refresh. *)
Record Coordinator : Type := {
  conf : Config;
  data : option (gmap string json);
  last_update_success : bool
}.

(** Modelled from the spec: the refresh of the host's
    [DataUpdateCoordinator] around [_async_update_data], which is not
    among the sources, as the specification's section 4.4 gives it: a
    returned mapping becomes [data]; a failed cycle is recorded and [data]
    stays. *)
Definition async_refresh (set_iter : gset string -> list string)
    (server : Request -> Outcome) (registry : gmap string Sensor)
    (self : Coordinator) : Coordinator :=
  match (_async_update_data set_iter (conf self) server registry).2 with
  | Ok new_data =>
      {| conf := conf self; data := Some new_data; last_update_success := true |}
  | _ =>
      {| conf := conf self; data := data self; last_update_success := false |}
  end.

(** * sensor.py: the sensor entity *)

Record AudiobookshelfSensor : Type := {
  _name : string;
  _unique_id : string;
  _attr_unit_of_measurement : string;
  _endpoint : string;
  _state : json;
  _attr_extra_state_attributes : dict;
  _process_data : dict -> result json;
  _process_attributes : dict -> dict * result dict
}.

(** [AudiobookshelfSensor.__init__] *)
Definition new_sensor (sensor : Sensor) : AudiobookshelfSensor := {|
  _name := name sensor;
  _unique_id := default (name sensor) (unique_id sensor);
  _attr_unit_of_measurement := unit_name sensor;
  _endpoint := endpoint sensor;
  _state := JNull;
  _attr_extra_state_attributes := [];
  _process_data := data_function sensor;
  _process_attributes := attributes_function sensor |}.

Definition with_state (self : AudiobookshelfSensor) (state : json)
  : AudiobookshelfSensor := {|
  _name := _name self;
  _unique_id := _unique_id self;
  _attr_unit_of_measurement := _attr_unit_of_measurement self;
  _endpoint := _endpoint self;
  _state := state;
  _attr_extra_state_attributes := _attr_extra_state_attributes self;
  _process_data := _process_data self;
  _process_attributes := _process_attributes self |}.

Definition with_attributes (self : AudiobookshelfSensor) (attributes : dict)
  : AudiobookshelfSensor := {|
  _name := _name self;
  _unique_id := _unique_id self;
  _attr_unit_of_measurement := _attr_unit_of_measurement self;
  _endpoint := _endpoint self;
  _state := _state self;
  _attr_extra_state_attributes := attributes;
  _process_data := _process_data self;
  _process_attributes := _process_attributes self |}.

(** [if data:] for the coordinator's data: neither [None] nor empty. *)
Definition nonempty_data (data : option (gmap string json)) : option (gmap string json) :=
  match data with
  | Some cache => if (size cache =? 0)%nat then None else Some cache
  | None => None
  end.

(** The body of [async_update] once the endpoint's data is a dict
    [payload]: the entity and the payload as the body leaves them, and
    how it ends. *)
Definition process_payload (self : AudiobookshelfSensor) (payload : dict)
  : AudiobookshelfSensor * dict * result () :=
  let '(payload', processed) := _process_attributes self payload in
  match processed with
  | Ok processed_attributes =>
      let self' :=
        with_attributes self
          (dict_update (_attr_extra_state_attributes self) processed_attributes) in
      match _process_data self payload' with
      | Ok new_state =>
          if negb (in_zero_none new_state) || in_zero_none (_state self)
          then (with_state self' new_state, payload', Ok ())
          else (self', payload', Ok ())
      | Raise e => (self', payload', Raise e)
      | Unmodelled => (self', payload', Unmodelled)
      end
  | Raise e => (self, payload', Raise e)
  | Unmodelled => (self, payload', Unmodelled)
  end.

(** [async_update], given the coordinator's data: the entity and the
    data after the call, and how the call ends.  The payload passed to
    the two functions is the cached object itself, so what they write
    into it stays in the cache; [data.get(self._endpoint, {})] gives a new
    empty dict, which is no part of the cache, for an endpoint that is
    not cached. *)
Definition async_update (self : AudiobookshelfSensor) (data : option (gmap string json))
  : AudiobookshelfSensor * option (gmap string json) * result () :=
  match nonempty_data data with
  | Some cache =>
      match cache !! _endpoint self with
      | Some (JObj payload) =>
          let '(self', payload', r) := process_payload self payload in
          (self', Some (<[_endpoint self := JObj payload']> cache), r)
      | None =>
          let '(self', _, r) := process_payload self [] in
          (self', data, r)
      | Some _ => (self, data, Ok ())
      end
  | None => (self, data, Ok ())
  end.

(** * binary_sensor.py *)

(** The body of the [try] of [is_on]; the coordinator's data is any
    value, [None] included. *)
Definition is_on_body (coordinator_data : json) : result bool :=
  connectivity ← method_get coordinator_data "connectivity" (JStr "");
  coordinator_get ← method_get connectivity "success" (JStr "");
  Ok match coordinator_get with
     | JBool b => b
     | _ => false
     end.

(** The handlers of [is_on]: [KeyError] and [AttributeError] give
    [False], any other exception is raised again. *)
Definition is_on_except (body : result bool) : result bool :=
  match body with
  | Raise e =>
      if is_key_error e then Ok false
      else if is_attribute_error e then Ok false
      else Raise e
  | _ => body
  end.

Definition is_on (coordinator_data : json) : result bool :=
  is_on_except (is_on_body coordinator_data).

(** * sensor.py: the last state of an entity *)

(** The host's stored state of an entity, what [async_get_last_state]
    returns when there is one: its [state] and its [attributes]. *)
Module State.
Record t : Type := {
  state : json;
  attributes : dict
}.
End State.

(** [async_added_to_hass]: the entity takes its last state unless it is
    the sensor of "api/authorize".  The second component is the attribute
    [_attributes] that the method assigns, [None] when it assigns none; no
    other method reads it. *)
Definition async_added_to_hass (self : AudiobookshelfSensor) (last_state : option State.t)
  : AudiobookshelfSensor * option dict :=
  if negb (String.eqb (_endpoint self) "api/authorize") then
    match last_state with
    | Some last => (with_state self (State.state last), Some (State.attributes last))
    | None => (self, None)
    end
  else (self, None).

(** * __init__.py, and the set-up of the sensor platform *)

(** Modelled from the spec: the keys of the entry's data are constants of
    the host ([homeassistant.const]); the specification's section 6 names
    them. *)
Module Const.
Definition CONF_API_KEY : string := "api_key".
Definition CONF_URL : string := "url".
Definition CONF_SCAN_INTERVAL : string := "scan_interval".
End Const.

(** The body of the [try] of [clean_config]. *)
Definition clean_config_body (data : dict) : result dict :=
  api_key ← getitem Const.CONF_API_KEY data;
  if truthy api_key then Ok (dict_set Const.CONF_API_KEY (JStr "<redacted>") data)
  else Ok data.

(** [clean_config]: the api key is replaced in [data] itself, which is
    returned; an exception of the body is logged and [data] returned as
    it is. *)
Definition clean_config (data : dict) : dict :=
  match clean_config_body data with
  | Ok data' => data'
  | _ => data
  end.

(** The exception that tells the host to set the entry up again later;
    its message is left out. *)
Definition ConfigEntryNotReady : exn := OtherError "ConfigEntryNotReady".

(** The test of the connection that both [async_setup_entry] begin with:
    a GET of "api/libraries" whose status must be 200; the body is not
    read.  A client error becomes [ConfigEntryNotReady]. *)
Definition test_connection (o : Outcome) : result () :=
  except_client_error
    match o with
    | RequestError e => Raise e
    | Response status _ | BadBody status _ =>
        if negb (status =? HTTP_OK)%Z then Raise ConfigEntryNotReady else Ok ()
    end
    (fun _ => Raise ConfigEntryNotReady).

Module Init.
(** [async_setup_entry] of the integration.  [validate_config] (of
    [config_flow.py]) and the host's [async_forward_entry_setups] are not
    among the sources: what they return or raise is given. *)
Definition async_setup_entry (entry_data : option Config) (server : Request -> Outcome)
    (validate_config forward_entry_setups : result ()) : result bool :=
  match entry_data with
  | None => Raise ConfigEntryNotReady
  | Some conf =>
      _ ← test_connection (server (request conf "api/libraries"));
      _ ← validate_config;
      _ ← forward_entry_setups;
      Ok true
  end.
End Init.

Module SensorPlatform.
(** What [async_setup_entry] of the sensor platform hands to the host:
    the coordinator after its first refresh and the entities, here by the
    key of their sensor (the order of the list is that of [sensors],
    which the registry does not keep). *)
Record Setup : Type := {
  coordinator : Coordinator;
  entities : gmap string AudiobookshelfSensor
}.

(** [async_setup_entry] of the sensor platform: the test of the
    connection, the discovery of the libraries, their sensors, the first
    refresh and one entity for each sensor.  The host's
    [async_config_entry_first_refresh] is given as [first_refresh], from
    the registry to the coordinator or to the exception it raises.  The
    first component is the global [sensors] as the call leaves it. *)
Definition async_setup_entry (conf : Config)
    (probe_server listing_server : Request -> Outcome)
    (first_refresh : gmap string Sensor -> result Coordinator)
    (registry : gmap string Sensor)
  : gmap string Sensor * result Setup :=
  match test_connection (probe_server (request conf "api/libraries")) with
  | Ok _ =>
      match get_libraries conf listing_server with
      | Ok libraries =>
          let registry' := generate_library_sensors libraries registry in
          (registry',
           coordinator ← first_refresh registry';
           Ok {| coordinator := coordinator; entities := new_sensor <$> registry' |})
      | Raise e => (registry, Raise e)
      | Unmodelled => (registry, Unmodelled)
      end
  | Raise e => (registry, Raise e)
  | Unmodelled => (registry, Unmodelled)
  end.
End SensorPlatform.

(** * Examples of the specification *)

(** The library of the specification's end-to-end scenario,
    [{id: "lib1", name: "Books"}]. *)
Definition lib1 : Library.t := {|
  Library.id := "lib1"; Library.name := "Books"; Library.folders := None;
  Library.display_order := None; Library.icon := None;
  Library.media_type := None; Library.provider := None;
  Library.settings := None; Library.last_scan := None;
  Library.last_scan_version := None; Library.created_at := None;
  Library.last_update := None |}.

(** Three users: one active, one inactive, and the active account "hass"
    of the integration itself. *)
Definition three_users : list json :=
  [JObj [("username", JStr "root"); ("isActive", JBool true)];
   JObj [("username", JStr "guest"); ("isActive", JBool false)];
   JObj [("username", JStr "hass"); ("isActive", JBool true)]].

Definition three_users_payload : dict := [("users", JList three_users)].

(** The entity of the items sensor of [lib1], showing [state]. *)
Definition items_entity (state : json) : AudiobookshelfSensor :=
  with_state (new_sensor (items_sensor lib1)) state.

(** A cache that holds [payload] for the statistics of [lib1] only. *)
Definition stats_cache (payload : json) : gmap string json :=
  {[ library_stats_endpoint "lib1" := payload ]}.

(** A cache that holds the users' payload only. *)
Definition users_cache : gmap string json :=
  {[ "api/users" := JObj three_users_payload ]}.

(** A server that answers every request with status 500. *)
Definition server_down : Request -> Outcome :=
  fun _ => Response 500 JNull.

(** A server none of whose answers arrives in time: every request raises
    the [TimeoutError] of [asyncio], which is no [aiohttp.ClientError]. *)
Definition server_timeout : Request -> Outcome :=
  fun _ => RequestError (OtherError "TimeoutError").

(** A server that answers every request with status 200 and [{}]. *)
Definition server_empty : Request -> Outcome :=
  fun _ => Response 200 (JObj []).

Definition example_conf : Config := {|
  CONF_API_KEY := "secret";
  CONF_URL := "http://abs.local";
  CONF_SCAN_INTERVAL := 300 |}.

(** A coordinator that holds the users' payload from an earlier cycle. *)
Definition example_coordinator : Coordinator := {|
  conf := example_conf;
  data := Some users_cache;
  last_update_success := true |}.

(** The registry of the end-to-end scenario: the four fixed sensors and
    the three of [lib1]. *)
Definition scenario_registry : gmap string Sensor :=
  generate_library_sensors [lib1] sensors.

(** The answer of a server to the request for the libraries. *)
Definition libraries_server (o : Outcome) : Request -> Outcome := fun _ => o.

(** A listing whose only library has an id and no name, and a listing
    whose only entry is a number. *)
Definition nameless_listing : json :=
  JObj [("libraries", JList [JObj [("id", JStr "lib1")]])].

Definition number_listing : json :=
  JObj [("libraries", JList [JInt 5])].

(** The listing of the end-to-end scenario. *)
Definition scenario_listing : json :=
  JObj [("libraries", JList [JObj [("id", JStr "lib1"); ("name", JStr "Books")]])].

(** * Vocabulary of the statements *)

(** A field of a record, [None] when [u] is no dict or lacks the key. *)
Definition field (u : json) (k : string) : option json :=
  match u with
  | JObj d => dict_get k d
  | _ => None
  end.

(** A user record: [isActive] is a boolean and [username] a string. *)
Definition user_record (u : json) : Prop :=
  ∃ (b : bool) (n : string),
    field u "isActive" = Some (JBool b) ∧ field u "username" = Some (JStr n).

(** The users that count: [isActive] is [true] and [username] is not
    "hass". *)
Definition active_not_hass (u : json) : bool :=
  match field u "isActive", field u "username" with
  | Some (JBool true), Some (JStr n) => negb (String.eqb n "hass")
  | _, _ => false
  end.

(** The ids of the libraries, as a set. *)
Definition library_ids (libraries : list Library.t) : gset string :=
  list_to_set (Library.id <$> libraries).

(** The three registry keys of a library id. *)
Definition library_keys (library_id : string) : list string :=
  [size_key library_id; items_key library_id; duration_key library_id].

(** [lib1] under another name. *)
Definition lib1_renamed : Library.t := {|
  Library.id := "lib1"; Library.name := "Audiobooks"; Library.folders := None;
  Library.display_order := None; Library.icon := None;
  Library.media_type := None; Library.provider := None;
  Library.settings := None; Library.last_scan := None;
  Library.last_scan_version := None; Library.created_at := None;
  Library.last_update := None |}.

(** A key in snake style: no upper-case character, no underscore in
    front. *)
Fixpoint no_upper (s : string) : bool :=
  match s with
  | EmptyString => true
  | String c s' => negb (isupper c) && no_upper s'
  end.

Definition snake_style (key : string) : bool :=
  no_upper key && match key with String "_" _ => false | _ => true end.

(** Every key of every dict inside [data] is in snake style. *)
Fixpoint keys_snake_style (data : json) : bool :=
  match data with
  | JObj kvs => forallb (fun kv => snake_style kv.1 && keys_snake_style kv.2) kvs
  | JList l => forallb keys_snake_style l
  | _ => true
  end.

(** An ASCII character, a string of ASCII characters, and a JSON value
    in which every key of every dict is one.  On these the case functions
    of the model are Python's. *)
Definition is_ascii (c : ascii) : bool := (nat_of_ascii c <? 128)%nat.

Fixpoint ascii_string (s : string) : bool :=
  match s with
  | EmptyString => true
  | String c s' => is_ascii c && ascii_string s'
  end.

Fixpoint ascii_keys (data : json) : bool :=
  match data with
  | JObj kvs => forallb (fun kv => ascii_string kv.1 && ascii_keys kv.2) kvs
  | JList l => forallb ascii_keys l
  | _ => true
  end.

(** The words of a key in camel style: a new word begins at each
    upper-case character, so the first word has none and may be empty. *)
Fixpoint camel_words (key : string) : list string :=
  match key with
  | EmptyString => [EmptyString]
  | String c key' =>
      match camel_words key' with
      | word :: words =>
          if isupper c then EmptyString :: String c word :: words
          else String c word :: words
      | [] => [String c EmptyString]
      end
  end.

(** A word in lower case. *)
Fixpoint lower_string (s : string) : string :=
  match s with
  | EmptyString => EmptyString
  | String c s' => String (lower c) (lower_string s')
  end.

(** A word that begins with an upper-case character, its only one. *)
Definition capitalised (word : string) : Prop :=
  ∃ c rest, word = String c rest ∧ isupper c = true ∧ no_upper rest = true.

Fixpoint underscores (n : nat) : string :=
  match n with
  | O => EmptyString
  | S n' => String "_" (underscores n')
  end.

(** The example of the specification's section 8. *)
Definition camel_example : json :=
  JObj [("mediaType", JStr "book"); ("nested", JObj [("lastScan", JInt 1)])].

Definition snake_example : json :=
  JObj [("media_type", JStr "book"); ("nested", JObj [("last_scan", JInt 1)])].

(** Induction on a JSON value, with the items of a list and the values
    of a dict as smaller values. *)
Section JsonInduction.
Variable P : json -> Prop.
Hypothesis HNull : P JNull.
Hypothesis HBool : ∀ b, P (JBool b).
Hypothesis HInt : ∀ n, P (JInt n).
Hypothesis HFloat : ∀ f, P (JFloat f).
Hypothesis HStr : ∀ s, P (JStr s).
Hypothesis HList : ∀ l, Forall P l → P (JList l).
Hypothesis HObj : ∀ kvs, Forall (fun kv => P kv.2) kvs → P (JObj kvs).

Fixpoint json_ind (data : json) : P data :=
  match data with
  | JNull => HNull
  | JBool b => HBool b
  | JInt n => HInt n
  | JFloat f => HFloat f
  | JStr s => HStr s
  | JList l =>
      HList l ((fix items (l : list json) : Forall P l :=
                  match l with
                  | [] => @List.Forall_nil _ P
                  | x :: l' => @List.Forall_cons _ P x l' (json_ind x) (items l')
                  end) l)
  | JObj kvs =>
      HObj kvs ((fix entries (kvs : list (string * json))
                   : Forall (fun kv => P kv.2) kvs :=
                   match kvs with
                   | [] => @List.Forall_nil _ _
                   | kv :: kvs' =>
                       @List.Forall_cons _ (fun kv => P kv.2) kv kvs' (json_ind kv.2) (entries kvs')
                   end) kvs)
  end.
End JsonInduction.

(** The value of the finite float with mantissa [m] and exponent [e],
    without its sign: the fraction of [float_num m e] and [float_den e],
    that is [m * 2^e]. *)
Definition float_num (m : positive) (e : Z) : Z := (Zpos m * 2 ^ Z.max e 0)%Z.
Definition float_den (e : Z) : Z := (2 ^ Z.max (- e) 0)%Z.

(** The float of the whole number [k >= 0] taken with the sign [sign]:
    [-0.0] for zero with the sign of a negative number. *)
Definition signed_whole (sign : bool) (k : Z) : spec_float :=
  if (k =? 0)%Z then S754_zero sign else float_of_Z (if sign then (- k)%Z else k).

(** A fetch that fails the cycle: a status that is not 200, or a client
    error of the request or of the decoding of the body. *)
Definition cycle_fatal (o : Outcome) : bool :=
  match o with
  | Response status _ => negb (status =? HTTP_OK)%Z
  | BadBody status e => negb (status =? HTTP_OK)%Z || is_client_error e
  | RequestError e => is_client_error e
  end.

(** An exception that is no client error and leaves a fetch as it is. *)
Definition stray_error (o : Outcome) : option exn :=
  match o with
  | Response _ _ => None
  | BadBody status e =>
      if (status =? HTTP_OK)%Z && negb (is_client_error e) then Some e else None
  | RequestError e => if is_client_error e then None else Some e
  end.

(** A fetch that gives the cycle no JSON body: every outcome but a
    response with status 200 whose body decodes. *)
Definition fetch_fails (o : Outcome) : bool :=
  match o with
  | Response status _ => negb (status =? HTTP_OK)%Z
  | BadBody _ _ | RequestError _ => true
  end.

(** [r] raises nothing but exceptions that satisfy [P]. *)
Definition raises_only {A : Type} (P : exn -> Prop) (r : result A) : Prop :=
  match r with
  | Raise e => P e
  | _ => True
  end.

(** * Further examples and vocabulary *)

(** [isinstance(v, dict)] *)
Definition is_dict (v : json) : bool :=
  match v with JObj _ => true | _ => false end.

(** A user after [user["token"] = "<redacted>"]. *)
Definition redacted (user : json) : json :=
  match user with
  | JObj u => JObj (dict_set "token" (JStr "<redacted>") u)
  | _ => user
  end.

(** A users' payload in which the one user holds a token. *)
Definition token_user : json :=
  JObj [("username", JStr "root"); ("isActive", JBool true); ("token", JStr "abc")].

Definition token_payload : dict := [("users", JList [token_user])].

(** The entity of the users sensor. *)
Definition users_entity : AudiobookshelfSensor :=
  new_sensor {|
    endpoint := "api/users";
    name := "Audiobookshelf Users";
    unique_id := None;
    data_function := count_active_users;
    attributes_function := clean_user_attributes;
    unit_name := "users" |}.

(** The entry of the details that [extract_library_details] makes of one
    library: under its id, when that is a [str] and not empty, its
    [mediaType] and [provider], [None] where it has none. *)
Definition detail_of (library : json) : option (string * json) :=
  match field library "id" with
  | Some (JStr library_id) =>
      if String.eqb library_id "" then None
      else Some (library_id,
                 JObj [("mediaType", default JNull (field library "mediaType"));
                       ("provider", default JNull (field library "provider"))])
  | _ => None
  end.

(** A library of a listing as the server sends them: a dict whose id, if
    it has one, is a [str] or a value that counts as false. *)
Definition plain_library (library : json) : bool :=
  match library with
  | JObj d =>
      match dict_get "id" d with
      | Some (JStr _) | None => true
      | Some v => negb (truthy v)
      end
  | _ => false
  end.

(** A listing of two libraries and an entry without id. *)
Definition details_listing : dict :=
  [("libraries",
    JList [JObj [("id", JStr "lib1"); ("mediaType", JStr "book"); ("provider", JStr "audible")];
           JObj [("name", JStr "No id")];
           JObj [("id", JStr "lib2"); ("mediaType", JStr "podcast")]])].

(** The payload of the statistics of the scenario's library. *)
Definition scenario_stats : dict :=
  [("totalSize", JInt 1073741824); ("totalItems", JInt 10); ("totalDuration", JInt 3600)].

(** A server that answers every request with status 200 and the
    scenario's statistics. *)
Definition stats_server : Request -> Outcome :=
  fun _ => Response 200 (JObj scenario_stats).

(** The entity of the libraries sensor, showing the details of a library
    "gone" from an earlier update. *)
Definition libraries_entity : AudiobookshelfSensor :=
  with_attributes
    (new_sensor {|
       endpoint := "api/libraries";
       name := "Audiobookshelf Libraries";
       unique_id := None;
       data_function := count_libraries;
       attributes_function := pure_attributes get_library_stats;
       unit_name := "libraries" |})
    [("gone", JObj [("mediaType", JStr "book"); ("provider", JNull)])].

(** The status of the response, when there is one. *)
Definition status_of (o : Outcome) : option Z :=
  match o with
  | Response status _ | BadBody status _ => Some status
  | RequestError _ => None
  end.

(** The names of the fields of [Library]. *)
Definition library_fields : list string :=
  ["id"; "name"; "folders"; "display_order"; "icon"; "media_type"; "provider";
   "settings"; "last_scan"; "last_scan_version"; "created_at"; "last_update"].

(** The same names in camel style. *)
Definition camel_library_fields : list string :=
  ["id"; "name"; "folders"; "displayOrder"; "icon"; "mediaType"; "provider";
   "settings"; "lastScan"; "lastScanVersion"; "createdAt"; "lastUpdate"].

(** The names of the fields of [LibrarySettings] and of [LibraryFolder],
    and the same names in camel style. *)
Definition settings_fields : list string :=
  ["cover_aspect_ratio"; "disable_watcher"; "auto_scan_cron_expression";
   "skip_matching_media_with_asin"; "skip_matching_media_with_isbn";
   "audiobooks_only"; "epubs_allow_scripted_content"; "hide_single_book_series";
   "only_show_later_books_in_continue_series"; "metadata_precedence";
   "mark_as_finished_percent_complete"; "mark_as_finished_time_remaining";
   "id"; "full_path"; "library_id"; "added_at"].

Definition camel_settings_fields : list string :=
  ["coverAspectRatio"; "disableWatcher"; "autoScanCronExpression";
   "skipMatchingMediaWithAsin"; "skipMatchingMediaWithIsbn";
   "audiobooksOnly"; "epubsAllowScriptedContent"; "hideSingleBookSeries";
   "onlyShowLaterBooksInContinueSeries"; "metadataPrecedence";
   "markAsFinishedPercentComplete"; "markAsFinishedTimeRemaining";
   "id"; "fullPath"; "libraryId"; "addedAt"].

(** * Properties *)

#[local] Set Warnings "-clear-no-such-hyp".

Section ConnectivitySensor.

Lemma is_on_body_raises (data : json) (e : exn) :
  is_on_body data = Raise e → e = AttributeError.
Proof.
  unfold is_on_body, method_get.
  destruct data; simpl; try congruence.
  destruct (get_or "connectivity" (JStr "") kvs); simpl; congruence.
Qed.

Lemma is_on_total (data : json) :
  ∃ b : bool, is_on data = Ok b.
Proof.
  unfold is_on, is_on_body, method_get.
  destruct data; simpl; eauto.
  destruct (get_or "connectivity" (JStr "") kvs); simpl; eauto.
Qed.

Lemma is_on_true_iff (data : json) :
  is_on data = Ok true ↔
  ∃ d c, data = JObj d ∧ dict_get "connectivity" d = Some (JObj c)
         ∧ dict_get "success" c = Some (JBool true).
Proof.
  unfold is_on, is_on_body, method_get, get_or. split.
  - destruct data as [| | | | |l|d]; simpl; try discriminate.
    destruct (dict_get "connectivity" d) as [c|] eqn:Hc; simpl; [|discriminate].
    destruct c as [| | | | |l|c]; simpl; try discriminate.
    destruct (dict_get "success" c) as [s|] eqn:Hs; simpl; [|discriminate].
    destruct s as [|[]| | | | |]; simpl; try discriminate.
    intros _. eauto.
  - intros (d & c & -> & Hc & Hs). simpl. rewrite Hc. simpl. rewrite Hs. done.
Qed.

(** C8: [is_on] is [True] exactly when the coordinator's data is a dict
    whose "connectivity" entry is a dict whose "success" entry is the
    boolean [True]; on every other data (a missing key, a value of
    another type) it returns [False] and raises nothing, the only
    exception of the body being an [AttributeError], which is caught; and
    the handlers raise again every exception that is neither a [KeyError]
    nor an [AttributeError]. *)
Theorem is_on_connectivity_success :
  (∀ data : json,
      (is_on data = Ok true ↔
       ∃ d c, data = JObj d ∧ dict_get "connectivity" d = Some (JObj c)
              ∧ dict_get "success" c = Some (JBool true))
      ∧ (is_on data = Ok true ∨ is_on data = Ok false)
      ∧ (∀ e, is_on_body data = Raise e → e = AttributeError))
  ∧ (∀ e : exn,
      is_on_except (Raise e) =
        if is_key_error e || is_attribute_error e then Ok false else Raise e).
Proof.
  split.
  - intros data. split; [apply is_on_true_iff|]. split.
    + destruct (is_on_total data) as [[] ->]; auto.
    + apply is_on_body_raises.
  - intros e. unfold is_on_except. destruct (is_key_error e); simpl; [done|].
    by destruct (is_attribute_error e).
Qed.

End ConnectivitySensor.

Section ActiveUsers.

(** The loop body of [count_active_users]. *)
Let count_user (count : Z) (user : json) : result Z :=
  is_active ← subscript user "isActive";
  if truthy is_active then
    username ← subscript user "username";
    if negb (eq_str username "hass") then Ok (count + 1)%Z else Ok count
  else Ok count.

Lemma count_user_record (count : Z) (user : json) :
  user_record user →
  count_user count user =
    Ok (if active_not_hass user then count + 1 else count)%Z.
Proof.
  intros (b & n & Hb & Hn). unfold count_user, active_not_hass.
  destruct user as [| | | | | |d]; simpl in Hb, Hn; try discriminate.
  simpl. unfold getitem. rewrite Hb, Hn. simpl.
  destruct b; simpl; [|done].
  by destruct (String.eqb n "hass").
Qed.

Lemma count_users_records (users : list json) (count : Z) :
  Forall user_record users →
  foldM count_user count users =
    Ok (count + Z.of_nat (length (List.filter active_not_hass users)))%Z.
Proof.
  intros Hall. revert count.
  induction Hall as [|user users Huser _ IH]; intros count; simpl.
  - f_equal. lia.
  - rewrite (count_user_record _ _ Huser). simpl.
    rewrite IH. destruct (active_not_hass user); simpl; f_equal; lia.
Qed.

(** C10: when "users" holds a list of user records, [count_active_users]
    returns the number of users whose [isActive] is [true] and whose
    [username] is not "hass". *)
Theorem count_active_users_excludes_hass (data : dict) (users : list json) :
  dict_get "users" data = Some (JList users) →
  Forall user_record users →
  count_active_users data =
    Ok (JInt (Z.of_nat (length (List.filter active_not_hass users)))).
Proof.
  intros Hget Hall. unfold count_active_users, getitem. rewrite Hget. simpl.
  change (foldM _ 0%Z users) with (foldM count_user 0%Z users).
  rewrite (count_users_records _ _ Hall). done.
Qed.

Lemma count_active_users_excludes_hass_witness :
  count_active_users three_users_payload = Ok (JInt 1).
Proof.
  refine (count_active_users_excludes_hass three_users_payload three_users eq_refl _).
  repeat constructor.
  - by exists true, "root".
  - by exists false, "guest".
  - by exists true, "hass".
Defined.

End ActiveUsers.

Section SensorUpdate.

Lemma nonempty_data_lookup (cache : gmap string json) (k : string) (v : json) :
  cache !! k = Some v → nonempty_data (Some cache) = Some cache.
Proof.
  intros Hk. unfold nonempty_data.
  destruct (Nat.eqb_spec (size cache) 0) as [Hsize|]; [|done].
  apply map_size_empty_iff in Hsize. subst cache.
  by rewrite lookup_empty in Hk.
Qed.

Lemma process_payload_state (self : AudiobookshelfSensor) (payload payload' attrs : dict)
    (new_state : json) :
  _process_attributes self payload = (payload', Ok attrs) →
  _process_data self payload' = Ok new_state →
  process_payload self payload =
    (with_attributes
       (with_state self
          (if in_zero_none new_state && negb (in_zero_none (_state self))
           then _state self else new_state))
       (dict_update (_attr_extra_state_attributes self) attrs),
     payload', Ok ()).
Proof.
  intros Hattrs Hdata. unfold process_payload. rewrite Hattrs. simpl.
  rewrite Hdata.
  destruct (in_zero_none new_state), (in_zero_none (_state self)), self; reflexivity.
Qed.

(** C1: when the cached payload of the entity's endpoint is a dict and
    the two functions return, the attributes function leaving the payload
    as [payload'] and the data function computing [new_state] from it,
    the state after [async_update] is the previous state if [new_state] is
    zero or [None] and the previous state is neither, and [new_state] in
    every other case.  So a state 42 stays 42 on a new value 0, a state 0
    stays 0 on a new value 0, and a state [None] becomes 5 on a new
    value 5. *)
Theorem async_update_zero_suppression (self : AudiobookshelfSensor)
    (cache : gmap string json) (payload payload' attrs : dict) (new_state : json) :
  cache !! _endpoint self = Some (JObj payload) →
  _process_attributes self payload = (payload', Ok attrs) →
  _process_data self payload' = Ok new_state →
  let after := (async_update self (Some cache)).1.1 in
  _state after =
    (if in_zero_none new_state && negb (in_zero_none (_state self))
     then _state self else new_state)
  ∧ (_state self = JInt 42 → new_state = JInt 0 → _state after = JInt 42)
  ∧ (_state self = JInt 0 → new_state = JInt 0 → _state after = JInt 0)
  ∧ (_state self = JNull → new_state = JInt 5 → _state after = JInt 5).
Proof.
  intros Hcache Hattrs Hdata after.
  assert (Hafter : _state after =
    (if in_zero_none new_state && negb (in_zero_none (_state self))
     then _state self else new_state)).
  { subst after. unfold async_update.
    rewrite (nonempty_data_lookup _ _ _ Hcache), Hcache.
    rewrite (process_payload_state _ _ _ _ _ Hattrs Hdata). reflexivity. }
  split; [exact Hafter|].
  repeat split; intros Hs Hn; rewrite Hafter, Hs, Hn; reflexivity.
Qed.

(** The items sensor of [lib1] shows 42 and the statistics report no
    item: it goes on showing 42. *)
Lemma async_update_zero_suppression_witness :
  _state (async_update (items_entity (JInt 42))
            (Some (stats_cache (JObj [("totalItems", JInt 0)])))).1.1 = JInt 42.
Proof.
  refine (proj1 (proj2 (async_update_zero_suppression (items_entity (JInt 42))
            (stats_cache (JObj [("totalItems", JInt 0)]))
            [("totalItems", JInt 0)] [("totalItems", JInt 0)] [("totalItems", JInt 0)]
            (JInt 0) _ _ _)) _ _); reflexivity.
Defined.

(** C3, the part that holds: [async_update] changes nothing (neither the
    state nor the attributes, nor the coordinator's data) when the
    coordinator's data is [None] or empty, and when the endpoint's cached
    payload is there and is no dict.  When the data is not empty and has
    no entry for the endpoint, the update runs as on the payload [{}]. *)
Theorem async_update_noop (self : AudiobookshelfSensor)
    (data : option (gmap string json)) :
  (nonempty_data data = None → async_update self data = (self, data, Ok ()))
  ∧ (∀ cache v, data = Some cache → cache !! _endpoint self = Some v →
       (∀ payload, v ≠ JObj payload) →
       async_update self data = (self, data, Ok ()))
  ∧ (∀ cache, nonempty_data data = Some cache → cache !! _endpoint self = None →
       async_update self data =
         ((process_payload self []).1.1, data, (process_payload self []).2)).
Proof.
  unfold async_update. repeat split.
  - by intros ->.
  - intros cache v -> Hv Hno.
    rewrite (nonempty_data_lookup _ _ _ Hv), Hv.
    destruct v; try done. by destruct (Hno kvs).
  - intros cache -> ->. by destruct (process_payload self []) as [[? ?] ?].
Qed.

(** The cached statistics of [lib1] are a list, not a dict: nothing
    changes. *)
Lemma async_update_noop_witness :
  async_update (items_entity (JInt 7)) (Some (stats_cache (JList []))) =
    (items_entity (JInt 7), Some (stats_cache (JList [])), Ok ()).
Proof.
  refine (proj1 (proj2 (async_update_noop (items_entity (JInt 7))
            (Some (stats_cache (JList []))))) (stats_cache (JList [])) (JList [])
            eq_refl _ _).
  - reflexivity.
  - discriminate.
Defined.

(** C3 as stated fails: the cache holds the users' payload and nothing
    for the statistics of [lib1]; the items sensor of [lib1], showing 0,
    is updated from [{}] and shows [None] afterwards. *)
Lemma async_update_missing_entry_changes_state :
  users_cache !! _endpoint (items_entity (JInt 0)) = None
  ∧ _state (items_entity (JInt 0)) = JInt 0
  ∧ _state (async_update (items_entity (JInt 0)) (Some users_cache)).1.1 = JNull.
Proof. repeat split; reflexivity. Qed.

End SensorUpdate.

Section Dicts.
Context {V : Type}.
Implicit Types (d l : list (string * V)) (k : string) (v : V).

Lemma dict_get_set k k' v d :
  dict_get k (dict_set k' v d) = if String.eqb k k' then Some v else dict_get k d.
Proof.
  induction d as [|[k0 v0] d IH]; simpl.
  - done.
  - destruct (String.eqb_spec k' k0) as [->|Hne]; simpl.
    + by destruct (String.eqb_spec k k0).
    + rewrite IH. destruct (String.eqb_spec k k0) as [->|]; [|done].
      by rewrite (proj2 (String.eqb_neq k0 k')).
Qed.

Lemma dict_get_app k d l :
  dict_get k (d ++ l) =
    match dict_get k d with Some v => Some v | None => dict_get k l end.
Proof.
  induction d as [|[k0 v0] d IH]; simpl; [done|].
  by destruct (String.eqb k k0).
Qed.

(** In the dict built from pairs, a key has the value of its last pair. *)
Lemma dict_get_update k d l :
  dict_get k (dict_update d l) =
    match dict_get k (rev l) with Some v => Some v | None => dict_get k d end.
Proof.
  unfold dict_update. revert d.
  induction l as [|[k0 v0] l IH]; intros d; simpl; [done|].
  rewrite IH, dict_get_app, dict_get_set. simpl.
  destruct (dict_get k (rev l)); [done|].
  by destruct (String.eqb k k0).
Qed.

Lemma dict_set_fresh k v d :
  k ∉ dict_keys d → dict_set k v d = d ++ [(k, v)].
Proof.
  unfold dict_keys. induction d as [|[k0 v0] d IH]; simpl; [done|].
  intros Hk. apply not_elem_of_cons in Hk as [Hne Hk].
  rewrite (proj2 (String.eqb_neq k k0)) by done. by rewrite IH.
Qed.

(** Pairs with distinct new keys are appended in their order. *)
Lemma dict_update_fresh d l :
  NoDup (dict_keys l) → (∀ k, k ∈ dict_keys l → k ∉ dict_keys d) →
  dict_update d l = d ++ l.
Proof.
  unfold dict_update, dict_keys. revert d.
  induction l as [|[k0 v0] l IH]; intros d Hnodup Hfresh; simpl.
  - by rewrite app_nil_r.
  - rewrite fmap_cons in Hnodup. apply NoDup_cons in Hnodup as [Hk0 Hnodup].
    rewrite dict_set_fresh by (apply Hfresh; simpl; left).
    rewrite IH; [by rewrite <- app_assoc|done|].
    intros k Hk. rewrite fmap_app, elem_of_app. intros [Hd|Hin].
    + by apply (Hfresh k); [right|].
    + simpl in Hin. apply list_elem_of_singleton in Hin. by subst.
Qed.

Lemma Forall_dict_set (P : string * V → Prop) k v d :
  P (k, v) → Forall P d → Forall P (dict_set k v d).
Proof.
  intros Hkv Hd. induction Hd as [|[k0 v0] d H0 Hd IH]; simpl.
  - by constructor.
  - destruct (String.eqb k k0); by constructor.
Qed.

Lemma Forall_dict_update (P : string * V → Prop) d l :
  Forall P d → Forall P l → Forall P (dict_update d l).
Proof.
  unfold dict_update. intros Hd Hl. revert d Hd.
  induction Hl as [|[k0 v0] l H0 Hl IH]; intros d Hd; simpl; [done|].
  apply IH. by apply Forall_dict_set.
Qed.

End Dicts.

Section KeyConversion.

Lemma lower_not_upper (c : ascii) : isupper c = true → isupper (lower c) = false.
Proof.
  destruct c as [[] [] [] [] [] [] [] []]; vm_compute; congruence.
Qed.

Lemma no_upper_snake_chars (key : string) : no_upper (snake_chars key) = true.
Proof.
  induction key as [|c key IH]; simpl; [done|].
  destruct (isupper c) eqn:Hc; simpl.
  - by rewrite (lower_not_upper c Hc), IH.
  - by rewrite Hc, IH.
Qed.

Lemma snake_style_lstrip (s : string) :
  no_upper s = true → snake_style (lstrip_underscore s) = true.
Proof.
  unfold snake_style. induction s as [|c s IH]; [done|].
  destruct c as [[] [] [] [] [] [] [] []];
    cbn [lstrip_underscore no_upper]; intros [Hc Hs]%andb_prop;
    first [ by apply IH | by rewrite Hc, Hs ].
Qed.

Lemma snake_chars_no_upper (key : string) :
  no_upper key = true → snake_chars key = key.
Proof.
  induction key as [|c key IH]; simpl; [done|].
  intros [Hc Hs]%andb_prop. apply negb_true_iff in Hc. by rewrite Hc, IH.
Qed.

Lemma _convert_key_snake_style (key : string) :
  snake_style (_convert_key key) = true.
Proof. apply snake_style_lstrip, no_upper_snake_chars. Qed.

Lemma _convert_key_fixes_snake_style (key : string) :
  snake_style key = true → _convert_key key = key.
Proof.
  unfold snake_style, _convert_key. intros [Hup Hfront]%andb_prop.
  rewrite (snake_chars_no_upper _ Hup).
  destruct key as [|c key]; [done|].
  destruct c as [[] [] [] [] [] [] [] []]; try reflexivity. discriminate.
Qed.

(** The condition on a value or an item, [isinstance(value, (dict,
    list))], changes nothing: [camel_to_snake] returns other values as
    they are. *)
Lemma camel_to_snake_value (value : json) :
  match value with
  | JObj _ | JList _ => camel_to_snake value
  | _ => value
  end = camel_to_snake value.
Proof. by destruct value. Qed.

Lemma camel_to_snake_list (l : list json) :
  camel_to_snake (JList l) = JList (map camel_to_snake l).
Proof.
  simpl. f_equal. apply map_ext. intros item. apply camel_to_snake_value.
Qed.

Lemma camel_to_snake_dict (kvs : dict) :
  camel_to_snake (JObj kvs) =
    JObj (dict_of_pairs
            (map (fun kv => (_convert_key kv.1, camel_to_snake kv.2)) kvs)).
Proof.
  simpl. do 2 f_equal. apply map_ext. intros [k v]. simpl. f_equal.
  by destruct v.
Qed.

Lemma camel_to_snake_keys_snake_style (data : json) :
  keys_snake_style (camel_to_snake data) = true.
Proof.
  induction data as [| | | | |l IH|kvs IH] using json_ind; try done.
  - rewrite camel_to_snake_list. simpl. apply forallb_forall.
    intros x [y [<- Hy]]%in_map_iff.
    rewrite Forall_forall in IH. apply IH. by apply list_elem_of_In.
  - rewrite camel_to_snake_dict. simpl. apply forallb_forall.
    intros kv Hkv. apply list_elem_of_In in Hkv. revert kv Hkv.
    apply Forall_forall. unfold dict_of_pairs.
    apply Forall_dict_update; [done|].
    apply Forall_forall. intros kv [[k v] [-> Hin]]%list_elem_of_fmap. simpl.
    rewrite _convert_key_snake_style. simpl.
    rewrite Forall_forall in IH. by apply (IH (k, v)).
Qed.

Lemma lower_not_upper_id (c : ascii) : isupper c = false → lower c = c.
Proof. unfold lower. by intros ->. Qed.

Lemma lower_string_no_upper (s : string) : no_upper s = true → lower_string s = s.
Proof.
  induction s as [|c s IH]; simpl; [done|].
  intros [Hc Hs]%andb_prop. apply negb_true_iff in Hc.
  by rewrite (lower_not_upper_id c Hc), IH.
Qed.

(** The words of a key: together they are the key, the first has no
    upper-case character, and each of the others begins with its only
    one. *)
Lemma camel_words_spec (key : string) :
  ∃ first rest, camel_words key = first :: rest
                ∧ no_upper first = true
                ∧ Forall capitalised rest
                ∧ String.concat "" (first :: rest) = key.
Proof.
  induction key as [|c key (first & rest & Hw & Hfirst & Hrest & Hcat)].
  - exists EmptyString, []. by repeat split.
  - simpl. rewrite Hw. destruct (isupper c) eqn:Hc.
    + exists EmptyString, (String c first :: rest). split; [done|]. split; [done|].
      split.
      * apply Forall_cons. split; [|done]. by exists c, first.
      * change (String.concat "" (String c first :: rest) = String c key).
        rewrite <- Hcat. by destruct rest.
    + exists (String c first), rest. split; [done|].
      split; [simpl; by rewrite Hc, Hfirst|]. split; [done|].
      rewrite <- Hcat. by destruct rest.
Qed.

(** The characters that [_convert_key] joins are the words of the key,
    in lower case, with an underscore between two of them. *)
Lemma snake_chars_words (key : string) :
  snake_chars key = String.concat "_" (map lower_string (camel_words key)).
Proof.
  induction key as [|c key IH]; [done|].
  destruct (camel_words_spec key) as (first & rest & Hw & _).
  simpl. rewrite Hw in *. destruct (isupper c) eqn:Hc.
  - rewrite IH. by destruct rest.
  - rewrite IH. cbn [map lower_string]. rewrite (lower_not_upper_id c Hc).
    by destruct rest.
Qed.

(** [s.lstrip("_")] takes the underscores in front of [s] away. *)
Lemma lstrip_underscore_spec (s : string) :
  ∃ n, s = (underscores n ++ lstrip_underscore s)%string.
Proof.
  induction s as [|c s [n IH]]; [by exists 0%nat|].
  destruct (Ascii.eqb_spec c "_") as [->|Hne].
  - exists (S n).
    change (String "_" s = String "_" (underscores n +:+ lstrip_underscore s)).
    by f_equal.
  - exists 0%nat. destruct c as [[] [] [] [] [] [] [] []]; try reflexivity.
    by destruct Hne.
Qed.

Lemma is_ascii_lower (c : ascii) : is_ascii c = true → is_ascii (lower c) = true.
Proof.
  destruct c as [[] [] [] [] [] [] [] []]; vm_compute; congruence.
Qed.

Lemma ascii_string_snake_chars (key : string) :
  ascii_string key = true → ascii_string (snake_chars key) = true.
Proof.
  induction key as [|c key IH]; simpl; [done|].
  intros [Hc Hs]%andb_prop. destruct (isupper c); simpl.
  - by rewrite (is_ascii_lower c Hc), IH.
  - by rewrite Hc, IH.
Qed.

Lemma ascii_string_lstrip (s : string) :
  ascii_string s = true → ascii_string (lstrip_underscore s) = true.
Proof.
  induction s as [|c s IH]; [done|].
  destruct c as [[] [] [] [] [] [] [] []];
    cbn [lstrip_underscore];
    first [ done | intros [_ Hs]%andb_prop; by apply IH ].
Qed.

Lemma ascii_string_convert_key (key : string) :
  ascii_string key = true → ascii_string (_convert_key key) = true.
Proof. intros Hkey. by apply ascii_string_lstrip, ascii_string_snake_chars. Qed.

Lemma camel_to_snake_ascii_keys (data : json) :
  ascii_keys data = true → ascii_keys (camel_to_snake data) = true.
Proof.
  induction data as [| | | | |l IH|kvs IH] using json_ind; try done.
  - rewrite camel_to_snake_list. simpl. intros Hl.
    apply forallb_forall. intros x [y [<- Hy]]%in_map_iff.
    rewrite Forall_forall in IH. apply IH; [by apply list_elem_of_In|].
    by apply (proj1 (forallb_forall _ _) Hl).
  - rewrite camel_to_snake_dict. simpl. intros Hkvs.
    apply forallb_forall.
    intros kv Hkv. apply list_elem_of_In in Hkv. revert kv Hkv.
    apply Forall_forall. unfold dict_of_pairs.
    apply Forall_dict_update; [done|].
    apply Forall_forall. intros kv [[k v] [-> Hin]]%list_elem_of_fmap. simpl.
    pose proof (proj1 (forallb_forall _ _) Hkvs (k, v)
                  (proj1 (list_elem_of_In _ _) Hin)) as [Hk Hv]%andb_prop.
    simpl in Hk, Hv. rewrite (ascii_string_convert_key k Hk). simpl.
    rewrite Forall_forall in IH. by apply (IH (k, v)).
Qed.

(** C4, for keys of ASCII characters: [camel_to_snake] returns a value
    that is no dict and no list as it is, converts the items of a list
    one by one, and turns a dict into the dict of the converted keys with
    the converted values, in which a key has the value of the last entry
    that converts to it; entry by entry, in order, when no two keys
    convert to the same key.  A key is converted word by word: its words,
    of which a new one begins at each upper-case character, are put in
    lower case and joined with an underscore between two of them, and the
    underscores in front of the result are taken away.  Every converted
    key is in snake style (no upper-case character, no underscore in
    front) and made of ASCII characters, a key in snake style is left as
    it is, and every key at every depth of the result is in snake style.
    The names of the fields of the three data classes, spelled in camel
    style, convert to the names of the fields, and the specification's
    example converts as it says. *)
Theorem camel_to_snake_converts_keys :
  (∀ data : json,
      ascii_keys data = true →
      match data with
      | JObj kvs =>
          ∀ key, field (camel_to_snake data) key =
            dict_get key (rev (map (fun kv => (_convert_key kv.1, camel_to_snake kv.2)) kvs))
      | JList l => camel_to_snake data = JList (map camel_to_snake l)
      | _ => camel_to_snake data = data
      end)
  ∧ (∀ kvs : dict,
      ascii_keys (JObj kvs) = true →
      NoDup (map _convert_key (dict_keys kvs)) →
      camel_to_snake (JObj kvs) =
        JObj (map (fun kv => (_convert_key kv.1, camel_to_snake kv.2)) kvs))
  ∧ (∀ key,
      ascii_string key = true →
      (∃ first rest n,
          camel_words key = first :: rest
          ∧ no_upper first = true
          ∧ Forall capitalised rest
          ∧ String.concat "" (first :: rest) = key
          ∧ String.concat "_" (map lower_string (first :: rest))
              = (underscores n ++ _convert_key key)%string)
      ∧ snake_style (_convert_key key) = true
      ∧ ascii_string (_convert_key key) = true
      ∧ (snake_style key = true → _convert_key key = key))
  ∧ (∀ data,
      ascii_keys data = true →
      keys_snake_style (camel_to_snake data) = true
      ∧ ascii_keys (camel_to_snake data) = true)
  ∧ map _convert_key camel_library_fields = library_fields
  ∧ map _convert_key camel_settings_fields = settings_fields
  ∧ camel_to_snake camel_example = snake_example.
Proof.
  split; [|split; [|split; [|split; [|by repeat split]]]].
  - intros [| | | | |l|kvs] _; try done.
    + apply camel_to_snake_list.
    + intros key. rewrite camel_to_snake_dict. simpl. unfold dict_of_pairs.
      rewrite dict_get_update. simpl.
      by destruct (dict_get key (rev _)).
  - intros kvs _ Hnodup. rewrite camel_to_snake_dict. f_equal.
    unfold dict_of_pairs. rewrite dict_update_fresh; [done| |].
    + unfold dict_keys in *. rewrite <- list_fmap_compose.
      by rewrite <- list_fmap_compose in Hnodup.
    + intros k _. apply not_elem_of_nil.
  - intros key Hkey. split; [|split; [|split]].
    + destruct (camel_words_spec key) as (first & rest & Hw & Hfirst & Hrest & Hcat).
      destruct (lstrip_underscore_spec (snake_chars key)) as [n Hn].
      exists first, rest, n. rewrite <- Hw, <- snake_chars_words.
      by rewrite Hw.
    + apply _convert_key_snake_style.
    + by apply ascii_string_convert_key.
    + apply _convert_key_fixes_snake_style.
  - intros data Hdata. split.
    + apply camel_to_snake_keys_snake_style.
    + by apply camel_to_snake_ascii_keys.
Qed.

(** Two keys, one of three words, neither of which converts to the
    other's converted form. *)
Lemma camel_to_snake_converts_keys_witness :
  camel_to_snake (JObj [("displayOrder", JInt 3); ("lastScanVersion", JNull)]) =
    JObj [("display_order", JInt 3); ("last_scan_version", JNull)].
Proof.
  refine (proj1 (proj2 camel_to_snake_converts_keys)
            [("displayOrder", JInt 3); ("lastScanVersion", JNull)] _ _).
  - reflexivity.
  - apply NoDup_cons. split.
    + intros [Heq|Hin]%elem_of_cons; [discriminate|]. by apply elem_of_nil in Hin.
    + apply NoDup_singleton.
Defined.

End KeyConversion.

Section RegistryKeys.

Lemma list_ascii_of_string_app (a b : string) :
  list_ascii_of_string (a +:+ b) = list_ascii_of_string a ++ list_ascii_of_string b.
Proof. induction a as [|c a IH]; simpl; [done|]. by rewrite IH. Qed.

Lemma list_ascii_of_string_inj (a b : string) :
  list_ascii_of_string a = list_ascii_of_string b → a = b.
Proof.
  intros H. rewrite <- (string_of_list_ascii_of_string a),
    <- (string_of_list_ascii_of_string b). by rewrite H.
Qed.

(** A suffix can be cancelled. *)
Lemma append_inj_l (a b s : string) : a +:+ s = b +:+ s → a = b.
Proof.
  intros H. apply list_ascii_of_string_inj.
  apply (f_equal list_ascii_of_string) in H.
  rewrite !list_ascii_of_string_app in H.
  by apply app_inj_2 in H as [? _].
Qed.

(** Strings that end with different characters differ. *)
Lemma append_last_ne (a b s t : string) (x y : ascii) :
  x ≠ y →
  a +:+ s +:+ String x EmptyString ≠ b +:+ t +:+ String y EmptyString.
Proof.
  intros Hxy H. apply (f_equal list_ascii_of_string) in H.
  rewrite !list_ascii_of_string_app in H. simpl in H.
  rewrite !app_assoc in H. by apply app_inj_tail in H as [_ ?].
Qed.

Lemma size_key_inj (a b : string) : size_key a = size_key b → a = b.
Proof. intros H. apply String.app_inj in H. by apply append_inj_l in H. Qed.

Lemma items_key_inj (a b : string) : items_key a = items_key b → a = b.
Proof. intros H. apply String.app_inj in H. by apply append_inj_l in H. Qed.

Lemma duration_key_inj (a b : string) : duration_key a = duration_key b → a = b.
Proof. intros H. apply String.app_inj in H. by apply append_inj_l in H. Qed.

Lemma size_items_ne (a b : string) : size_key a ≠ items_key b.
Proof.
  intros H. apply String.app_inj in H.
  by apply (append_last_ne a b "_siz" "_item" "e" "s").
Qed.

Lemma size_duration_ne (a b : string) : size_key a ≠ duration_key b.
Proof.
  intros H. apply String.app_inj in H.
  by apply (append_last_ne a b "_siz" "_duratio" "e" "n").
Qed.

Lemma items_duration_ne (a b : string) : items_key a ≠ duration_key b.
Proof.
  intros H. apply String.app_inj in H.
  by apply (append_last_ne a b "_item" "_duratio" "s" "n").
Qed.

Lemma NoDup_library_keys (a : string) : NoDup (library_keys a).
Proof.
  unfold library_keys. repeat (apply NoDup_cons; split); try apply NoDup_nil_2.
  - rewrite !elem_of_cons, elem_of_nil.
    intros [H|[H|[]]]; [by apply size_items_ne in H|by apply size_duration_ne in H].
  - rewrite !elem_of_cons, elem_of_nil.
    intros [H|[]]. by apply items_duration_ne in H.
  - apply not_elem_of_nil.
Qed.

Lemma library_keys_disjoint (a b k : string) :
  a ≠ b → k ∈ library_keys a → k ∉ library_keys b.
Proof.
  unfold library_keys. rewrite !elem_of_cons, !elem_of_nil.
  intros Hab [->|[->|[->|[]]]] [H|[H|[H|[]]]].
  - by apply size_key_inj in H.
  - by apply size_items_ne in H.
  - by apply size_duration_ne in H.
  - symmetry in H. by apply size_items_ne in H.
  - by apply items_key_inj in H.
  - by apply items_duration_ne in H.
  - symmetry in H. by apply size_duration_ne in H.
  - symmetry in H. by apply items_duration_ne in H.
  - by apply duration_key_inj in H.
Qed.

(** No key of a library is a key of one of the four fixed sensors. *)
Lemma sensors_lookup_library_key (a k : string) :
  k ∈ library_keys a → sensors !! k = None.
Proof.
  unfold library_keys, sensors. rewrite !elem_of_cons, elem_of_nil.
  intros [->|[->|[->|[]]]];
    (rewrite !lookup_insert_ne by (cbv; discriminate); apply lookup_empty).
Qed.

End RegistryKeys.

Section RegistryExtension.
Implicit Types (registry : gmap string Sensor) (libraries : list Library.t).

(** [sensors.update] with the three sensors of one library. *)
Let register (registry : gmap string Sensor) (library : Library.t) :=
  <[duration_key (Library.id library) := duration_sensor library]>
 (<[items_key (Library.id library) := items_sensor library]>
 (<[size_key (Library.id library) := size_sensor library]> registry)).

Lemma generate_library_sensors_snoc libraries library registry :
  generate_library_sensors (libraries ++ [library]) registry =
    register (generate_library_sensors libraries registry) library.
Proof. unfold generate_library_sensors. by rewrite foldl_snoc. Qed.

Lemma register_lookup_own registry library :
  register registry library !! size_key (Library.id library) = Some (size_sensor library)
  ∧ register registry library !! items_key (Library.id library) = Some (items_sensor library)
  ∧ register registry library !! duration_key (Library.id library)
      = Some (duration_sensor library).
Proof.
  unfold register. repeat split.
  - rewrite lookup_insert_ne by (intros H; symmetry in H; by apply size_duration_ne in H).
    rewrite lookup_insert_ne by (intros H; symmetry in H; by apply size_items_ne in H).
    apply lookup_insert_eq.
  - rewrite lookup_insert_ne by (intros H; symmetry in H; by apply items_duration_ne in H).
    apply lookup_insert_eq.
  - apply lookup_insert_eq.
Qed.

Lemma register_lookup_other registry library (k : string) :
  k ∉ library_keys (Library.id library) →
  register registry library !! k = registry !! k.
Proof.
  unfold register, library_keys. rewrite !not_elem_of_cons. intros (? & ? & ? & _).
  by rewrite !lookup_insert_ne.
Qed.

Lemma generate_library_sensors_lookup libraries registry library :
  library ∈ libraries →
  ∃ last, last ∈ libraries ∧ Library.id last = Library.id library
    ∧ generate_library_sensors libraries registry !! size_key (Library.id library)
        = Some (size_sensor last)
    ∧ generate_library_sensors libraries registry !! items_key (Library.id library)
        = Some (items_sensor last)
    ∧ generate_library_sensors libraries registry !! duration_key (Library.id library)
        = Some (duration_sensor last).
Proof.
  induction libraries as [|x libraries IH] using rev_ind; [by intros ?%elem_of_nil|].
  intros Hin. rewrite generate_library_sensors_snoc.
  destruct (decide (Library.id x = Library.id library)) as [Heq|Hne].
  - exists x. rewrite <- Heq. split; [apply elem_of_app; right; by left|].
    split; [done|]. apply register_lookup_own.
  - apply elem_of_app in Hin as [Hin|Hin];
      [|apply list_elem_of_singleton in Hin; by subst].
    destruct (IH Hin) as (last & Hlast & Hid & Hs & Hi & Hd).
    exists last. split; [apply elem_of_app; by left|]. split; [done|].
    rewrite !register_lookup_other; [done| | |];
      apply (library_keys_disjoint (Library.id library)); try done;
      unfold library_keys; rewrite !elem_of_cons; auto.
Qed.

Lemma generate_library_sensors_dom libraries registry (k : string) :
  k ∈ dom (generate_library_sensors libraries registry) ↔
  k ∈ dom registry ∨ ∃ a, a ∈ library_ids libraries ∧ k ∈ library_keys a.
Proof.
  unfold library_ids.
  induction libraries as [|x libraries IH] using rev_ind.
  - simpl. split; [auto|]. intros [?|(a & Ha & _)]; [done|]. by apply elem_of_empty in Ha.
  - rewrite generate_library_sensors_snoc. unfold register.
    rewrite !dom_insert_L, !elem_of_union, !elem_of_singleton, IH.
    rewrite fmap_app, list_to_set_app_L. simpl. unfold library_keys.
    split.
    + intros [->|[->|[->|[?|(a & Ha & Hk)]]]]; auto.
      * right. exists (Library.id x). rewrite !elem_of_cons. set_solver.
      * right. exists (Library.id x). rewrite !elem_of_cons. set_solver.
      * right. exists (Library.id x). rewrite !elem_of_cons. set_solver.
      * right. exists a. set_solver.
    + intros [?|(a & Ha & Hk)]; [auto|].
      rewrite !elem_of_cons, elem_of_nil in Hk.
      apply elem_of_union in Ha as [Ha|Ha].
      * do 4 right. exists a. rewrite !elem_of_cons. set_solver.
      * assert (a = Library.id x) as -> by set_solver.
        destruct Hk as [->|[->|[->|[]]]]; auto.
Qed.

Lemma generate_library_sensors_dom_eq libraries registry :
  dom (generate_library_sensors libraries registry) =
    dom registry ∪ list_to_set (elements (library_ids libraries) ≫= library_keys).
Proof.
  apply set_eq. intros k.
  rewrite generate_library_sensors_dom, elem_of_union, elem_of_list_to_set,
    list_elem_of_bind.
  split; (intros [?|(a & H1 & H2)]; [by left|right; exists a]);
    [apply elem_of_elements in H1|apply elem_of_elements in H2]; done.
Qed.

Lemma length_bind_library_keys (ids : list string) :
  length (ids ≫= library_keys) = 3 * length ids.
Proof.
  induction ids as [|a ids IH]; [done|].
  rewrite bind_cons, length_app, IH. simpl. lia.
Qed.

Lemma NoDup_bind_library_keys (ids : list string) :
  NoDup ids → NoDup (ids ≫= library_keys).
Proof.
  intros Hids. apply NoDup_bind; [|intros; apply NoDup_library_keys|done].
  intros a b k _ _ Ha Hb. destruct (decide (a = b)) as [|Hne]; [done|].
  by destruct (library_keys_disjoint a b k).
Qed.

Lemma size_sensors : size sensors = 4.
Proof. reflexivity. Qed.

(** C5: after [generate_library_sensors], every library of the list has
    its three sensors in the registry, under the three keys of its id and
    built from the last library of the list with that id; the three keys
    of an id are distinct, and keys of different ids differ; the keys of
    the registry are the ones it had and the keys of the ids; starting
    from the four fixed sensors the registry has four entries and three
    for each id; and running the function again, on any list with the
    same set of ids, leaves the size of the registry unchanged. *)
Theorem generate_library_sensors_three_per_id libraries registry :
  let after := generate_library_sensors libraries registry in
  (∀ library, library ∈ libraries →
     ∃ last, last ∈ libraries ∧ Library.id last = Library.id library
       ∧ after !! size_key (Library.id library) = Some (size_sensor last)
       ∧ after !! items_key (Library.id library) = Some (items_sensor last)
       ∧ after !! duration_key (Library.id library) = Some (duration_sensor last))
  ∧ (∀ a b : string,
       NoDup (library_keys a)
       ∧ (a ≠ b → ∀ k, k ∈ library_keys a → k ∉ library_keys b))
  ∧ (∀ k : string,
       k ∈ dom after ↔
       k ∈ dom registry ∨ ∃ a, a ∈ library_ids libraries ∧ k ∈ library_keys a)
  ∧ size (generate_library_sensors libraries sensors)
      = 4 + 3 * size (library_ids libraries)
  ∧ (∀ again : list Library.t,
       library_ids again = library_ids libraries →
       size (generate_library_sensors again after) = size after).
Proof.
  intros after. split; [|split; [|split; [|split]]].
  - intros library. apply generate_library_sensors_lookup.
  - intros a b. split; [apply NoDup_library_keys|].
    intros Hne k. by apply library_keys_disjoint.
  - apply generate_library_sensors_dom.
  - rewrite <- size_dom, generate_library_sensors_dom_eq, size_union.
    + rewrite size_dom, size_sensors. f_equal.
      rewrite size_list_to_set
        by apply NoDup_bind_library_keys, NoDup_elements.
      by rewrite length_bind_library_keys.
    + intros k Hk [a [Hka _]]%elem_of_list_to_set%list_elem_of_bind.
      apply elem_of_dom in Hk as [v Hv].
      by rewrite (sensors_lookup_library_key a k Hka) in Hv.
  - intros again Hids. rewrite <- !size_dom. f_equal. subst after.
    rewrite !generate_library_sensors_dom_eq, Hids. set_solver.
Qed.

(** Discovery finds [lib1] twice, under two names: the registry has
    seven entries both times. *)
Lemma generate_library_sensors_three_per_id_witness :
  size (generate_library_sensors [lib1_renamed]
          (generate_library_sensors [lib1] sensors)) = 7.
Proof.
  refine (eq_trans
    (proj2 (proj2 (proj2 (proj2
       (generate_library_sensors_three_per_id [lib1] sensors))))
       [lib1_renamed] _) _); reflexivity.
Defined.

End RegistryExtension.

Section FetchEndpoint.
Implicit Types (endpoint : string) (o : Outcome) (x : exn).

Lemma fetch_endpoint_ok endpoint (response_data : json) :
  fetch_endpoint endpoint (Response HTTP_OK response_data) = Ok response_data.
Proof. reflexivity. Qed.

Lemma fetch_endpoint_cases endpoint o :
  match fetch_endpoint endpoint o with
  | Ok response_data => o = Response HTTP_OK response_data
  | Raise x =>
      (cycle_fatal o = true ∧ ∃ msg, x = UpdateFailed msg) ∨ stray_error o = Some x
  | Unmodelled => False
  end.
Proof.
  unfold fetch_endpoint, cycle_fatal, stray_error.
  destruct o as [status body|status e|e]; simpl.
  - destruct (Z.eqb_spec status HTTP_OK) as [->|]; simpl; [done|]. left. eauto.
  - destruct (Z.eqb_spec status HTTP_OK) as [->|]; simpl; [|left; eauto].
    destruct e; simpl; eauto.
  - destruct e; simpl; eauto.
Qed.

Lemma fetch_endpoint_fatal endpoint o :
  cycle_fatal o = true → ∃ msg, fetch_endpoint endpoint o = Raise (UpdateFailed msg).
Proof.
  unfold fetch_endpoint, cycle_fatal.
  destruct o as [status body|status e|e]; simpl.
  - intros ->. simpl. eauto.
  - destruct (negb (status =? HTTP_OK)%Z); simpl; [eauto|].
    destruct e; try discriminate. simpl. eauto.
  - destruct e; try discriminate. simpl. eauto.
Qed.

End FetchEndpoint.

Section FetchLoop.
Context (conf : Config) (server : Request → Outcome).
Implicit Types (endpoints : list string) (data : gmap string json)
  (sent : list Request).

(** [fetched endpoint] is what the server does with the request for
    [endpoint]. *)
Let fetched (endpoint : string) : Outcome := server (request conf endpoint).


(** The loop either fetches every endpoint, each with status 200, and
    returns the dict that maps each to its JSON; or it stops at the first
    endpoint whose fetch raises, after the request for it. *)
Lemma fetch_endpoints_spec endpoints data sent :
  (∃ m, fetch_endpoints conf server endpoints data sent
          = (sent ++ (request conf <$> endpoints), Ok m)
        ∧ (∀ e, e ∈ endpoints → ∃ j, fetched e = Response HTTP_OK j)
        ∧ (∀ e j, e ∈ endpoints → fetched e = Response HTTP_OK j → m !! e = Some j)
        ∧ (∀ e, e ∉ endpoints → m !! e = data !! e))
  ∨ (∃ pre e post x, endpoints = pre ++ e :: post
        ∧ (∀ e', e' ∈ pre → ∃ j, fetched e' = Response HTTP_OK j)
        ∧ fetch_endpoint e (fetched e) = Raise x
        ∧ fetch_endpoints conf server endpoints data sent
            = (sent ++ (request conf <$> pre ++ [e]), Raise x)).
Proof.
  revert data sent.
  induction endpoints as [|e endpoints IH]; intros data sent.
  - left. exists data. simpl. rewrite app_nil_r.
    split; [done|]. split; [by intros ? ?%elem_of_nil|].
    split; [by intros ? ? ?%elem_of_nil|done].
  - simpl. pose proof (fetch_endpoint_cases e (server (request conf e))) as Hcase.
    destruct (fetch_endpoint e (server (request conf e))) as [j|x|] eqn:He;
      [|right|done].
    + destruct (IH (<[e:=j]> data) (sent ++ [request conf e]))
        as [(m & Hrun & Hall & Hin & Hout)
           |(pre & e' & post & x & -> & Hpre & Hx & Hrun)].
      * left. exists m. rewrite Hrun, <- app_assoc. split; [done|].
        split; [|split].
        -- intros e' [->|?]%elem_of_cons; [by exists j|by apply Hall].
        -- intros e' j' Hin' Hj'.
           destruct (decide (e' ∈ endpoints)); [by apply Hin|].
           apply elem_of_cons in Hin' as [->|?]; [|done].
           rewrite Hout by done. rewrite lookup_insert_eq.
           unfold fetched in Hj'. congruence.
        -- intros e' [Hne Hnot]%not_elem_of_cons.
           by rewrite Hout, lookup_insert_ne.
      * right. exists (e :: pre), e', post, x. rewrite Hrun, <- app_assoc.
        split; [done|]. split; [|done].
        intros e'' [->|?]%elem_of_cons; [by exists j|by apply Hpre].
    + exists [], e, endpoints, x. split; [done|].
      split; [by intros ? ?%elem_of_nil|]. done.
Qed.

End FetchLoop.

Section RefreshCycle.
(** The order in which a set is iterated is not specified; every element
    comes once. *)
Variable set_iter : gset string → list string.
Hypothesis set_iter_perm : ∀ s : gset string, set_iter s ≡ₚ elements s.

Context (server : Request → Outcome) (registry : gmap string Sensor).

Lemma elem_of_set_iter (s : gset string) (e : string) : e ∈ set_iter s ↔ e ∈ s.
Proof. by rewrite set_iter_perm, elem_of_elements. Qed.


(** C2: if the fetch of some endpoint of the registry fails in any way -
    a status that is not 200, a client error, any other exception that
    leaves the request (a timeout), or a body with status 200 whose
    decoding raises - then [_async_update_data] raises and returns no
    mapping: it raises an [UpdateFailed], or else the exception, no
    client error, that left a fetch, and an [UpdateFailed] when no
    exception of that kind leaves a fetch; the coordinator's data then
    stays what it was.  These failures are the statuses and client errors
    of [cycle_fatal] together with the exceptions of [stray_error].  If
    every endpoint answers 200 with a JSON body, the cycle returns the
    mapping from exactly the endpoints of the registry to their bodies,
    and that mapping becomes the coordinator's data, whatever the data
    was.  The cycle returns a mapping in that case only, and that mapping
    only: never a part of it. *)
Theorem refresh_cycle_all_or_nothing (self : Coordinator) :
  let cycle := _async_update_data set_iter (conf self) server registry in
  let fetched endpoint := server (request (conf self) endpoint) in
  let refreshed := async_refresh set_iter server registry self in
  ((∃ endpoint, endpoint ∈ unique_endpoints registry
                ∧ fetch_fails (fetched endpoint) = true) →
     (∃ x, cycle.2 = Raise x
           ∧ ((∃ msg, x = UpdateFailed msg)
              ∨ ∃ endpoint, endpoint ∈ unique_endpoints registry
                            ∧ stray_error (fetched endpoint) = Some x))
     ∧ ((∀ endpoint, endpoint ∈ unique_endpoints registry →
           stray_error (fetched endpoint) = None) →
        ∃ msg, cycle.2 = Raise (UpdateFailed msg))
     ∧ data refreshed = data self
     ∧ last_update_success refreshed = false)
  ∧ (∀ o, fetch_fails o = true ↔ cycle_fatal o = true ∨ ∃ x, stray_error o = Some x)
  ∧ ((∀ endpoint, endpoint ∈ unique_endpoints registry →
        ∃ j, fetched endpoint = Response HTTP_OK j) →
     ∃ m, cycle.2 = Ok m
       ∧ dom m = unique_endpoints registry
       ∧ (∀ endpoint j, endpoint ∈ unique_endpoints registry →
            fetched endpoint = Response HTTP_OK j → m !! endpoint = Some j)
       ∧ data refreshed = Some m
       ∧ last_update_success refreshed = true)
  ∧ (∀ m, cycle.2 = Ok m ↔
       (∀ endpoint, endpoint ∈ unique_endpoints registry →
          ∃ j, fetched endpoint = Response HTTP_OK j)
       ∧ dom m = unique_endpoints registry
       ∧ (∀ endpoint j, endpoint ∈ unique_endpoints registry →
            fetched endpoint = Response HTTP_OK j → m !! endpoint = Some j))
  ∧ cycle.2 ≠ Unmodelled.
Proof.
  intros cycle fetched refreshed.
  assert (Hclass : ∀ o, fetch_fails o = true
                        ↔ cycle_fatal o = true ∨ ∃ x, stray_error o = Some x).
  { intros [status body|status e|e]; unfold fetch_fails, cycle_fatal, stray_error.
    - split; [by left|]. by intros [?|[? ?]].
    - split; [intros _|done].
      destruct (status =? HTTP_OK)%Z, (is_client_error e); simpl; eauto.
    - split; [intros _|done]. destruct (is_client_error e); eauto. }
  subst cycle refreshed. unfold async_refresh, _async_update_data.
  destruct (fetch_endpoints_spec (conf self) server
              (set_iter (unique_endpoints registry)) ∅ [])
    as [(m & Hrun & Hall & Hin & Hout)
       |(pre & e & post & x & Heps & Hpre & Hx & Hrun)]; rewrite Hrun; simpl.
  - assert (Hdom : dom m = unique_endpoints registry).
    { apply set_eq. intros e. rewrite elem_of_dom.
      destruct (decide (e ∈ set_iter (unique_endpoints registry))) as [He|He].
      - destruct (Hall _ He) as [j Hj]. rewrite (Hin _ _ He Hj).
        apply elem_of_set_iter in He. split; [done|by eauto].
      - rewrite (Hout _ He), lookup_empty.
        rewrite elem_of_set_iter in He. split; [by intros [? ?]|done]. }
    assert (Hlookup : ∀ endpoint j, endpoint ∈ unique_endpoints registry →
              fetched endpoint = Response HTTP_OK j → m !! endpoint = Some j).
    { intros endpoint j Hreg Hj. apply elem_of_set_iter in Hreg. by apply Hin. }
    assert (Hanswered : ∀ endpoint, endpoint ∈ unique_endpoints registry →
              ∃ j, fetched endpoint = Response HTTP_OK j).
    { intros endpoint Hreg. apply elem_of_set_iter in Hreg. by apply Hall. }
    split; [|split; [done|split; [|split; [|done]]]].
    + intros (endpoint & Hreg & Hfails).
      destruct (Hanswered _ Hreg) as [j Hj]. by rewrite Hj in Hfails.
    + intros _. by exists m.
    + intros m'. split.
      * by intros [= <-].
      * intros (_ & Hdom' & Hlookup'). f_equal. apply map_eq. intros endpoint.
        destruct (decide (endpoint ∈ unique_endpoints registry)) as [Hreg|Hreg].
        -- destruct (Hanswered _ Hreg) as [j Hj].
           by rewrite (Hlookup _ _ Hreg Hj), (Hlookup' _ _ Hreg Hj).
        -- transitivity (@None json).
           ++ apply not_elem_of_dom. by rewrite Hdom.
           ++ symmetry. apply not_elem_of_dom. by rewrite Hdom'.
  - assert (He : e ∈ unique_endpoints registry).
    { apply elem_of_set_iter. rewrite Heps. apply elem_of_app. right. by left. }
    pose proof (fetch_endpoint_cases e (server (request (conf self) e))) as Hcase.
    rewrite Hx in Hcase.
    assert (Hnot : ¬ ∀ endpoint, endpoint ∈ unique_endpoints registry →
              ∃ j, fetched endpoint = Response HTTP_OK j).
    { intros Hall. destruct (Hall e He) as [j Hj]. subst fetched. simpl in Hj.
      rewrite Hj in Hx. discriminate. }
    split; [|split; [done|split; [|split; [|done]]]].
    + intros _. split; [|split; [|done]].
      * exists x. split; [done|].
        destruct Hcase as [[_ [msg ->]]|Hs]; [left; by eauto|right; by eauto].
      * intros Hstray. destruct Hcase as [[_ [msg ->]]|Hs]; [by eauto|].
        specialize (Hstray e He). subst fetched. simpl in Hstray. congruence.
    + intros Hall. by destruct Hnot.
    + intros m. split; [done|]. intros (Hall & _). by destruct Hnot.
Qed.


End RefreshCycle.

Section RefreshCycleExamples.

Lemma elements_perm (s : gset string) : elements s ≡ₚ elements s.
Proof. reflexivity. Qed.

Lemma returns_ok {A : Type} (r : result A) :
  match r with Ok _ => True | _ => False end → ∃ a, r = Ok a.
Proof. destruct r; [eauto|done..]. Qed.

(** The server is down: the cycle raises [UpdateFailed] and the
    coordinator keeps the data it had.  Every request runs into a
    timeout, which is no client error: the cycle raises and the
    coordinator keeps the data it had.  The server answers every request
    with 200 and [{}]: the coordinator's data is the new mapping. *)
Lemma refresh_cycle_all_or_nothing_witness :
  (∃ msg, (_async_update_data elements example_conf server_down sensors).2
            = Raise (UpdateFailed msg))
  ∧ data (async_refresh elements server_down sensors example_coordinator)
      = Some users_cache
  ∧ (∃ x, (_async_update_data elements example_conf server_timeout sensors).2
            = Raise x)
  ∧ data (async_refresh elements server_timeout sensors example_coordinator)
      = Some users_cache
  ∧ ∃ m, data (async_refresh elements server_empty sensors example_coordinator)
           = Some m
         ∧ dom m = unique_endpoints sensors.
Proof.
  destruct (refresh_cycle_all_or_nothing elements elements_perm server_down
              sensors example_coordinator) as [Hfail _].
  match type of Hfail with ?A → _ => assert (Hdown : A) end.
  { exists "api/users". split; [|reflexivity].
    apply (bool_decide_unpack _). vm_compute. exact I. }
  destruct (Hfail Hdown) as (_ & Hraise & Hdata & _).
  destruct (refresh_cycle_all_or_nothing elements elements_perm server_timeout
              sensors example_coordinator) as [Hlate _].
  match type of Hlate with ?A → _ => assert (Htimeout : A) end.
  { exists "api/users". split; [|reflexivity].
    apply (bool_decide_unpack _). vm_compute. exact I. }
  destruct (Hlate Htimeout) as ((x & Hx & _) & _ & Hkept & _).
  destruct (refresh_cycle_all_or_nothing elements elements_perm server_empty
              sensors example_coordinator) as (_ & _ & Hok & _).
  match type of Hok with ?A → _ => assert (Hup : A) end.
  { intros endpoint _. exists (JObj []). reflexivity. }
  destruct (Hok Hup) as (m & _ & Hdom & _ & Hnew & _).
  split; [|split; [|split; [|split]]].
  - apply Hraise. intros endpoint _. reflexivity.
  - exact Hdata.
  - exists x. exact Hx.
  - exact Hkept.
  - exists m. split; assumption.
Defined.



End RefreshCycleExamples.

Section ResultMonad.
Context {A B : Type}.

Lemma mapM_result_ok (f : A → result B) (l : list A) (k : list B) :
  mapM_result f l = Ok k ↔ Forall2 (fun x y => f x = Ok y) l k.
Proof.
  revert k. induction l as [|x l IH]; intros k; simpl.
  - split; [intros [= <-]; constructor|by intros ->%Forall2_nil_inv_l].
  - split.
    + destruct (f x) as [y| |] eqn:Hx; simpl; try done.
      destruct (mapM_result f l) as [ys| |] eqn:Hl; simpl; try done.
      intros [= <-]. constructor; [done|]. by apply IH.
    + intros (y & ys & Hx & Hl & ->)%Forall2_cons_inv_l.
      rewrite Hx. simpl. apply IH in Hl. by rewrite Hl.
Qed.

Lemma mapM_result_raise (f : A → result B) (pre post : list A) (x : A) (e : exn) :
  Forall (fun y => ∃ b, f y = Ok b) pre → f x = Raise e →
  mapM_result f (pre ++ x :: post) = Raise e.
Proof.
  intros Hpre Hx. induction Hpre as [|y pre [b Hy] _ IH]; simpl.
  - by rewrite Hx.
  - by rewrite Hy, IH.
Qed.

End ResultMonad.

Lemma raises_only_bind {A B : Type} (P : exn → Prop) (m : result A) (f : A → result B) :
  raises_only P m → (∀ a, raises_only P (f a)) → raises_only P (m ≫= f).
Proof. destruct m; simpl; auto. Qed.

Lemma raises_only_foldM {A B : Type} (P : exn → Prop) (f : B → A → result B)
    (l : list A) (b : B) :
  (∀ b a, raises_only P (f b a)) → raises_only P (foldM f b l).
Proof.
  intros Hf. revert b. induction l as [|a l IH]; intros b; simpl; [done|].
  by apply raises_only_bind.
Qed.

Lemma raises_only_mapM {A B : Type} (P : exn → Prop) (f : A → result B) (l : list A) :
  (∀ a, raises_only P (f a)) → raises_only P (mapM_result f l).
Proof.
  intros Hf. induction l as [|a l IH]; simpl; [done|].
  apply raises_only_bind; [done|]. intros b.
  by apply raises_only_bind.
Qed.


Section LibraryDiscovery.

(** No exception of the conversion of an entry is a client error. *)
Let not_client (e : exn) : Prop := is_client_error e = false.

Lemma required_field_raises {A : Type} (check : json → option A) (f : string) (d : dict) :
  raises_only not_client (required_field check f d).
Proof. unfold required_field. by destruct (dict_get f d ≫= check). Qed.

Lemma optional_field_raises {A : Type} (check : json → option A) (f : string) (d : dict) :
  raises_only not_client (optional_field check f d).
Proof.
  unfold optional_field. destruct (dict_get f d) as [v|]; [|done].
  destruct v; try done; by destruct (check _).
Qed.

Lemma optional_nested_raises {A : Type} (build : json → result A) (f : string) (d : dict) :
  (∀ v, raises_only not_client (build v)) →
  raises_only not_client (optional_nested build f d).
Proof.
  intros Hbuild. unfold optional_nested. destruct (dict_get f d) as [v|]; [|done].
  destruct v; try done;
    match goal with |- context [build ?v] => specialize (Hbuild v) end;
    by destruct (build _).
Qed.

Ltac raises_only_chain :=
  repeat (apply raises_only_bind;
          [first [apply required_field_raises | apply optional_field_raises]
          |intros ?]);
  try done.

Lemma from_dict_LibraryFolder_raises (d : dict) :
  raises_only not_client (from_dict_LibraryFolder d).
Proof. unfold from_dict_LibraryFolder. raises_only_chain. Qed.

Lemma from_dict_LibrarySettings_raises (d : dict) :
  raises_only not_client (from_dict_LibrarySettings d).
Proof. unfold from_dict_LibrarySettings. raises_only_chain. Qed.

Lemma build_folders_raises (v : json) : raises_only not_client (build_folders v).
Proof.
  destruct v; try done. simpl. apply raises_only_mapM.
  intros item. destruct item; try done. apply from_dict_LibraryFolder_raises.
Qed.

Lemma build_settings_raises (v : json) : raises_only not_client (build_settings v).
Proof. destruct v; try done. apply from_dict_LibrarySettings_raises. Qed.

Lemma from_dict_Library_raises (d : dict) :
  raises_only not_client (from_dict_Library d).
Proof.
  unfold from_dict_Library. raises_only_chain.
  apply raises_only_bind;
    [apply optional_nested_raises, build_folders_raises|intros ?].
  raises_only_chain.
  apply raises_only_bind;
    [apply optional_nested_raises, build_settings_raises|intros ?].
  raises_only_chain.
Qed.

Lemma pair_of_item_raises (item : json) : raises_only not_client (pair_of_item item).
Proof.
  destruct item as [| | | |s|l|d]; try done.
  - destruct s as [|a [|b [|]]]; done.
  - destruct l as [|k [|v [|]]]; try done. by destruct k.
  - destruct d as [|[k1 v1] [|[k2 v2] [|]]]; done.
Qed.

Lemma py_dict_raises (v : json) : raises_only not_client (py_dict v).
Proof.
  assert (∀ items, raises_only not_client
            (foldM (fun acc item => kv ← pair_of_item item;
                                    Ok (dict_set kv.1 kv.2 acc)) [] items)).
  { intros items. apply raises_only_foldM. intros acc item.
    apply raises_only_bind; [apply pair_of_item_raises|done]. }
  destruct v; try done; simpl; auto.
Qed.

Lemma library_of_raises (lib : json) : raises_only not_client (library_of lib).
Proof.
  unfold library_of. apply raises_only_bind; [apply py_dict_raises|].
  apply from_dict_Library_raises.
Qed.

Lemma bind_ok_inv {A B : Type} (m : result A) (f : A → result B) (b : B) :
  m ≫= f = Ok b → ∃ a, m = Ok a ∧ f a = Ok b.
Proof. destruct m as [a| |]; simpl; [eauto|done..]. Qed.

Lemma required_str_ok (f : string) (d : dict) (s : string) :
  required_field as_str f d = Ok s → dict_get f d = Some (JStr s).
Proof.
  unfold required_field. destruct (dict_get f d) as [[| | | |s'| |]|]; simpl; try done.
  by intros [= ->].
Qed.

(** The record built from an entry that is a dict has the id and the
    name the converted entry holds. *)
Lemma library_of_id_name (entry : dict) (library : Library.t) :
  library_of (JObj entry) = Ok library →
  field (camel_to_snake (JObj entry)) "id" = Some (JStr (Library.id library))
  ∧ field (camel_to_snake (JObj entry)) "name" = Some (JStr (Library.name library)).
Proof.
  unfold library_of. rewrite camel_to_snake_dict. simpl.
  set (d := dict_of_pairs _). unfold from_dict_Library. intros H.
  apply bind_ok_inv in H as (id & Hid%required_str_ok & H).
  apply bind_ok_inv in H as (name & Hname%required_str_ok & H).
  do 10 (apply bind_ok_inv in H as (? & _ & H)).
  by injection H as <-.
Qed.

(** C7, amended: [get_libraries] returns the empty list when the status
    of the response is not 200 and when the request, or the decoding of
    the body, raises a client error.  On a 200 response whose body is a
    dict, when every entry of its libraries list converts to a record it
    returns these records, one for each entry and in their order, each
    with the id and the name of its converted entry; and when an entry
    does not convert, it raises the exception of the first such entry. *)
Theorem get_libraries_empty_on_failure (conf : Config) (server : Request → Outcome) :
  let o := server (request conf "api/libraries") in
  (∀ status body, o = Response status body → status ≠ HTTP_OK →
     get_libraries conf server = Ok [])
  ∧ (∀ status e, o = BadBody status e → status ≠ HTTP_OK →
     get_libraries conf server = Ok [])
  ∧ (∀ status msg, o = BadBody status (ClientError msg) →
     get_libraries conf server = Ok [])
  ∧ (∀ msg, o = RequestError (ClientError msg) → get_libraries conf server = Ok [])
  ∧ (∀ body entries libraries,
       o = Response HTTP_OK (JObj body) →
       get_or "libraries" (JList []) body = JList entries →
       Forall2 (fun entry library => library_of entry = Ok library) entries libraries →
       get_libraries conf server = Ok libraries
       ∧ length libraries = length entries
       ∧ Forall2 (fun entry library =>
                    ∀ d, entry = JObj d →
                      field (camel_to_snake entry) "id" = Some (JStr (Library.id library))
                      ∧ field (camel_to_snake entry) "name"
                          = Some (JStr (Library.name library)))
                 entries libraries)
  ∧ (∀ body pre entry post x,
       o = Response HTTP_OK (JObj body) →
       get_or "libraries" (JList []) body = JList (pre ++ entry :: post) →
       Forall (fun entry => ∃ library, library_of entry = Ok library) pre →
       library_of entry = Raise x →
       get_libraries conf server = Raise x).
Proof.
  intros o. subst o. unfold get_libraries.
  split; [|split; [|split; [|split; [|split]]]].
  - intros status body -> Hstatus.
    by rewrite (proj2 (Z.eqb_neq status HTTP_OK)).
  - intros status e -> Hstatus.
    by rewrite (proj2 (Z.eqb_neq status HTTP_OK)).
  - intros status msg ->. by destruct (status =? HTTP_OK)%Z.
  - by intros msg ->.
  - intros body entries libraries -> Hentries Hall. simpl. rewrite Hentries. simpl.
    rewrite (proj2 (mapM_result_ok _ _ _) Hall). simpl.
    split; [done|]. split; [symmetry; by eapply Forall2_length|].
    eapply Forall2_impl; [exact Hall|]. simpl.
    intros entry library Hlib d ->. by apply library_of_id_name.
  - intros body pre entry post x -> Hentries Hpre Hx. simpl.
    rewrite Hentries. simpl.
    rewrite (mapM_result_raise _ _ _ _ _ Hpre Hx). simpl.
    pose proof (library_of_raises entry) as Hnot. rewrite Hx in Hnot.
    simpl in Hnot. by destruct x.
Qed.

(** The scenario: status 200 and one library, "lib1" called "Books". *)
Lemma get_libraries_empty_on_failure_witness :
  get_libraries example_conf (libraries_server (Response 200 scenario_listing))
    = Ok [lib1]
  ∧ get_libraries example_conf (libraries_server (Response 503 scenario_listing))
    = Ok [].
Proof.
  split.
  - refine (proj1 (proj1 (proj2 (proj2 (proj2 (proj2
      (get_libraries_empty_on_failure example_conf
         (libraries_server (Response 200 scenario_listing)))))))
      [("libraries", JList [JObj [("id", JStr "lib1"); ("name", JStr "Books")]])]
      [JObj [("id", JStr "lib1"); ("name", JStr "Books")]] [lib1] eq_refl eq_refl _)).
    repeat constructor.
  - refine (proj1 (get_libraries_empty_on_failure example_conf
      (libraries_server (Response 503 scenario_listing)))
      503%Z scenario_listing eq_refl _).
    discriminate.
Defined.

(** C7 as stated fails: on a 200 response [get_libraries] raises when
    the one entry of the listing has no name, and when it is a number,
    instead of returning one record. *)
Lemma get_libraries_raises_on_entry :
  get_libraries example_conf (libraries_server (Response 200 nameless_listing))
    = Raise DaciteError
  ∧ get_libraries example_conf (libraries_server (Response 200 number_listing))
    = Raise TypeError.
Proof. split; reflexivity. Qed.

End LibraryDiscovery.

Section PayloadAfterAttributes.

(** The loop body of [count_active_users]. *)
Let count_user (count : Z) (user : json) : result Z :=
  is_active ← subscript user "isActive";
  if truthy is_active then
    username ← subscript user "username";
    if negb (eq_str username "hass") then Ok (count + 1)%Z else Ok count
  else Ok count.

Lemma count_user_redacted (count : Z) (user : dict) :
  count_user count (JObj (dict_set "token" (JStr "<redacted>") user))
    = count_user count (JObj user).
Proof.
  unfold count_user. simpl. unfold getitem. by rewrite !dict_get_set.
Qed.

Lemma count_users_redacted (users users' : list json) (count : Z) :
  redact_tokens users = (users', Ok ()) →
  foldM count_user count users' = foldM count_user count users.
Proof.
  revert users' count. induction users as [|user users IH]; intros users' count.
  - by intros [= <-].
  - simpl. destruct user as [| | | | | |u]; try done.
    destruct (redact_tokens users) as [rest r] eqn:Hrest.
    intros [= <- ->]. simpl. rewrite count_user_redacted.
    destruct (count_user count (JObj u)); simpl; [|done..]. by apply IH.
Qed.

(** What [clean_user_attributes] writes into the payload does not change
    what [count_active_users] computes from it. *)
Lemma count_active_users_after_clean (data data' attrs : dict) :
  clean_user_attributes data = (data', Ok attrs) →
  count_active_users data' = count_active_users data.
Proof.
  unfold clean_user_attributes.
  destruct (dict_get "users" data) as [users|] eqn:Husers; [|done].
  destruct users as [| | | |s|users|d]; try done.
  - destruct s; [|done]. by intros [= <- _].
  - destruct (redact_tokens users) as [users' r] eqn:Hredact.
    destruct r as [[]| |]; try done. intros [= <- _].
    unfold count_active_users, getitem. rewrite dict_get_set, Husers. simpl.
    f_equal. by apply count_users_redacted.
  - destruct d; [|done]. by intros [= <- _].
Qed.

Lemma generate_library_sensors_lookup_cases (libraries : list Library.t)
    (registry : gmap string Sensor) (k : string) (s : Sensor) :
  generate_library_sensors libraries registry !! k = Some s →
  registry !! k = Some s
  ∨ ∃ library, library ∈ libraries
      ∧ (s = size_sensor library ∨ s = items_sensor library ∨ s = duration_sensor library).
Proof.
  induction libraries as [|x libraries IH] using rev_ind; [by left|].
  rewrite generate_library_sensors_snoc.
  rewrite !lookup_insert.
  repeat case_decide;
    try (intros [= <-]; right; exists x;
         split; [apply elem_of_app; right; by left|by auto]).
  intros [?|(library & Hin & Hs)]%IH; [by left|].
  right. exists library. split; [apply elem_of_app; by left|done].
Qed.

(** For every sensor of the registry, of the four fixed ones and of any
    libraries, the new state is the same whether the data function sees
    the payload before or after the attributes function. *)
Lemma registered_data_function_after_attributes (libraries : list Library.t)
    (k : string) (s : Sensor) (payload payload' attrs : dict) :
  generate_library_sensors libraries sensors !! k = Some s →
  attributes_function s payload = (payload', Ok attrs) →
  data_function s payload' = data_function s payload.
Proof.
  intros [Hfixed|(library & _ & Hs)]%generate_library_sensors_lookup_cases.
  2: { destruct Hs as [Hs|[Hs|Hs]]; subst s; by intros [= <- _]. }
  unfold sensors in Hfixed. rewrite !lookup_insert in Hfixed.
  repeat case_decide; try (injection Hfixed as <-; by intros [= <- _]).
  - injection Hfixed as <-. simpl. apply count_active_users_after_clean.
  - by rewrite lookup_empty in Hfixed.
Qed.

End PayloadAfterAttributes.

(** * Float arithmetic of the library statistics *)

Section FloatArithmetic.
#[local] Open Scope Z_scope.

Section HalfEven.

Lemma div_half_even_bound (N D : Z) :
  0 < D → Z.abs (2 * (N - D * div_half_even N D)) ≤ D.
Proof.
  intros HD. unfold div_half_even.
  pose proof (Z.div_mod N D ltac:(lia)) as Hdm.
  pose proof (Z.mod_pos_bound N D HD) as Hr.
  destruct (Z.compare_spec (2 * (N mod D)) D); [|lia|lia].
  destruct (Z.even (N / D)); lia.
Qed.

Lemma div_half_even_unique (N D R : Z) :
  0 < D → Z.abs (2 * (N - D * R)) < D → div_half_even N D = R.
Proof.
  intros HD HR. unfold div_half_even.
  pose proof (Z.div_mod N D ltac:(lia)) as Hdm.
  pose proof (Z.mod_pos_bound N D HD) as Hr.
  destruct (Z.compare_spec (2 * (N mod D)) D); [|nia|nia].
  destruct (Z.even (N / D)); nia.
Qed.

Lemma div_half_even_exact (q D : Z) : 0 < D → div_half_even (q * D) D = q.
Proof. intros HD. apply div_half_even_unique; [done|]. lia. Qed.

Lemma div_half_even_scale (N D c : Z) :
  0 < D → 0 < c → div_half_even (N * c) (D * c) = div_half_even N D.
Proof.
  intros HD Hc. unfold div_half_even.
  rewrite Z.div_mul_cancel_r by lia.
  rewrite Zmult_mod_distr_r.
  replace (2 * (N mod D * c)) with (2 * (N mod D) * c) by lia.
  rewrite <- Zmult_compare_compat_r by lia. done.
Qed.

(** A quotient below one half rounds to zero. *)
Lemma div_half_even_zero (N D : Z) : 0 ≤ N → 2 * N < D → div_half_even N D = 0.
Proof. intros HN HD. apply div_half_even_unique; lia. Qed.

Lemma div_half_even_nonneg (N D : Z) : 0 ≤ N → 0 < D → 0 ≤ div_half_even N D.
Proof.
  intros HN HD. unfold div_half_even.
  pose proof (Z.div_pos N D HN HD).
  destruct (_ ?= _); [destruct (Z.even _)| |]; lia.
Qed.

End HalfEven.

Section Digits.

Lemma digits2_pos_bounds (p : positive) :
  2 ^ (Zpos (digits2_pos p) - 1) ≤ Zpos p < 2 ^ Zpos (digits2_pos p).
Proof.
  induction p as [p IH|p IH|]; simpl digits2_pos.
  - rewrite Pos2Z.inj_succ.
    replace (Z.succ (Zpos (digits2_pos p)) - 1) with (Z.succ (Zpos (digits2_pos p) - 1)) by lia.
    rewrite !Z.pow_succ_r by lia. lia.
  - rewrite Pos2Z.inj_succ.
    replace (Z.succ (Zpos (digits2_pos p)) - 1) with (Z.succ (Zpos (digits2_pos p) - 1)) by lia.
    rewrite !Z.pow_succ_r by lia. lia.
  - simpl. lia.
Qed.

Lemma Zdigits2_unique (x d : Z) :
  0 < d → 2 ^ (d - 1) ≤ x < 2 ^ d → Zdigits2 x = d.
Proof.
  intros Hd Hx. assert (0 < x) by (pose proof (Z.pow_pos_nonneg 2 (d - 1)); lia).
  destruct x as [|p|p]; try lia. simpl.
  pose proof (digits2_pos_bounds p) as Hp.
  destruct (Z.lt_trichotomy (Zpos (digits2_pos p)) d) as [Hlt|[Heq|Hgt]]; [|done|].
  - assert (2 ^ Zpos (digits2_pos p) ≤ 2 ^ (d - 1)) by (apply Z.pow_le_mono_r; lia). lia.
  - assert (2 ^ d ≤ 2 ^ (Zpos (digits2_pos p) - 1)) by (apply Z.pow_le_mono_r; lia). lia.
Qed.

Lemma Zdigits2_small (q : Z) : 0 ≤ q < 2 ^ 53 → 0 ≤ Zdigits2 q ≤ 53.
Proof.
  intros Hq. destruct q as [|p|p]; [done| |lia]. simpl.
  pose proof (digits2_pos_bounds p) as Hd.
  split; [lia|].
  destruct (Z.le_gt_cases (Zpos (digits2_pos p)) 53) as [|Hgt]; [done|].
  assert (2 ^ 53 ≤ 2 ^ (Zpos (digits2_pos p) - 1)) by (apply Z.pow_le_mono_r; lia).
  lia.
Qed.

(** A mantissa and an exponent of a binary64 number: the mantissa has 53
    bits, or fewer at the least exponent. *)
Lemma bounded_cases (m : positive) (e : Z) :
  bounded prec emax m e = true →
  Zpos m < 2 ^ 53 ∧ -1074 ≤ e ≤ 971 ∧ (2 ^ 52 ≤ Zpos m ∨ e = -1074).
Proof.
  unfold bounded, canonical_mantissa, fexp, emin. intros [Hc He]%andb_prop.
  apply Z.eqb_eq in Hc. apply Z.leb_le in He.
  pose proof (digits2_pos_bounds m) as Hd.
  set (d := Zpos (digits2_pos m)) in *.
  assert (Hd53 : d ≤ 53 ∧ (d = 53 ∨ e = -1074) ∧ -1074 ≤ e) by lia.
  destruct Hd53 as (Hle & Hcase & Hlo).
  assert (2 ^ d ≤ 2 ^ 53) by (apply Z.pow_le_mono_r; lia).
  split; [lia|]. split; [lia|].
  destruct Hcase as [Heq|Hsub]; [left|by right].
  rewrite Heq in Hd. change (53 - 1) with 52 in Hd. lia.
Qed.

End Digits.

Section Rounding.

Lemma loc_of_shr_record_of_loc (m : Z) (l : location) :
  loc_of_shr_record (shr_record_of_loc m l) = l.
Proof. by destruct l as [|[]]. Qed.

Lemma shr_m_of_loc (m : Z) (l : location) : shr_m (shr_record_of_loc m l) = m.
Proof. by destruct l as [|[]]. Qed.

(** Rounding the quotient [N / D] to nearest-even with the location of the
    remainder gives the half-even quotient. *)
Lemma round_nearest_even_div (N D : Z) :
  0 < D →
  round_nearest_even (N / D) (new_location D (N mod D)) = div_half_even N D.
Proof.
  intros HD. unfold div_half_even, new_location, new_location_even, new_location_odd.
  pose proof (Z.mod_pos_bound N D HD) as Hr.
  destruct (Z.even D) eqn:Heven.
  - destruct (Z.eqb_spec (N mod D) 0) as [H0|H0]; simpl.
    + rewrite H0. simpl. by destruct D.
    + by destruct (2 * (N mod D) ?= D).
  - destruct (Z.eqb_spec (N mod D) 0) as [H0|H0]; simpl.
    + rewrite H0. simpl. by destruct D.
    + assert (Hodd : Z.odd D = true) by (by rewrite <- Z.negb_even, Heven).
      apply Z.odd_spec in Hodd as [c Hc].
      destruct (Z.compare_spec (2 * (N mod D) + 1) D);
        destruct (Z.compare_spec (2 * (N mod D)) D); simpl; try done; lia.
Qed.

End Rounding.

Section ShiftOne.

Lemma shr_1_spec (q : Z) (rb sb : bool) :
  0 ≤ q →
  shr_1 {| shr_m := q; shr_r := rb; shr_s := sb |}
    = {| shr_m := q / 2; shr_r := Z.odd q; shr_s := rb || sb |}.
Proof.
  intros Hq. destruct q as [|p|p]; [done| |lia].
  destruct p as [p|p|]; simpl.
  - f_equal. rewrite Pos2Z.inj_xI. apply (Z.div_unique _ 2 _ 1); lia.
  - f_equal. rewrite Pos2Z.inj_xO. apply (Z.div_unique _ 2 _ 0); lia.
  - done.
Qed.

(** Dropping the last bit of the quotient [2N / D] and rounding with the
    bit and the location of the remainder gives the half-even quotient
    [N / D]. *)
Lemma round_nearest_even_shr_1 (N D : Z) :
  0 ≤ N → 0 < D →
  let rec := shr_1 (shr_record_of_loc (2 * N / D) (new_location D ((2 * N) mod D))) in
  round_nearest_even (shr_m rec) (loc_of_shr_record rec) = div_half_even N D.
Proof.
  intros HN HD rec.
  pose proof (Z.div_mod (2 * N) D ltac:(lia)) as Hdm.
  pose proof (Z.mod_pos_bound (2 * N) D HD) as Hr.
  assert (Hq : 0 ≤ 2 * N / D) by (apply Z.div_pos; lia).
  set (q := 2 * N / D) in *. set (r := (2 * N) mod D) in *.
  pose proof (Z.div_mod q 2 ltac:(lia)) as Hq2.
  pose proof (Z.mod_pos_bound q 2 ltac:(lia)) as Hb.
  assert (Hsticky : ∀ l, shr_r (shr_record_of_loc q l) || shr_s (shr_record_of_loc q l)
                         = match l with loc_Exact => false | _ => true end)
    by (by intros [|[]]).
  assert (Hloc : match new_location D r with loc_Exact => false | _ => true end
                 = negb (r =? 0)).
  { unfold new_location, new_location_even, new_location_odd.
    destruct (Z.even D); destruct (r =? 0); simpl; done. }
  assert (Hrec : rec = {| shr_m := q / 2; shr_r := Z.odd q; shr_s := negb (r =? 0) |}).
  { subst rec. destruct (shr_record_of_loc q (new_location D r)) as [m rb sb] eqn:E.
    assert (m = q) as -> by (by rewrite <- (shr_m_of_loc q (new_location D r)), E).
    rewrite shr_1_spec by done. f_equal.
    rewrite <- Hloc, <- Hsticky, E. done. }
  rewrite Hrec. simpl. clear Hrec rec Hloc Hsticky.
  rewrite Zodd_mod. 
  assert (Hcases : q mod 2 = 0 ∨ q mod 2 = 1) by lia.
  unfold div_half_even.
  destruct Hcases as [Hb0|Hb1].
  - rewrite Hb0. simpl.
    assert (HN' : N = D * (q / 2) + r / 2 ∧ 2 * (r / 2) = r).
    { assert (r mod 2 = 0).
      { assert (H2 : (2 * N) mod 2 = 0) by (rewrite Z.mul_comm; apply Z_mod_mult).
        rewrite Hdm, Hq2, Hb0 in H2.
        replace (D * (2 * (q / 2) + 0) + r) with (r + (D * (q / 2)) * 2) in H2 by lia.
        by rewrite Z_mod_plus_full in H2. }
      pose proof (Z.div_mod r 2 ltac:(lia)). lia. }
    destruct HN' as [HN' Hr2].
    assert (N / D = q / 2) as -> by (symmetry; apply (Z.div_unique _ _ _ (r / 2)); lia).
    assert (N mod D = r / 2) as -> by (symmetry; apply (Z.mod_unique _ _ (q / 2)); lia).
    rewrite Hr2.
    destruct (Z.compare_spec r D); try lia.
    all: by destruct (r =? 0).
  - rewrite Hb1. simpl.
    assert (HN' : N = D * (q / 2) + (D + r) / 2 ∧ 2 * ((D + r) / 2) = D + r).
    { assert ((D + r) mod 2 = 0).
      { assert (H2 : (2 * N) mod 2 = 0) by (rewrite Z.mul_comm; apply Z_mod_mult).
        rewrite Hdm, Hq2, Hb1 in H2.
        replace (D * (2 * (q / 2) + 1) + r) with ((D + r) + (D * (q / 2)) * 2) in H2 by lia.
        by rewrite Z_mod_plus_full in H2. }
      pose proof (Z.div_mod (D + r) 2 ltac:(lia)). lia. }
    destruct HN' as [HN' Hr2].
    assert (N / D = q / 2) as -> by (symmetry; apply (Z.div_unique _ _ _ ((D + r) / 2)); lia).
    assert (N mod D = (D + r) / 2) as -> by (symmetry; apply (Z.mod_unique _ _ (q / 2)); lia).
    rewrite Hr2.
    destruct (Z.eqb_spec r 0) as [->|Hr0]; simpl.
    + rewrite Z.add_0_r, Z.compare_refl. done.
    + destruct (Z.compare_spec (D + r) D); try lia; done.
Qed.

End ShiftOne.

Section Division.

Lemma shr_fexp_fits (m e : Z) (l : location) :
  2 ^ 52 ≤ m < 2 ^ 53 → -1074 ≤ e →
  shr_fexp prec emax m e l = (shr_record_of_loc m l, e).
Proof.
  intros Hm He. unfold shr_fexp.
  rewrite (Zdigits2_unique m 53) by lia.
  replace (fexp prec emax (53 + e) - e) with 0 by (unfold fexp, emin; lia).
  done.
Qed.

Lemma shr_fexp_one_more (m e : Z) (l : location) :
  2 ^ 53 ≤ m < 2 ^ 54 → -1074 ≤ e →
  shr_fexp prec emax m e l = (shr_1 (shr_record_of_loc m l), e + 1).
Proof.
  intros Hm He. unfold shr_fexp.
  rewrite (Zdigits2_unique m 54) by lia.
  replace (fexp prec emax (54 + e) - e) with 1 by (unfold fexp, emin; lia).
  done.
Qed.

Lemma binary_round_aux_fits (s : bool) (q e : Z) (l : location) (k : positive) :
  2 ^ 52 ≤ q < 2 ^ 53 → -1074 ≤ e ≤ 971 →
  round_nearest_even q l = Zpos k → 2 ^ 52 ≤ Zpos k < 2 ^ 53 →
  binary_round_aux prec emax s q e l = S754_finite s k e.
Proof.
  intros Hq He Hk Hkb. unfold binary_round_aux.
  rewrite shr_fexp_fits by lia.
  rewrite shr_m_of_loc, loc_of_shr_record_of_loc, Hk.
  rewrite shr_fexp_fits by lia. simpl.
  by rewrite (proj2 (Z.leb_le e (1024 - 53))) by lia.
Qed.

Lemma binary_round_aux_one_more (s : bool) (q e : Z) (l : location) (k : positive) :
  2 ^ 53 ≤ q < 2 ^ 54 → -1074 ≤ e → e + 1 ≤ 971 →
  (let rec := shr_1 (shr_record_of_loc q l) in
   round_nearest_even (shr_m rec) (loc_of_shr_record rec) = Zpos k) →
  2 ^ 52 ≤ Zpos k < 2 ^ 53 →
  binary_round_aux prec emax s q e l = S754_finite s k (e + 1).
Proof.
  intros Hq He He1 Hk Hkb. unfold binary_round_aux.
  rewrite shr_fexp_one_more by lia. simpl in Hk. rewrite Hk.
  rewrite shr_fexp_fits by lia. simpl.
  by rewrite (proj2 (Z.leb_le (e + 1) (1024 - 53))) by lia.
Qed.

(** The division of two normal numbers whose quotient's exponent is in
    range: the mantissa is the half-even quotient of the mantissas, scaled
    to 53 bits. *)
Lemma SFdiv_normal (sx sy : bool) (mx my k : positive) (ex ey e : Z) :
  2 ^ 52 ≤ Zpos mx < 2 ^ 53 → 2 ^ 52 ≤ Zpos my < 2 ^ 53 →
  (if Zpos mx <? Zpos my
   then Zpos k = div_half_even (Zpos mx * 2 ^ 53) (Zpos my) ∧ e = ex - ey - 53
   else Zpos k = div_half_even (Zpos mx * 2 ^ 52) (Zpos my) ∧ e = ex - ey - 52) →
  2 ^ 52 ≤ Zpos k < 2 ^ 53 →
  -1074 ≤ ex - ey - 53 → e ≤ 971 →
  SFdiv prec emax (S754_finite sx mx ex) (S754_finite sy my ey)
    = S754_finite (xorb sx sy) k e.
Proof.
  intros Hmx Hmy Hk Hkb Hlo Hhi.
  unfold SFdiv, SFdiv_core_binary. cbv zeta.
  rewrite (Zdigits2_unique (Zpos mx) 53), (Zdigits2_unique (Zpos my) 53) by lia.
  replace (Z.min (fexp prec emax (53 + ex - (53 + ey))) (ex - ey)) with (ex - ey - 53)
    by (unfold fexp, emin; lia).
  replace (ex - ey - (ex - ey - 53)) with 53 by lia.
  cbv iota. rewrite Z.shiftl_mul_pow2 by lia.
  destruct (Z.div_eucl (Zpos mx * 2 ^ 53) (Zpos my)) as [q r] eqn:Hdiv.
  assert (Hq : q = (Zpos mx * 2 ^ 53) / Zpos my) by (unfold Z.div; by rewrite Hdiv).
  assert (Hr : r = (Zpos mx * 2 ^ 53) mod Zpos my) by (unfold Z.modulo; by rewrite Hdiv).
  destruct (Z.ltb_spec (Zpos mx) (Zpos my)) as [Hlt|Hge]; destruct Hk as [Hk ->].
  - apply binary_round_aux_fits; try lia.
    + subst q. split.
      * apply Z.div_le_lower_bound; lia.
      * apply Z.div_lt_upper_bound; lia.
    + subst q r. rewrite round_nearest_even_div by lia. done.
  - replace (ex - ey - 52) with (ex - ey - 53 + 1) by lia.
    apply binary_round_aux_one_more; try lia.
    + subst q. split.
      * apply Z.div_le_lower_bound; lia.
      * apply Z.div_lt_upper_bound; lia.
    + subst q r.
      replace (Zpos mx * 2 ^ 53) with (2 * (Zpos mx * 2 ^ 52)) by lia.
      rewrite Hk. apply round_nearest_even_shr_1; lia.
Qed.

Lemma shr_fexp_subnormal (q : Z) (l : location) :
  0 ≤ q < 2 ^ 53 →
  shr_fexp prec emax q (-1074) l = (shr_record_of_loc q l, -1074).
Proof.
  intros Hq. unfold shr_fexp. pose proof (Zdigits2_small q Hq) as Hd.
  replace (fexp prec emax (Zdigits2 q + -1074) - -1074) with 0
    by (unfold fexp, emin; lia).
  done.
Qed.

Lemma binary_round_aux_subnormal (s : bool) (q : Z) (l : location) :
  0 ≤ q < 2 ^ 53 → 0 ≤ round_nearest_even q l < 2 ^ 53 →
  binary_round_aux prec emax s q (-1074) l
    = match round_nearest_even q l with
      | Zpos k => S754_finite s k (-1074)
      | _ => S754_zero s
      end.
Proof.
  intros Hq Hk. unfold binary_round_aux.
  rewrite shr_fexp_subnormal by done.
  rewrite shr_m_of_loc, loc_of_shr_record_of_loc.
  rewrite shr_fexp_subnormal by done. simpl.
  destruct (round_nearest_even q l) as [|k|k]; [done|done|lia].
Qed.

(** The division of a number by a normal one when the quotient is below
    the normal numbers: the quotient of the mantissas, in units of
    2^-1074, rounded half-even. *)
Lemma SFdiv_subnormal (sx sy : bool) (mx my : positive) (ex ey : Z) :
  2 ^ 52 ≤ Zpos my < 2 ^ 53 →
  -1074 ≤ ex → ey < 0 →
  Zdigits2 (Zpos mx) + ex - ey ≤ -968 →
  Zpos mx * 2 ^ (ex - ey + 1074) < 2 ^ 53 * Zpos my →
  div_half_even (Zpos mx * 2 ^ (ex - ey + 1074)) (Zpos my) < 2 ^ 53 →
  SFdiv prec emax (S754_finite sx mx ex) (S754_finite sy my ey)
    = match div_half_even (Zpos mx * 2 ^ (ex - ey + 1074)) (Zpos my) with
      | Zpos k => S754_finite (xorb sx sy) k (-1074)
      | _ => S754_zero (xorb sx sy)
      end.
Proof.
  intros Hmy Hex Hey Hd HN Hk.
  unfold SFdiv, SFdiv_core_binary. cbv zeta.
  rewrite (Zdigits2_unique (Zpos my) 53) by lia.
  replace (Z.min (fexp prec emax (Zdigits2 (Zpos mx) + ex - (53 + ey))) (ex - ey))
    with (-1074) by (unfold fexp, emin; lia).
  destruct (ex - ey - -1074) as [|sh|sh] eqn:Hsh; try lia.
  rewrite Z.shiftl_mul_pow2 by lia.
  replace (ex - ey + 1074) with (Zpos sh) in * by lia.
  assert (0 < 2 ^ Zpos sh) by (apply Z.pow_pos_nonneg; lia).
  destruct (Z.div_eucl (Zpos mx * 2 ^ Zpos sh) (Zpos my)) as [q r] eqn:Hdiv.
  assert (Hq : q = (Zpos mx * 2 ^ Zpos sh) / Zpos my) by (unfold Z.div; by rewrite Hdiv).
  assert (Hr : r = (Zpos mx * 2 ^ Zpos sh) mod Zpos my)
    by (unfold Z.modulo; by rewrite Hdiv).
  assert (Hqb : 0 ≤ q < 2 ^ 53).
  { subst q. split; [apply Z.div_pos; lia|]. apply Z.div_lt_upper_bound; lia. }
  pose proof (round_nearest_even_div (Zpos mx * 2 ^ Zpos sh) (Zpos my) ltac:(lia)) as Hround.
  rewrite <- Hq, <- Hr in Hround.
  rewrite binary_round_aux_subnormal; rewrite ?Hround; try done.
  split; [|done]. apply div_half_even_nonneg; lia.
Qed.

End Division.

Section Conversion.

Lemma Pos_iter_xO (p d : positive) : Zpos (Pos.iter xO p d) = Zpos p * 2 ^ Zpos d.
Proof.
  induction d as [|d IH] using Pos.peano_ind.
  - simpl. lia.
  - rewrite Pos.iter_succ, Pos2Z.inj_xO, IH, Pos2Z.inj_succ, Z.pow_succ_r by lia. lia.
Qed.

Lemma shl_align_spec (mx : positive) (ex ex' : Z) :
  ex' ≤ ex →
  ∃ mz, shl_align mx ex ex' = (mz, ex') ∧ Zpos mz = Zpos mx * 2 ^ (ex - ex').
Proof.
  intros Hle. unfold shl_align.
  destruct (ex' - ex) as [|d|d] eqn:Hd; try lia.
  - exists mx. assert (ex' = ex) as -> by lia. rewrite Z.sub_diag. split; [done|lia].
  - exists (Pos.iter xO mx d). split; [done|].
    rewrite Pos_iter_xO. f_equal. f_equal. lia.
Qed.

(** [float(n)] is exact for a whole number of magnitude below 2^53: its
    mantissa is the magnitude scaled to 53 bits. *)
Lemma binary_round_whole (sign : bool) (p : positive) :
  Zpos p < 2 ^ 53 →
  ∃ (m : positive) (s : Z),
    0 ≤ s ≤ 52 ∧ Zpos m = Zpos p * 2 ^ s ∧ 2 ^ 52 ≤ Zpos m < 2 ^ 53
    ∧ binary_round prec emax sign p 0 = S754_finite sign m (- s).
Proof.
  intros Hn. unfold binary_round.
  pose proof (digits2_pos_bounds p) as Hd.
  set (d := Zpos (digits2_pos p)) in *.
  assert (Hd53 : 1 ≤ d ≤ 53).
  { split; [subst d; lia|].
    destruct (Z.le_gt_cases d 53) as [|Hgt]; [done|].
    assert (2 ^ 53 ≤ 2 ^ (d - 1)) by (apply Z.pow_le_mono_r; lia). lia. }
  replace (fexp prec emax (d + 0)) with (d - 53) by (unfold fexp, emin; lia).
  destruct (shl_align_spec p 0 (d - 53) ltac:(lia)) as (mz & -> & Hmz).
  replace (0 - (d - 53)) with (53 - d) in Hmz by lia.
  assert (Hpow : 2 ^ (d - 1) * 2 ^ (53 - d) = 2 ^ 52 ∧ 2 ^ d * 2 ^ (53 - d) = 2 ^ 53).
  { rewrite <- !Z.pow_add_r by lia. split; f_equal; lia. }
  assert (0 < 2 ^ (53 - d)) by (apply Z.pow_pos_nonneg; lia).
  exists mz, (53 - d). split; [lia|]. split; [done|]. split; [nia|].
  replace (- (53 - d)) with (d - 53) by lia.
  apply binary_round_aux_fits; [nia|lia|done|nia].
Qed.

Lemma float_of_Z_signed (n : Z) :
  0 < Z.abs n < 2 ^ 53 →
  ∃ (m : positive) (s : Z),
    0 ≤ s ≤ 52 ∧ Zpos m = Z.abs n * 2 ^ s ∧ 2 ^ 52 ≤ Zpos m < 2 ^ 53
    ∧ float_of_Z n = S754_finite (n <? 0) m (- s).
Proof.
  intros Hn. destruct n as [|p|p]; [lia| |].
  - apply (binary_round_whole false p). lia.
  - apply (binary_round_whole true p). lia.
Qed.

Lemma float_of_Z_normal (n : Z) :
  0 < n < 2 ^ 53 →
  ∃ (m : positive) (s : Z),
    0 ≤ s ≤ 52 ∧ Zpos m = n * 2 ^ s ∧ 2 ^ 52 ≤ Zpos m < 2 ^ 53
    ∧ float_of_Z n = S754_finite false m (- s).
Proof.
  intros Hn. destruct (float_of_Z_signed n ltac:(lia)) as (m & s & Hs & Hm & Hmb & Hf).
  exists m, s. rewrite Z.abs_eq in Hm by lia.
  by rewrite (proj2 (Z.ltb_ge n 0)) in Hf by lia.
Qed.

End Conversion.

Section SizeAndDuration.

Lemma fdiv_f1024 (s : bool) (m : positive) (e : Z) :
  2 ^ 52 ≤ Zpos m < 2 ^ 53 → -1063 ≤ e ≤ 981 →
  fdiv (S754_finite s m e) f1024 = S754_finite s m (e - 10).
Proof.
  intros Hm He. unfold fdiv, f1024.
  rewrite (SFdiv_normal s false m 4503599627370496 m e (-42) (e - 10)); try lia.
  - by destruct s.
  - destruct (Z.ltb_spec (Zpos m) 4503599627370496) as [Hlt|_]; [lia|].
    split; [|lia]. change 4503599627370496 with (2 ^ 52).
    by rewrite div_half_even_exact.
Qed.

(** Dividing a normal number by 60, with its sign. *)
Lemma fdiv_f60 (sign : bool) (m : positive) (e : Z) :
  2 ^ 52 ≤ Zpos m < 2 ^ 53 → -1068 ≤ e ≤ 971 →
  ∃ (k : positive) (t : Z),
    (t = 5 ∨ t = 6)
    ∧ fdiv (S754_finite sign m e) f60 = S754_finite sign k (e - t)
    ∧ 2 ^ 52 ≤ Zpos k < 2 ^ 53
    ∧ Z.abs (60 * Zpos k - Zpos m * 2 ^ t) ≤ 30
    ∧ (∀ c, Zpos m * 2 ^ t = 60 * c → Zpos k = c).
Proof.
  intros Hm He. unfold fdiv, f60.
  set (m60 := 8444249301319680%positive).
  assert (Hm60 : Zpos m60 = 60 * 2 ^ 47) by done.
  assert (Hsign : xorb sign false = sign) by (by destruct sign).
  destruct (Z.ltb_spec (Zpos m) (Zpos m60)) as [Hlt|Hge].
  - pose proof (div_half_even_bound (Zpos m * 2 ^ 6) 60 ltac:(lia)) as Hb.
    set (kz := div_half_even (Zpos m * 2 ^ 6) 60) in *.
    assert (Hkz : 2 ^ 52 ≤ kz < 2 ^ 53) by lia.
    destruct kz as [|k|k] eqn:Hk; try lia.
    exists k, 6. split; [by right|]. split; [|split; [done|split; [lia|]]].
    + rewrite (SFdiv_normal sign false m m60 k e (-47) (e - 6));
        [by rewrite Hsign|try lia..].
      rewrite (proj2 (Z.ltb_lt _ _) Hlt). split; [|lia].
      rewrite Hm60.
      replace (Zpos m * 2 ^ 53) with (Zpos m * 2 ^ 6 * 2 ^ 47) by lia.
      rewrite div_half_even_scale by lia. done.
    + intros c Hc. rewrite <- Hk. subst kz. rewrite Hc.
      rewrite Z.mul_comm. by apply div_half_even_exact.
  - pose proof (div_half_even_bound (Zpos m * 2 ^ 5) 60 ltac:(lia)) as Hb.
    set (kz := div_half_even (Zpos m * 2 ^ 5) 60) in *.
    assert (Hkz : 2 ^ 52 ≤ kz < 2 ^ 53) by lia.
    destruct kz as [|k|k] eqn:Hk; try lia.
    exists k, 5. split; [by left|]. split; [|split; [done|split; [lia|]]].
    + rewrite (SFdiv_normal sign false m m60 k e (-47) (e - 5));
        [by rewrite Hsign|try lia..].
      rewrite (proj2 (Z.ltb_ge _ _) Hge). split; [|lia].
      rewrite Hm60.
      replace (Zpos m * 2 ^ 52) with (Zpos m * 2 ^ 5 * 2 ^ 47) by lia.
      rewrite div_half_even_scale by lia. done.
    + intros c Hc. rewrite <- Hk. subst kz. rewrite Hc.
      rewrite Z.mul_comm. by apply div_half_even_exact.
Qed.

Section SmallFloats.

(** A float with sign [sign] that is zero or of magnitude below 2^-900. *)
Let tiny (sign : bool) (x : spec_float) : Prop :=
  x = S754_zero sign
  ∨ ∃ m e, x = S754_finite sign m e ∧ Zpos m < 2 ^ 53 ∧ -1074 ≤ e ≤ -954
           ∧ (2 ^ 52 ≤ Zpos m ∨ e = -1074).

Lemma tiny_subnormal_quotient (sign : bool) (m my : positive) (e ey : Z) :
  2 ^ 52 ≤ Zpos my < 2 ^ 53 → Zpos m < 2 ^ 53 →
  -1074 ≤ e → ey < 0 → e - ey + 1074 ≤ 52 →
  Zdigits2 (Zpos m) + e - ey ≤ -968 →
  tiny sign (SFdiv prec emax (S754_finite sign m e) (S754_finite false my ey)).
Proof.
  intros Hmy Hm He Hey Hsh Hd.
  assert (Hpow : 0 < 2 ^ (e - ey + 1074) ≤ 2 ^ 52).
  { split; [apply Z.pow_pos_nonneg; lia|apply Z.pow_le_mono_r; lia]. }
  set (P := 2 ^ (e - ey + 1074)) in *.
  pose proof (div_half_even_bound (Zpos m * P) (Zpos my) ltac:(lia)) as Hb.
  pose proof (div_half_even_nonneg (Zpos m * P) (Zpos my) ltac:(lia) ltac:(lia)) as Hk0.
  assert (HN : Zpos m * P ≤ (2 ^ 53 - 1) * 2 ^ 52) by nia.
  assert (Hk : div_half_even (Zpos m * P) (Zpos my) < 2 ^ 53) by nia.
  rewrite SFdiv_subnormal by (fold P; first [done | lia | nia]). fold P.
  replace (xorb sign false) with sign by (by destruct sign).
  destruct (div_half_even (Zpos m * P) (Zpos my)) as [|k|k]; [by left| |lia].
  right. exists k, (-1074). repeat split; lia.
Qed.

Lemma tiny_fdiv_f1024 (sign : bool) (x : spec_float) :
  tiny sign x → tiny sign (fdiv x f1024).
Proof.
  intros [->|(m & e & -> & Hm & He & Hcanon)].
  - left. by destruct sign.
  - destruct (Z_le_gt_dec (-1063) e) as [Hlo|Hlo].
    + assert (2 ^ 52 ≤ Zpos m) by lia.
      rewrite fdiv_f1024 by lia. right. exists m, (e - 10).
      repeat split; lia.
    + unfold fdiv, f1024. apply tiny_subnormal_quotient; try lia.
      pose proof (Zdigits2_small (Zpos m) ltac:(lia)). lia.
Qed.

Lemma tiny_fdiv_f60 (sign : bool) (x : spec_float) :
  tiny sign x → tiny sign (fdiv x f60).
Proof.
  intros [->|(m & e & -> & Hm & He & Hcanon)].
  - left. by destruct sign.
  - destruct (Z_le_gt_dec (-1068) e) as [Hlo|Hlo].
    + assert (Hnormal : 2 ^ 52 ≤ Zpos m < 2 ^ 53) by lia.
      destruct (fdiv_f60 sign m e Hnormal ltac:(lia))
        as (k & t & Ht & -> & Hk & _).
      right. exists k, (e - t). repeat split; lia.
    + unfold fdiv, f60. apply tiny_subnormal_quotient; try lia.
      pose proof (Zdigits2_small (Zpos m) ltac:(lia)). lia.
Qed.

(** Rounding such a float to two decimals or to none gives zero. *)
Lemma py_round_tiny (sign : bool) (x : spec_float) (ndigits : nat) :
  (ndigits ≤ 2)%nat → tiny sign x → py_round x ndigits = S754_zero sign.
Proof.
  intros Hn [->|(m & e & -> & Hm & He & _)]; [done|].
  unfold py_round. destruct e as [|p|p]; try lia.
  assert (Hscale : 0 < 10 ^ Z.of_nat ndigits ≤ 100).
  { split; [apply Z.pow_pos_nonneg; lia|].
    change 100 with (10 ^ 2). apply Z.pow_le_mono_r; lia. }
  assert (Hpow : 2 ^ 954 ≤ 2 ^ Zpos p) by (apply Z.pow_le_mono_r; lia).
  rewrite div_half_even_zero by nia. done.
Qed.

(** Such a float is converted to zero. *)
Lemma get_total_size_tiny (sign : bool) (m : positive) (e : Z) :
  Zpos m < 2 ^ 53 → -1074 ≤ e ≤ -954 → (2 ^ 52 ≤ Zpos m ∨ e = -1074) →
  get_total_size (JFloat (S754_finite sign m e)) = Ok (JFloat (S754_zero sign)).
Proof.
  intros Hm He Hcanon. unfold get_total_size, to_float.
  unfold mbind, result_bind. cbv beta iota. do 2 f_equal.
  apply py_round_tiny; [lia|].
  do 3 apply tiny_fdiv_f1024. right. by exists m, e.
Qed.

Lemma get_total_duration_tiny (sign : bool) (m : positive) (e : Z) :
  Zpos m < 2 ^ 53 → -1074 ≤ e ≤ -954 → (2 ^ 52 ≤ Zpos m ∨ e = -1074) →
  get_total_duration (JFloat (S754_finite sign m e)) = Ok (JFloat (S754_zero sign)).
Proof.
  intros Hm He Hcanon. unfold get_total_duration, to_float.
  unfold mbind, result_bind. cbv beta iota. do 2 f_equal.
  apply py_round_tiny; [lia|].
  do 2 apply tiny_fdiv_f60. right. by exists m, e.
Qed.

End SmallFloats.

(** A finite float: the three divisions by 1024 are exact, or the float is
    so small that the result is zero; the result is the float nearest to
    the size in GB rounded half-even to two decimals. *)
Lemma get_total_size_finite (sign : bool) (m : positive) (e : Z) :
  Zpos m < 2 ^ 53 → -1074 ≤ e ≤ 971 → (2 ^ 52 ≤ Zpos m ∨ e = -1074) →
  get_total_size (JFloat (S754_finite sign m e))
    = Ok (JFloat (decimal sign
                    (div_half_even (100 * float_num m e) (2 ^ 30 * float_den e)) 2)).
Proof.
  intros Hm He Hcanon. unfold float_num, float_den.
  destruct (Z_le_gt_dec e (-981)) as [Hsmall|Hbig].
  - rewrite get_total_size_tiny by lia.
    rewrite Z.max_r, Z.max_l by lia.
    assert (2 ^ 981 ≤ 2 ^ (- e)) by (apply Z.pow_le_mono_r; lia).
    rewrite div_half_even_zero by (change (2 ^ 0) with 1; nia). done.
  - assert (Hnormal : 2 ^ 52 ≤ Zpos m < 2 ^ 53) by lia.
    unfold get_total_size, to_float. unfold mbind, result_bind. cbv beta iota.
    rewrite !fdiv_f1024 by lia.
    unfold py_round. do 3 f_equal. change (10 ^ Z.of_nat 2) with 100.
    destruct (e - 10 - 10 - 10) as [|p|p] eqn:Hp.
    + assert (e = 30) as -> by lia.
      rewrite Z.max_l, Z.max_r by lia. change (2 ^ 0) with 1.
      replace (100 * (Zpos m * 2 ^ 30)) with (Zpos m * 100 * 1 * 2 ^ 30) by lia.
      rewrite Z.mul_1_r. by rewrite div_half_even_exact.
    + rewrite Z.max_l, Z.max_r by lia. change (2 ^ 0) with 1.
      assert (e = Zpos p + 30) as -> by lia.
      rewrite Z.pow_add_r by lia.
      replace (100 * (Zpos m * (2 ^ Zpos p * 2 ^ 30)))
        with (Zpos m * 100 * 2 ^ Zpos p * 2 ^ 30) by lia.
      rewrite Z.mul_1_r. by rewrite div_half_even_exact.
    + destruct (Z_le_gt_dec e 0) as [Hneg|Hpos].
      * rewrite Z.max_r, Z.max_l by lia. change (2 ^ 0) with 1.
        rewrite <- Z.pow_add_r by lia.
        replace (30 + - e) with (Zpos p) by lia.
        f_equal. lia.
      * rewrite Z.max_l, Z.max_r by lia. change (2 ^ 0) with 1.
        assert (0 < 2 ^ e) by (apply Z.pow_pos_nonneg; lia).
        assert (0 < 2 ^ Zpos p) by (apply Z.pow_pos_nonneg; lia).
        replace (2 ^ 30 * 1) with (2 ^ Zpos p * 2 ^ e)
          by (rewrite <- Z.pow_add_r, Z.mul_1_r by lia; f_equal; lia).
        replace (100 * (Zpos m * 2 ^ e)) with (Zpos m * 100 * 2 ^ e) by lia.
        by rewrite div_half_even_scale by lia.
Qed.

(** The arithmetic of the two divisions by 60 of [N / S]: the mantissas
    [ka] and [kb] are within 1/2 of the exact quotients, and exact when
    these are integers.  A quotient that is no tie stays on its side of
    the tie in both divisions, since the tie is a mantissa itself. *)
Lemma hours_half_even (N ka kb S P Q : Z) :
  0 < S → (P = 32 ∨ P = 64) → (Q = 32 ∨ Q = 64) →
  Z.abs (60 * ka - N * P) ≤ 30 → (∀ c, N * P = 60 * c → ka = c) →
  Z.abs (60 * kb - ka * Q) ≤ 30 → (∀ c, ka * Q = 60 * c → kb = c) →
  div_half_even kb (S * P * Q) = div_half_even N (3600 * S).
Proof.
  intros HS HP HQ Hka Hka_exact Hkb Hkb_exact.
  pose proof (Z.div_mod N (3600 * S) ltac:(lia)) as Hdm.
  pose proof (Z.mod_pos_bound N (3600 * S) ltac:(lia)) as Hmod.
  destruct (Z.eq_dec (N mod (3600 * S)) (1800 * S)) as [Htie|Hno].
  - rewrite Htie in Hdm. set (K := N / (3600 * S)) in *.
    assert (Hka' : ka = (2 * K + 1) * (30 * S * P)) by (apply Hka_exact; lia).
    assert (Hkb' : kb = (2 * K + 1) * (S * P * (Q / 2))).
    { apply Hkb_exact. rewrite Hka'. destruct HQ as [-> | ->].
      - change (32 / 2) with 16. lia.
      - change (64 / 2) with 32. lia. }
    assert (HQ2 : Q = 2 * (Q / 2) ∧ 0 < Q / 2)
      by (destruct HQ as [-> | ->]; [change (32 / 2) with 16|change (64 / 2) with 32]; lia).
    destruct HQ2 as [HQ2 HQ2'].
    assert (0 < S * P) by (destruct HP as [-> | ->]; lia).
    assert (0 < S * P * (Q / 2)) by (apply Z.mul_pos_pos; lia).
    replace (S * P * Q) with (2 * (S * P * (Q / 2))) by (rewrite HQ2 at 2; lia).
    rewrite Hkb', div_half_even_scale by lia.
    replace N with ((2 * K + 1) * (1800 * S)) by lia.
    replace (3600 * S) with (2 * (1800 * S)) by lia.
    by rewrite div_half_even_scale by lia.
  - pose proof (div_half_even_bound N (3600 * S) ltac:(lia)) as Hb.
    set (R := div_half_even N (3600 * S)) in *.
    assert (Hd : Z.abs (N - 3600 * S * R) ≤ 1800 * S - 1).
    { assert (Z.abs (N - 3600 * S * R) ≠ 1800 * S); [|lia].
      intros Habs. apply Hno. subst R. unfold div_half_even in Habs.
      destruct (Z.compare_spec (2 * (N mod (3600 * S))) (3600 * S)); lia. }
    apply div_half_even_unique; destruct HP as [-> | ->]; destruct HQ as [-> | ->]; lia.
Qed.

(** The two divisions by 60 of a whole number [M * E] that is a multiple
    of 2, 4 or 8 and has more than 53 bits: the mantissas [ka] and [kb]
    are still on the side of the tie on which the exact quotients are. *)
Lemma hours_half_even_large (M ka kb E P Q : Z) :
  (E = 2 ∧ (P = 16 ∨ P = 32)) ∨ (E = 4 ∧ (P = 8 ∨ P = 16))
    ∨ (E = 8 ∧ (P = 4 ∨ P = 8)) →
  (Q = 32 ∨ Q = 64) →
  Z.abs (60 * ka - M * E * P) ≤ 30 → (∀ c, M * E * P = 60 * c → ka = c) →
  Z.abs (60 * kb - ka * Q) ≤ 30 → (∀ c, ka * Q = 60 * c → kb = c) →
  div_half_even kb (P * Q) = div_half_even (M * E) 3600.
Proof.
  intros HEP HQ Hka Hka_exact Hkb Hkb_exact.
  pose proof (Z.div_mod (M * E) 3600 ltac:(lia)) as Hdm.
  pose proof (Z.mod_pos_bound (M * E) 3600 ltac:(lia)) as Hmod.
  assert (HP : 0 < P) by lia.
  destruct (Z.eq_dec ((M * E) mod 3600) 1800) as [Htie|Hno].
  - rewrite Htie in Hdm. set (K := M * E / 3600) in *.
    assert (Hka' : ka = (2 * K + 1) * (30 * P)) by (apply Hka_exact; lia).
    assert (HQ2 : Q = 2 * (Q / 2) ∧ 0 < Q / 2)
      by (destruct HQ as [-> | ->]; [change (32 / 2) with 16|change (64 / 2) with 32]; lia).
    destruct HQ2 as [HQ2 HQ2'].
    assert (Hkb' : kb = (2 * K + 1) * (P * (Q / 2))).
    { apply Hkb_exact. rewrite Hka'. rewrite HQ2 at 1. lia. }
    assert (0 < P * (Q / 2)) by (apply Z.mul_pos_pos; lia).
    replace (P * Q) with (2 * (P * (Q / 2))) by (rewrite HQ2 at 2; lia).
    rewrite Hkb', div_half_even_scale by lia.
    replace (M * E) with ((2 * K + 1) * 1800) by lia.
    change 3600 with (2 * 1800).
    by rewrite div_half_even_scale by lia.
  - pose proof (div_half_even_bound (M * E) 3600 ltac:(lia)) as Hb.
    set (R := div_half_even (M * E) 3600) in *.
    assert (Hd : Z.abs (M * E - 3600 * R) ≤ 1800 - 1).
    { assert (Z.abs (M * E - 3600 * R) ≠ 1800); [|lia].
      intros Habs. apply Hno. subst R. unfold div_half_even in Habs.
      destruct (Z.compare_spec (2 * ((M * E) mod 3600)) 3600); lia. }
    apply div_half_even_unique; [lia|].
    destruct HEP as [[-> [-> | ->]]|[[-> [-> | ->]]|[-> [-> | ->]]]];
      destruct HQ as [-> | ->]; lia.
Qed.

(** A finite float of magnitude below 2^56: the result is the numeral of
    the hours rounded half-even. *)
Lemma get_total_duration_finite (sign : bool) (m : positive) (e : Z) :
  Zpos m < 2 ^ 53 → -1074 ≤ e ≤ 3 → (2 ^ 52 ≤ Zpos m ∨ e = -1074) →
  get_total_duration (JFloat (S754_finite sign m e))
    = Ok (JFloat (decimal sign
                    (div_half_even (float_num m e) (3600 * float_den e)) 0)).
Proof.
  intros Hm He Hcanon. unfold float_num, float_den.
  destruct (Z_le_gt_dec e (-981)) as [Hsmall|Hbig].
  - rewrite get_total_duration_tiny by lia.
    rewrite Z.max_r, Z.max_l by lia.
    assert (2 ^ 981 ≤ 2 ^ (- e)) by (apply Z.pow_le_mono_r; lia).
    rewrite div_half_even_zero by (change (2 ^ 0) with 1; nia). done.
  - assert (Hnormal : 2 ^ 52 ≤ Zpos m < 2 ^ 53) by lia.
    unfold get_total_duration, to_float. unfold mbind, result_bind. cbv beta iota.
    destruct (fdiv_f60 sign m e Hnormal ltac:(lia))
      as (ka & ta & Hta & -> & Hkab & Hka & Hka_exact).
    destruct (fdiv_f60 sign ka (e - ta) Hkab ltac:(lia))
      as (kb & tb & Htb & -> & Hkbb & Hkb & Hkb_exact).
    unfold py_round. do 3 f_equal.
    destruct (e - ta - tb) as [|p|p] eqn:Hp; try lia.
    change (10 ^ Z.of_nat 0) with 1. rewrite Z.mul_1_r.
    assert (HPb : 2 ^ tb = 32 ∨ 2 ^ tb = 64)
      by (destruct Htb as [-> | ->]; [by left|by right]).
    destruct (Z_le_gt_dec e 0) as [Hneg|Hpos].
    + rewrite Z.max_r, Z.max_l by lia. change (2 ^ 0) with 1. rewrite Z.mul_1_r.
      assert (Zpos p = - e + ta + tb) as -> by lia.
      rewrite !Z.pow_add_r by lia.
      assert (H2s : 0 < 2 ^ (- e)) by (apply Z.pow_pos_nonneg; lia).
      assert (HPa : 2 ^ ta = 32 ∨ 2 ^ ta = 64)
        by (destruct Hta as [-> | ->]; [by left|by right]).
      by apply (hours_half_even (Zpos m) (Zpos ka) (Zpos kb) (2 ^ (- e)) (2 ^ ta) (2 ^ tb)).
    + rewrite Z.max_l, Z.max_r by lia. change (2 ^ 0) with 1. rewrite !Z.mul_1_r.
      assert (Zpos p = (ta - e) + tb) as -> by lia.
      rewrite Z.pow_add_r by lia.
      assert (Hsplit : 2 ^ ta = 2 ^ e * 2 ^ (ta - e))
        by (rewrite <- Z.pow_add_r by lia; f_equal; lia).
      apply (hours_half_even_large (Zpos m) (Zpos ka) (Zpos kb) (2 ^ e) (2 ^ (ta - e)) (2 ^ tb));
        try done.
      * assert (e = 1 ∨ e = 2 ∨ e = 3) as [-> | [-> | ->]] by lia;
          destruct Hta as [-> | ->]; vm_compute; intuition congruence.
      * replace (Zpos m * 2 ^ e * 2 ^ (ta - e)) with (Zpos m * 2 ^ ta)
          by (rewrite Hsplit; lia). done.
      * intros c Hc. apply Hka_exact. rewrite Hsplit. lia.
Qed.

(** Whole numbers of magnitude below 2^53. *)
Lemma get_total_size_whole (n : Z) :
  - 2 ^ 53 < n < 2 ^ 53 →
  get_total_size (JInt n)
    = Ok (JFloat (decimal (n <? 0) (div_half_even (100 * Z.abs n) (2 ^ 30)) 2)).
Proof.
  intros Hn. destruct (Z.eq_dec n 0) as [->|Hn0]; [done|].
  destruct (float_of_Z_signed n ltac:(lia)) as (m & s & Hs & Hm & Hmb & Hf).
  transitivity (get_total_size (JFloat (S754_finite (n <? 0) m (- s)))).
  { unfold get_total_size, to_float. by rewrite Hf. }
  rewrite get_total_size_finite by lia. do 3 f_equal.
  unfold float_num, float_den. rewrite Z.max_r, Z.max_l by lia.
  change (2 ^ 0) with 1. rewrite Z.mul_1_r, Hm, Z.opp_involutive.
  replace (100 * (Z.abs n * 2 ^ s)) with (100 * Z.abs n * 2 ^ s) by lia.
  apply div_half_even_scale; [lia|]. apply Z.pow_pos_nonneg; lia.
Qed.

Lemma get_total_duration_whole (n : Z) :
  - 2 ^ 53 < n < 2 ^ 53 →
  get_total_duration (JInt n)
    = Ok (JFloat (decimal (n <? 0) (div_half_even (Z.abs n) 3600) 0)).
Proof.
  intros Hn. destruct (Z.eq_dec n 0) as [->|Hn0]; [done|].
  destruct (float_of_Z_signed n ltac:(lia)) as (m & s & Hs & Hm & Hmb & Hf).
  transitivity (get_total_duration (JFloat (S754_finite (n <? 0) m (- s)))).
  { unfold get_total_duration, to_float. by rewrite Hf. }
  rewrite get_total_duration_finite by lia. do 3 f_equal.
  unfold float_num, float_den. rewrite Z.max_r, Z.max_l by lia.
  change (2 ^ 0) with 1. rewrite Z.mul_1_r, Hm, Z.opp_involutive.
  apply div_half_even_scale; [lia|]. apply Z.pow_pos_nonneg; lia.
Qed.


(** Durations below 2^53 seconds. *)
Lemma get_total_duration_exact (n : Z) :
  0 ≤ n < 2 ^ 53 →
  get_total_duration (JInt n)
    = Ok (JFloat (decimal false (div_half_even n 3600) 0)).
Proof.
  intros Hn. rewrite get_total_duration_whole by lia.
  by rewrite (proj2 (Z.ltb_ge n 0)), Z.abs_eq by lia.
Qed.

(** A whole number that its float holds exactly. *)
Lemma get_total_size_held (n : Z) (sign : bool) (m : positive) (e : Z) :
  float_of_Z n = S754_finite sign m e →
  Zpos m < 2 ^ 53 → -1074 ≤ e ≤ 971 → (2 ^ 52 ≤ Zpos m ∨ e = -1074) →
  float_num m e = Z.abs n * float_den e →
  get_total_size (JInt n)
    = Ok (JFloat (decimal sign (div_half_even (100 * Z.abs n) (2 ^ 30)) 2)).
Proof.
  intros Hf Hm He Hcanon Hheld.
  transitivity (get_total_size (JFloat (S754_finite sign m e))).
  { unfold get_total_size, to_float. by rewrite Hf. }
  rewrite get_total_size_finite by done. do 3 f_equal. rewrite Hheld.
  assert (0 < float_den e) by (apply Z.pow_pos_nonneg; lia).
  replace (100 * (Z.abs n * float_den e)) with (100 * Z.abs n * float_den e) by lia.
  by apply div_half_even_scale.
Qed.

Lemma get_total_duration_held (n : Z) (sign : bool) (m : positive) (e : Z) :
  float_of_Z n = S754_finite sign m e →
  Zpos m < 2 ^ 53 → -1074 ≤ e ≤ 3 → (2 ^ 52 ≤ Zpos m ∨ e = -1074) →
  float_num m e = Z.abs n * float_den e →
  get_total_duration (JInt n)
    = Ok (JFloat (decimal sign (div_half_even (Z.abs n) 3600) 0)).
Proof.
  intros Hf Hm He Hcanon Hheld.
  transitivity (get_total_duration (JFloat (S754_finite sign m e))).
  { unfold get_total_duration, to_float. by rewrite Hf. }
  rewrite get_total_duration_finite by done. do 3 f_equal. rewrite Hheld.
  assert (0 < float_den e) by (apply Z.pow_pos_nonneg; lia).
  by apply div_half_even_scale.
Qed.

(** Zeros, infinities and NaN are returned as they are. *)
Lemma stat_conversions_keep (x : spec_float) :
  match x with S754_finite _ _ _ => False | _ => True end →
  get_total_size (JFloat x) = Ok (JFloat x)
  ∧ get_total_duration (JFloat x) = Ok (JFloat x).
Proof. destruct x as [[]|[]| |]; done. Qed.

End SizeAndDuration.

Section WholeNumbers.

(** The numeral of a whole number below 2^53, with a sign, reads as the
    float of that number. *)
Lemma decimal_whole_signed (sign : bool) (p : positive) :
  Zpos p < 2 ^ 53 →
  decimal sign (Zpos p) 0 = binary_round prec emax sign p 0.
Proof.
  intros Hk.
  unfold decimal. change (10 ^ Z.of_nat 0) with 1.
  unfold binary_round.
  pose proof (digits2_pos_bounds p) as Hd.
  unfold SFdiv, SFdiv_core_binary. cbv zeta. simpl Zdigits2.
  replace (xorb sign false) with sign by (by destruct sign).
  set (d := Zpos (digits2_pos p)) in *.
  assert (Hd53 : 1 ≤ d ≤ 53).
  { split; [subst d; lia|].
    destruct (Z.le_gt_cases d 53) as [|Hgt]; [done|].
    assert (2 ^ 53 ≤ 2 ^ (d - 1)) by (apply Z.pow_le_mono_r; lia). lia. }
  assert (Hpow : 2 ^ (d - 1) * 2 ^ (53 - d) = 2 ^ 52 ∧ 2 ^ d * 2 ^ (53 - d) = 2 ^ 53).
  { rewrite <- !Z.pow_add_r by lia. split; f_equal; lia. }
  assert (Hpow' : 2 ^ (54 - d) = 2 * 2 ^ (53 - d)).
  { rewrite <- Z.pow_succ_r by lia. f_equal. lia. }
  assert (0 < 2 ^ (53 - d)) by (apply Z.pow_pos_nonneg; lia).
  (* the right-hand side *)
  replace (fexp prec emax (d + 0)) with (d - 53) by (unfold fexp, emin; lia).
  destruct (shl_align_spec p 0 (d - 53) ltac:(lia)) as (mz & -> & Hmz).
  replace (0 - (d - 53)) with (53 - d) in Hmz by lia.
  rewrite (binary_round_aux_fits sign (Zpos mz) (d - 53) loc_Exact mz)
    by (simpl; try done; nia).
  (* the left-hand side *)
  replace (Z.min (fexp prec emax (d + 0 - (1 + 0))) (0 - 0)) with (d - 54)
    by (unfold fexp, emin; lia).
  replace (0 - 0 - (d - 54)) with (54 - d) by lia.
  assert (Hshift : match 54 - d with
                   | 0 => Zpos p
                   | Zpos _ => Z.shiftl (Zpos p) (54 - d)
                   | Zneg _ => 0
                   end = 2 * Zpos mz).
  { destruct (54 - d) as [|sh|sh] eqn:Hsh; try lia.
    rewrite Z.shiftl_mul_pow2, Hpow' by lia. lia. }
  rewrite Hshift.
  destruct (Z.div_eucl (2 * Zpos mz) 1) as [q r] eqn:Hdiv.
  assert (Hq : q = 2 * Zpos mz)
    by (rewrite <- (Z.div_1_r (2 * Zpos mz)); unfold Z.div; by rewrite Hdiv).
  assert (Hr : r = 0)
    by (rewrite <- (Z.mod_1_r (2 * Zpos mz)); unfold Z.modulo; by rewrite Hdiv).
  subst q r. change (new_location 1 0) with loc_Exact.
  replace (d - 53) with (d - 54 + 1) by lia.
  apply binary_round_aux_one_more; try nia.
  cbv zeta. change (shr_record_of_loc (2 * Zpos mz) loc_Exact)
    with {| shr_m := 2 * Zpos mz; shr_r := false; shr_s := false |}.
  rewrite shr_1_spec by lia.
  replace (2 * Zpos mz / 2) with (Zpos mz)
    by (rewrite Z.mul_comm, Z.div_mul; lia).
  replace (Z.odd (2 * Zpos mz)) with false
    by (symmetry; rewrite Z.odd_mul; done).
  done.
Qed.

Lemma decimal_signed_whole (sign : bool) (k : Z) :
  0 ≤ k < 2 ^ 53 → decimal sign k 0 = signed_whole sign k.
Proof.
  intros Hk. destruct k as [|p|p]; [done| |lia].
  rewrite decimal_whole_signed by lia. unfold signed_whole.
  by destruct sign.
Qed.

Lemma decimal_whole (k : Z) :
  0 ≤ k < 2 ^ 53 → decimal false k 0 = float_of_Z k.
Proof.
  intros Hk. rewrite decimal_signed_whole by done. unfold signed_whole.
  by destruct (Z.eqb_spec k 0) as [->|].
Qed.

(** The whole hours of a duration of magnitude below 2^56 are below
    2^53. *)
Lemma hours_below_53_bits (N D : Z) :
  0 ≤ N < 2 ^ 56 → 1 ≤ D → 0 ≤ div_half_even N (3600 * D) < 2 ^ 53.
Proof.
  intros HN HD.
  pose proof (div_half_even_bound N (3600 * D) ltac:(lia)) as Hb.
  pose proof (div_half_even_nonneg N (3600 * D) ltac:(lia) ltac:(lia)) as Hk.
  split; [done|].
  destruct (Z_lt_ge_dec (div_half_even N (3600 * D)) (2 ^ 53)) as [|Hge]; [done|].
  assert (2 ^ 53 * (3600 * D) ≤ 3600 * D * div_half_even N (3600 * D)) by nia. lia.
Qed.

End WholeNumbers.

(** The value of a finite float of at most 56 bits: a fraction of a
    numerator below 2^56 and a positive denominator. *)
Lemma float_num_den_bounds (m : positive) (e : Z) :
  Zpos m < 2 ^ 53 → e ≤ 3 → 0 < float_num m e < 2 ^ 56 ∧ 1 ≤ float_den e.
Proof.
  intros Hm He. unfold float_num, float_den.
  assert (0 < 2 ^ Z.max e 0 ≤ 2 ^ 3).
  { split; [apply Z.pow_pos_nonneg; lia|apply Z.pow_le_mono_r; lia]. }
  assert (0 < 2 ^ Z.max (- e) 0) by (apply Z.pow_pos_nonneg; lia).
  split; [nia|lia].
Qed.

(** C9, amended: for a size that is any finite float, or a whole number
    that its float holds exactly, as every whole number of magnitude
    below 2^53 is, [get_total_size] returns the float nearest to the
    numeral with two decimals nearest to the size divided by 1024^3 (a
    tie to the even last digit), with the sign of the size; for a
    duration of magnitude below 2^56 that is a finite float or such a
    whole number, [get_total_duration] returns the float of the whole
    number nearest to the duration divided by 3600 (a tie to the even
    one), with the sign of the duration, which is [-0.0] for a negative
    duration of at most half an hour.  A finite float is [m * 2^e] for
    a mantissa and an exponent of a binary64 number, its value the
    fraction of [float_num m e] and [float_den e]; the floats of
    magnitude below 2^56 are those with [e <= 3].  A zero, an infinity
    and NaN are returned as they are; both functions return [None] for
    [None]; 3 * 1024^3 bytes give 3.0 and 7200 seconds give 2.0; and the
    data function of the items sensor returns [totalItems] as it is. *)
Theorem library_stat_conversions :
  (∀ n, - 2 ^ 53 < n < 2 ^ 53 →
     get_total_size (JInt n)
       = Ok (JFloat (decimal (n <? 0) (div_half_even (100 * Z.abs n) (2 ^ 30)) 2)))
  ∧ (∀ n, - 2 ^ 53 < n < 2 ^ 53 →
     get_total_duration (JInt n)
       = Ok (JFloat (signed_whole (n <? 0) (div_half_even (Z.abs n) 3600))))
  ∧ (∀ n, 0 ≤ n < 2 ^ 53 →
     get_total_duration (JInt n) = Ok (JFloat (float_of_Z (div_half_even n 3600))))
  ∧ (∀ n sign m e,
     float_of_Z n = S754_finite sign m e → bounded prec emax m e = true →
     float_num m e = Z.abs n * float_den e →
     get_total_size (JInt n)
       = Ok (JFloat (decimal sign (div_half_even (100 * Z.abs n) (2 ^ 30)) 2))
     ∧ (e ≤ 3 →
        get_total_duration (JInt n)
          = Ok (JFloat (signed_whole sign (div_half_even (Z.abs n) 3600)))))
  ∧ (∀ sign m e, bounded prec emax m e = true →
     get_total_size (JFloat (S754_finite sign m e))
       = Ok (JFloat (decimal sign
                       (div_half_even (100 * float_num m e) (2 ^ 30 * float_den e)) 2)))
  ∧ (∀ sign m e, bounded prec emax m e = true → e ≤ 3 →
     get_total_duration (JFloat (S754_finite sign m e))
       = Ok (JFloat (signed_whole sign
                       (div_half_even (float_num m e) (3600 * float_den e)))))
  ∧ (∀ m e, bounded prec emax m e = true → e ≤ 3 →
     get_total_duration (JFloat (S754_finite false m e))
       = Ok (JFloat (float_of_Z
                       (div_half_even (float_num m e) (3600 * float_den e)))))
  ∧ (∀ x, match x with S754_finite _ _ _ => False | _ => True end →
     get_total_size (JFloat x) = Ok (JFloat x)
     ∧ get_total_duration (JFloat x) = Ok (JFloat x))
  ∧ get_total_size JNull = Ok JNull
  ∧ get_total_duration JNull = Ok JNull
  ∧ get_total_size (JInt (3 * 1024 ^ 3)) = Ok (JFloat (float_of_Z 3))
  ∧ get_total_duration (JInt 7200) = Ok (JFloat (float_of_Z 2))
  ∧ (∀ library data,
       data_function (items_sensor library) data = Ok (get_or "totalItems" JNull data)).
Proof.
  assert (Hfloat : ∀ sign m e, bounded prec emax m e = true → e ≤ 3 →
    get_total_duration (JFloat (S754_finite sign m e))
      = Ok (JFloat (signed_whole sign
                      (div_half_even (float_num m e) (3600 * float_den e))))).
  { intros sign m e (Hm & He & Hcanon)%bounded_cases He3.
    rewrite get_total_duration_finite; [|done|lia|done].
    destruct (float_num_den_bounds m e Hm He3) as [Hnum Hden].
    rewrite decimal_signed_whole; [done|].
    apply hours_below_53_bits; lia. }
  split; [exact get_total_size_whole|].
  split; [|split; [|split; [|split; [|split; [exact Hfloat|split;
    [|split; [exact stat_conversions_keep|by repeat split]]]]]]].
  - intros n Hn. rewrite get_total_duration_whole by done.
    rewrite decimal_signed_whole; [done|].
    replace 3600 with (3600 * 1) by lia. apply hours_below_53_bits; lia.
  - intros n Hn. rewrite get_total_duration_exact by done.
    rewrite decimal_whole; [done|].
    replace 3600 with (3600 * 1) by lia. apply hours_below_53_bits; lia.
  - intros n sign m e Hf (Hm & He & Hcanon)%bounded_cases Hheld. split.
    + by apply (get_total_size_held n sign m e).
    + intros He3.
      rewrite (get_total_duration_held n sign m e); [|done|done|lia|done|done].
      destruct (float_num_den_bounds m e Hm He3) as [Hnum Hden].
      rewrite decimal_signed_whole; [done|].
      replace 3600 with (3600 * 1) by lia. apply hours_below_53_bits; nia.
  - intros sign m e (Hm & He & Hcanon)%bounded_cases. by apply get_total_size_finite.
  - intros m e Hb He3. rewrite (Hfloat false m e Hb He3). unfold signed_whole.
    by destruct (Z.eqb_spec (div_half_even (float_num m e) (3600 * float_den e)) 0)
      as [->|].
Qed.

(** The statistics of the end-to-end scenario: 1073741824 bytes are 1.0
    GB and 3600 seconds are 1.0 hour.  A duration of -3600 seconds is
    -1.0 hours; 9000.5 seconds, the float 18001 * 2^38 / 2^39, are 3.0
    hours; the least float below zero, -2^-1074 bytes, is -0.0 GB; 2^82
    bytes, a float, are 2^52 GB; and 3600 * 2^43 seconds, a whole number
    of 55 bits that its float holds, are 2^43 hours. *)
Lemma library_stat_conversions_witness :
  get_total_size (JInt 1073741824) = Ok (JFloat (float_of_Z 1))
  ∧ get_total_duration (JInt 3600) = Ok (JFloat (float_of_Z 1))
  ∧ get_total_duration (JInt (-3600)) = Ok (JFloat (float_of_Z (-1)))
  ∧ get_total_duration (JFloat (S754_finite false 4948077202898944 (-39)))
      = Ok (JFloat (float_of_Z 3))
  ∧ get_total_size (JFloat (S754_finite true 1 (-1074))) = Ok (JFloat (S754_zero true))
  ∧ get_total_size (JFloat (S754_finite false 4503599627370496 30))
      = Ok (JFloat (float_of_Z (2 ^ 52)))
  ∧ get_total_duration (JInt (3600 * 2 ^ 43)) = Ok (JFloat (float_of_Z (2 ^ 43))).
Proof.
  destruct library_stat_conversions
    as (Hsize & Hduration & _ & Hheld & Hfsize & Hfduration & _).
  split; [|split; [|split; [|split; [|split; [|split]]]]].
  - refine (eq_trans (Hsize 1073741824 _) _); [lia|vm_compute; reflexivity].
  - refine (eq_trans (Hduration 3600 _) _); [lia|vm_compute; reflexivity].
  - refine (eq_trans (Hduration (-3600) _) _); [lia|vm_compute; reflexivity].
  - refine (eq_trans (Hfduration false 4948077202898944%positive (-39) _ _) _);
      [reflexivity|lia|vm_compute; reflexivity].
  - refine (eq_trans (Hfsize true 1%positive (-1074) _) _);
      [reflexivity|vm_compute; reflexivity].
  - refine (eq_trans (Hfsize false 4503599627370496%positive 30 _) _);
      [reflexivity|vm_compute; reflexivity].
  - refine (eq_trans
              (proj2 (Hheld (3600 * 2 ^ 43) false 7916483719987200%positive 2 _ _ _) _) _);
      [reflexivity|reflexivity|reflexivity|lia|vm_compute; reflexivity].
Defined.

(** C9 as stated fails for whole numbers of 2^53 and more, which are
    rounded to a float before the division, and for durations that are
    floats of 2^56 and more, which the two divisions by 60 round twice.
    9007200000001801 seconds divided by 3600 are nearer to 2502000000001
    than to 2502000000000, by 1799 and 1801 seconds, and
    [get_total_duration] returns 2502000000000.0: it divides
    9007200000001800.0.  9007199388958721 bytes divided by 1024^3 are
    8388608.125000000931..., which rounds to 8388608.13, and
    [get_total_size] returns 8388608.12: it divides 9007199388958720.0,
    whose quotient 8388608.125 is a tie.  The float 8696640590670713 *
    2^4 seconds divided by 3600 is 38651735958536.502..., and
    [get_total_duration] returns 38651735958536.0. *)
Lemma library_stat_conversions_fail_on_large_numbers :
  get_total_duration (JInt 9007200000001801) = Ok (JFloat (float_of_Z 2502000000000))
  ∧ div_half_even 9007200000001801 3600 = 2502000000001
  ∧ float_of_Z 2502000000000 ≠ float_of_Z 2502000000001
  ∧ 9007200000001801 - 3600 * 2502000000000 = 1801
  ∧ 3600 * 2502000000001 - 9007200000001801 = 1799
  ∧ float_of_Z 9007200000001801 = float_of_Z 9007200000001800
  ∧ get_total_size (JInt 9007199388958721) = Ok (JFloat (decimal false 838860812 2))
  ∧ div_half_even (100 * 9007199388958721) (2 ^ 30) = 838860813
  ∧ decimal false 838860812 2 ≠ decimal false 838860813 2
  ∧ float_of_Z 9007199388958721 = float_of_Z 9007199388958720
  ∧ bounded prec emax 8696640590670713 4 = true
  ∧ get_total_duration (JFloat (S754_finite false 8696640590670713 4))
      = Ok (JFloat (float_of_Z 38651735958536))
  ∧ div_half_even (float_num 8696640590670713 4) (3600 * float_den 4) = 38651735958537
  ∧ float_of_Z 38651735958536 ≠ float_of_Z 38651735958537
  ∧ 2 * Z.abs (float_num 8696640590670713 4 - 3600 * 38651735958537) < 3600.
Proof. repeat split; vm_compute; congruence. Qed.

End FloatArithmetic.

(** * Further properties of the code *)

Section MoreDicts.
Context {V : Type}.
Implicit Types (d : list (string * V)) (k : string) (v : V).

Lemma dict_get_Some_keys k v d : dict_get k d = Some v → k ∈ dict_keys d.
Proof.
  unfold dict_keys. induction d as [|[k0 v0] d IH]; simpl; [done|].
  destruct (String.eqb_spec k k0) as [->|]; [intros _; by left|].
  intros H. right. by apply IH.
Qed.

Lemma dict_get_None_keys k d : dict_get k d = None ↔ k ∉ dict_keys d.
Proof.
  unfold dict_keys. induction d as [|[k0 v0] d IH]; simpl.
  - split; [intros _; apply not_elem_of_nil|done].
  - rewrite not_elem_of_cons. destruct (String.eqb_spec k k0) as [->|Hne].
    + split; [done|]. by intros [? _].
    + rewrite IH. split; [done|]. by intros [_ ?].
Qed.

Lemma dict_keys_set_present k v d :
  k ∈ dict_keys d → dict_keys (dict_set k v d) = dict_keys d.
Proof.
  unfold dict_keys. induction d as [|[k0 v0] d IH]; simpl.
  - by intros ?%elem_of_nil.
  - destruct (String.eqb_spec k k0) as [->|Hne]; [done|].
    intros [?|Hin]%elem_of_cons; [done|]. rewrite !fmap_cons. f_equal. by apply IH.
Qed.

Lemma dict_set_set k v v' d : dict_set k v (dict_set k v' d) = dict_set k v d.
Proof.
  induction d as [|[k0 v0] d IH]; simpl.
  - by rewrite String.eqb_refl.
  - destruct (String.eqb_spec k k0) as [->|Hne]; simpl.
    + by rewrite String.eqb_refl.
    + rewrite (proj2 (String.eqb_neq k k0)) by done. by rewrite IH.
Qed.

End MoreDicts.

Section RedactedUsers.

Lemma redact_tokens_dicts (users : list json) :
  Forall (fun u => is_dict u = true) users →
  redact_tokens users = (redacted <$> users, Ok ()).
Proof.
  induction 1 as [|u users Hu _ IH]; [done|].
  destruct u; try done. simpl. by rewrite IH.
Qed.

Lemma redact_tokens_stops (pre post : list json) (x : json) :
  Forall (fun u => is_dict u = true) pre → is_dict x = false →
  redact_tokens (pre ++ x :: post) = ((redacted <$> pre) ++ x :: post, Raise TypeError).
Proof.
  intros Hpre Hx. induction Hpre as [|u pre Hu _ IH]; simpl.
  - by destruct x.
  - destruct u; try done. by rewrite IH.
Qed.

Lemma redacted_idemp (user : json) : redacted (redacted user) = redacted user.
Proof. destruct user; try done. simpl. by rewrite dict_set_set. Qed.

Lemma is_dict_redacted (user : json) : is_dict (redacted user) = is_dict user.
Proof. by destruct user. Qed.

Lemma redacted_fields (user : json) :
  is_dict user = true →
  field (redacted user) "token" = Some (JStr "<redacted>")
  ∧ ∀ k, k ≠ "token" → field (redacted user) k = field user k.
Proof.
  destruct user as [| | | | | |u]; try done. intros _. simpl. split.
  - by rewrite dict_get_set.
  - intros k Hk. rewrite dict_get_set. by rewrite (proj2 (String.eqb_neq k "token")).
Qed.

Lemma clean_user_attributes_dicts (data : dict) (users : list json) :
  dict_get "users" data = Some (JList users) →
  Forall (fun u => is_dict u = true) users →
  clean_user_attributes data =
    (dict_set "users" (JList (redacted <$> users)) data,
     Ok (dict_set "users" (JList (redacted <$> users)) data)).
Proof.
  intros Hget Hall. unfold clean_user_attributes.
  by rewrite Hget, (redact_tokens_dicts users Hall).
Qed.

(** Cleaning a cleaned payload changes nothing. *)
Lemma clean_user_attributes_dicts_again (data : dict) (users : list json) :
  dict_get "users" data = Some (JList users) →
  Forall (fun u => is_dict u = true) users →
  let data' := dict_set "users" (JList (redacted <$> users)) data in
  clean_user_attributes data' = (data', Ok data').
Proof.
  intros Hget Hall data'.
  rewrite (clean_user_attributes_dicts data' (redacted <$> users)).
  - subst data'. rewrite <- list_fmap_compose.
    rewrite (list_fmap_ext (redacted ∘ redacted) redacted users)
      by (intros; apply redacted_idemp).
    by rewrite dict_set_set.
  - subst data'. by rewrite dict_get_set.
  - apply Forall_fmap. eapply Forall_impl; [exact Hall|].
    intros u Hu. simpl. by rewrite is_dict_redacted.
Qed.

(** X1: when "users" holds a list of dicts, [clean_user_attributes]
    returns the payload itself with the token of every user replaced by
    "<redacted>": the keys of the payload and every other entry are kept,
    every user keeps its other fields, and cleaning the result again
    changes nothing. *)
Theorem clean_user_attributes_redacts_tokens (data : dict) (users : list json) :
  dict_get "users" data = Some (JList users) →
  Forall (fun u => is_dict u = true) users →
  let data' := dict_set "users" (JList (redacted <$> users)) data in
  clean_user_attributes data = (data', Ok data')
  ∧ dict_keys data' = dict_keys data
  ∧ (∀ k, k ≠ "users" → dict_get k data' = dict_get k data)
  ∧ Forall2 (fun u u' =>
               field u' "token" = Some (JStr "<redacted>")
               ∧ ∀ k, k ≠ "token" → field u' k = field u k)
            users (redacted <$> users)
  ∧ clean_user_attributes data' = (data', Ok data').
Proof.
  intros Hget Hall data'.
  split; [by apply clean_user_attributes_dicts|].
  split; [apply dict_keys_set_present; by eapply dict_get_Some_keys|].
  split.
  { intros k Hk. subst data'. rewrite dict_get_set.
    by rewrite (proj2 (String.eqb_neq k "users")). }
  split.
  { apply Forall2_fmap_r, Forall_Forall2_diag.
    eapply Forall_impl; [exact Hall|]. intros u Hu. by apply redacted_fields. }
  by apply clean_user_attributes_dicts_again.
Qed.

Lemma clean_user_attributes_redacts_tokens_witness :
  (clean_user_attributes token_payload).1 =
    [("users", JList [JObj [("username", JStr "root"); ("isActive", JBool true);
                            ("token", JStr "<redacted>")]])].
Proof.
  refine (f_equal fst
            (proj1 (clean_user_attributes_redacts_tokens token_payload [token_user]
                      eq_refl _))).
  by repeat constructor.
Defined.

(** X2: when the list of users has a user that is no dict,
    [clean_user_attributes] raises [TypeError] there: the users before it
    are left redacted in the payload, the ones after it untouched. *)
Theorem clean_user_attributes_stops_at_non_dict (data : dict)
    (pre post : list json) (x : json) :
  dict_get "users" data = Some (JList (pre ++ x :: post)) →
  Forall (fun u => is_dict u = true) pre → is_dict x = false →
  clean_user_attributes data =
    (dict_set "users" (JList ((redacted <$> pre) ++ x :: post)) data, Raise TypeError).
Proof.
  intros Hget Hpre Hx. unfold clean_user_attributes.
  by rewrite Hget, (redact_tokens_stops pre post x Hpre Hx).
Qed.

Lemma clean_user_attributes_stops_at_non_dict_witness :
  clean_user_attributes [("users", JList [token_user; JNull; token_user])] =
    ([("users", JList [redacted token_user; JNull; token_user])], Raise TypeError).
Proof.
  refine (clean_user_attributes_stops_at_non_dict
            [("users", JList [token_user; JNull; token_user])]
            [token_user] [token_user] JNull eq_refl _ eq_refl).
  by repeat constructor.
Defined.

End RedactedUsers.

Section UpdateSteps.
Implicit Types (self : AudiobookshelfSensor) (cache : gmap string json).

Lemma dict_get_rev {V : Type} (k : string) (d : list (string * V)) :
  NoDup (dict_keys d) → dict_get k (rev d) = dict_get k d.
Proof.
  unfold dict_keys. induction d as [|[k0 v0] d IH]; [done|].
  rewrite fmap_cons, NoDup_cons. intros [Hk0 Hd]. simpl.
  rewrite dict_get_app, IH by done. simpl.
  destruct (String.eqb_spec k k0) as [->|]; [|by destruct (dict_get k d)].
  by rewrite (proj2 (dict_get_None_keys k0 d)).
Qed.

(** [async_update] when the endpoint's payload is a dict. *)
Lemma async_update_payload self cache (payload : dict) :
  cache !! _endpoint self = Some (JObj payload) →
  async_update self (Some cache) =
    ((process_payload self payload).1.1,
     Some (<[_endpoint self := JObj (process_payload self payload).1.2]> cache),
     (process_payload self payload).2).
Proof.
  intros Hcache. unfold async_update.
  rewrite (nonempty_data_lookup _ _ _ Hcache), Hcache.
  by destruct (process_payload self payload) as [[? ?] ?].
Qed.

(** [async_update] when the data is not empty and the endpoint has no
    entry. *)
Lemma async_update_missing self cache :
  nonempty_data (Some cache) = Some cache → cache !! _endpoint self = None →
  async_update self (Some cache) =
    ((process_payload self []).1.1, Some cache, (process_payload self []).2).
Proof.
  intros Hne Hcache. unfold async_update. rewrite Hne, Hcache.
  by destruct (process_payload self []) as [[? ?] ?].
Qed.

(** Once the attributes function has returned, the payload is as it left
    it and the attributes are merged, whatever the data function does;
    the state is the old one or the value of the data function. *)
Lemma process_payload_attributes self (payload payload' attrs : dict) :
  _process_attributes self payload = (payload', Ok attrs) →
  (process_payload self payload).1.2 = payload'
  ∧ _attr_extra_state_attributes (process_payload self payload).1.1
      = dict_update (_attr_extra_state_attributes self) attrs
  ∧ (process_payload self payload).2
      = (_process_data self payload' ≫= fun _ => Ok ()).
Proof.
  intros Hattrs. unfold process_payload. rewrite Hattrs.
  destruct (_process_data self payload') as [new_state|e|]; simpl; [|done..].
  by destruct (negb (in_zero_none new_state) || in_zero_none (_state self)).
Qed.

(** When the attributes function raises, the entity stays as it was. *)
Lemma process_payload_attributes_raise self (payload payload' : dict) (e : exn) :
  _process_attributes self payload = (payload', Raise e) →
  process_payload self payload = (self, payload', Raise e).
Proof. intros Hattrs. unfold process_payload. by rewrite Hattrs. Qed.

End UpdateSteps.

Section UsersEntity.

(** X3: after [async_update] of an entity whose attributes function is
    [clean_user_attributes], on a cached payload whose users are dicts, the
    coordinator's data holds the payload with every token redacted, and so
    do the attributes of the entity, whatever the data function does. *)
Theorem async_update_redacts_cached_tokens (self : AudiobookshelfSensor)
    (cache : gmap string json) (payload : dict) (users : list json) :
  _process_attributes self = clean_user_attributes →
  cache !! _endpoint self = Some (JObj payload) →
  NoDup (dict_keys payload) →
  dict_get "users" payload = Some (JList users) →
  Forall (fun u => is_dict u = true) users →
  let payload' := dict_set "users" (JList (redacted <$> users)) payload in
  let after := async_update self (Some cache) in
  after.1.2 = Some (<[_endpoint self := JObj payload']> cache)
  ∧ dict_get "users" (_attr_extra_state_attributes after.1.1)
      = Some (JList (redacted <$> users))
  ∧ Forall (fun u => field u "token" = Some (JStr "<redacted>")) (redacted <$> users).
Proof.
  intros Hfun Hcache Hnodup Hget Hall payload' after.
  pose proof (clean_user_attributes_dicts payload users Hget Hall) as Hclean.
  assert (Hkeys : dict_keys payload' = dict_keys payload)
    by (apply dict_keys_set_present; by eapply dict_get_Some_keys).
  rewrite <- Hfun in Hclean.
  destruct (process_payload_attributes self payload _ _ Hclean) as (Hp & Ha & _).
  subst after. rewrite (async_update_payload _ _ _ Hcache). simpl.
  rewrite Hp, Ha. split; [done|]. split.
  - assert (Hnodup' : NoDup (dict_keys payload')) by (subst payload'; by rewrite Hkeys).
    rewrite dict_get_update, dict_get_rev by done.
    subst payload'. by rewrite dict_get_set.
  - apply Forall_fmap. eapply Forall_impl; [exact Hall|].
    intros u Hu. simpl. by apply redacted_fields.
Qed.

Lemma async_update_redacts_cached_tokens_witness :
  (async_update users_entity (Some {[ "api/users" := JObj token_payload ]})).1.2
    = Some {[ "api/users" := JObj [("users", JList [redacted token_user])] ]}.
Proof.
  refine (eq_trans (proj1 (async_update_redacts_cached_tokens users_entity
            {[ "api/users" := JObj token_payload ]} token_payload [token_user]
            eq_refl eq_refl _ eq_refl _)) _).
  - apply NoDup_singleton.
  - by repeat constructor.
  - vm_compute. reflexivity.
Defined.

End UsersEntity.

Section DictKeys.
Context {V : Type}.
Implicit Types (d l : list (string * V)) (k : string) (v : V).

Lemma dict_keys_set k v d :
  dict_keys (dict_set k v d) =
    if bool_decide (k ∈ dict_keys d) then dict_keys d else dict_keys d ++ [k].
Proof.
  case_bool_decide as Hk.
  - by apply dict_keys_set_present.
  - rewrite dict_set_fresh by done. unfold dict_keys. by rewrite fmap_app.
Qed.

Lemma NoDup_dict_keys_set k v d :
  NoDup (dict_keys d) → NoDup (dict_keys (dict_set k v d)).
Proof.
  intros Hd. rewrite dict_keys_set. case_bool_decide as Hk; [done|].
  apply NoDup_app. split; [done|]. split; [|apply NoDup_singleton].
  intros x Hx ->%list_elem_of_singleton. done.
Qed.

Lemma NoDup_dict_keys_update d l :
  NoDup (dict_keys d) → NoDup (dict_keys (dict_update d l)).
Proof.
  unfold dict_update. revert d. induction l as [|[k v] l IH]; intros d Hd; simpl; [done|].
  by apply IH, NoDup_dict_keys_set.
Qed.

Lemma elem_of_dict_keys_update k d l :
  k ∈ dict_keys (dict_update d l) ↔ k ∈ dict_keys d ∨ k ∈ dict_keys l.
Proof.
  unfold dict_update. revert d. induction l as [|[k0 v0] l IH]; intros d; simpl.
  - rewrite elem_of_nil. tauto.
  - rewrite IH, dict_keys_set, elem_of_cons. fold (dict_keys l).
    case_bool_decide as Hk0.
    + split; [tauto|]. intros [?|[->|?]]; auto.
    + rewrite elem_of_app, list_elem_of_singleton. tauto.
Qed.

Lemma dict_get_rev_None k d : dict_get k d = None → dict_get k (rev d) = None.
Proof.
  induction d as [|[k0 v0] d IH]; simpl; [done|].
  destruct (String.eqb_spec k k0) as [->|Hne]; [done|].
  intros Hd. rewrite dict_get_app, (IH Hd). simpl.
  by rewrite (proj2 (String.eqb_neq k k0)).
Qed.

End DictKeys.

Section LibraryDetails.

Lemma extract_library_detail_plain (details : dict) (library : json) :
  plain_library library = true →
  extract_library_detail details library =
    Ok match detail_of library with
       | Some (k, entry) => dict_set k entry details
       | None => details
       end.
Proof.
  destruct library as [| | | | | |d]; try done.
  unfold plain_library, extract_library_detail, detail_of, method_get, get_or. simpl.
  destruct (dict_get "id" d) as [v|] eqn:Hid; simpl; [|done].
  destruct v as [|b|n|f|s|l|o]; simpl; try (intros ->%negb_true_iff; done); try done.
  intros _. by destruct (String.eqb_spec s "").
Qed.

Lemma foldM_extract_library_detail (details : dict) (libraries : list json) :
  Forall (fun l => plain_library l = true) libraries →
  foldM extract_library_detail details libraries
    = Ok (dict_update details (omap detail_of libraries)).
Proof.
  intros Hall. revert details.
  induction Hall as [|l libraries Hl _ IH]; intros details; [done|].
  simpl. rewrite (extract_library_detail_plain _ _ Hl). simpl. rewrite IH.
  by destruct (detail_of l) as [[k entry]|].
Qed.

Lemma foldM_extract_library_detail_stops (details : dict) (pre post : list json) (x : json) :
  Forall (fun l => plain_library l = true) pre → is_dict x = false →
  foldM extract_library_detail details (pre ++ x :: post) = Raise AttributeError.
Proof.
  intros Hpre Hx. revert details.
  induction Hpre as [|l pre Hl _ IH]; intros details; simpl.
  - by destruct x.
  - rewrite (extract_library_detail_plain _ _ Hl). simpl. apply IH.
Qed.

Lemma detail_of_Some (library : json) (k : string) (entry : json) :
  detail_of library = Some (k, entry) ↔
  field library "id" = Some (JStr k) ∧ k ≠ ""
  ∧ entry = JObj [("mediaType", default JNull (field library "mediaType"));
                  ("provider", default JNull (field library "provider"))].
Proof.
  unfold detail_of. destruct (field library "id") as [[| | | |s| |]|]; try (split; [done|by intros [? _]]).
  destruct (String.eqb_spec s "") as [->|Hne].
  - split; [done|]. by intros ([= <-] & ? & _).
  - split.
    + by intros [= <- <-].
    + by intros ([= <-] & _ & ->).
Qed.

(** X4: on a listing whose libraries are dicts with a [str] id, an id that
    counts as false or none, [extract_library_details] (and
    [get_library_stats], which calls it) returns a dict with pairwise
    distinct keys, the ids that are not empty, each with the [mediaType]
    and [provider] of the last library with that id. *)
Theorem extract_library_details_last_by_id (data : dict) (libraries : list json) :
  get_or "libraries" (JList []) data = JList libraries →
  Forall (fun l => plain_library l = true) libraries →
  ∃ details,
    extract_library_details data = Ok details
    ∧ get_library_stats data = Ok details
    ∧ NoDup (dict_keys details)
    ∧ (∀ k, k ∈ dict_keys details ↔
            k ≠ "" ∧ ∃ l, l ∈ libraries ∧ field l "id" = Some (JStr k))
    ∧ (∀ pre l post k,
         libraries = pre ++ l :: post →
         field l "id" = Some (JStr k) → k ≠ "" →
         Forall (fun l' => field l' "id" ≠ Some (JStr k)) post →
         dict_get k details =
           Some (JObj [("mediaType", default JNull (field l "mediaType"));
                       ("provider", default JNull (field l "provider"))])).
Proof.
  intros Hget Hall. exists (dict_of_pairs (omap detail_of libraries)).
  assert (Hrun : extract_library_details data
                 = Ok (dict_of_pairs (omap detail_of libraries))).
  { unfold extract_library_details. rewrite Hget. simpl.
    by apply foldM_extract_library_detail. }
  split; [done|]. split; [done|]. split; [|split].
  - by apply NoDup_dict_keys_update, NoDup_nil_2.
  - intros k. unfold dict_of_pairs. rewrite elem_of_dict_keys_update.
    unfold dict_keys. rewrite fmap_nil, elem_of_nil, list_elem_of_fmap.
    split.
    + intros [[]|([k' entry] & -> & (l & Hl & Hd)%list_elem_of_omap)].
      apply detail_of_Some in Hd as (Hid & Hne & _). simpl. eauto.
    + intros (Hne & l & Hl & Hid). right.
      eexists (k, _). split; [done|]. apply list_elem_of_omap.
      exists l. split; [done|]. apply detail_of_Some. eauto.
  - intros pre l post k -> Hid Hne Hpost.
    unfold dict_of_pairs. rewrite dict_get_update.
    rewrite omap_app, rev_app_distr. simpl.
    assert (Hl : detail_of l = Some (k, JObj [("mediaType", default JNull (field l "mediaType"));
                       ("provider", default JNull (field l "provider"))]))
      by (apply detail_of_Some; eauto).
    rewrite Hl. simpl. rewrite <- app_assoc, dict_get_app. simpl.
    assert (Hnone : dict_get k (rev (omap detail_of post)) = None).
    { apply dict_get_rev_None, dict_get_None_keys. unfold dict_keys.
      rewrite list_elem_of_fmap.
      intros ([k' entry] & -> & (l' & Hl' & Hd)%list_elem_of_omap).
      apply detail_of_Some in Hd as (Hid' & _). simpl in *.
      rewrite Forall_forall in Hpost. by apply (Hpost l'). }
    change (list_omap _ _ detail_of post) with (omap detail_of post).
    rewrite Hnone. by rewrite String.eqb_refl.
Qed.

Lemma extract_library_details_last_by_id_witness :
  ∃ details,
    extract_library_details details_listing = Ok details
    ∧ NoDup (dict_keys details)
    ∧ dict_get "lib2" details
        = Some (JObj [("mediaType", JStr "podcast"); ("provider", JNull)]).
Proof.
  destruct (extract_library_details_last_by_id details_listing
    [JObj [("id", JStr "lib1"); ("mediaType", JStr "book"); ("provider", JStr "audible")];
     JObj [("name", JStr "No id")];
     JObj [("id", JStr "lib2"); ("mediaType", JStr "podcast")]] eq_refl)
    as (details & Hrun & _ & Hnodup & _ & Hlast).
  { by repeat constructor. }
  exists details. split; [done|]. split; [done|].
  apply (Hlast
    [JObj [("id", JStr "lib1"); ("mediaType", JStr "book"); ("provider", JStr "audible")];
     JObj [("name", JStr "No id")]]
    (JObj [("id", JStr "lib2"); ("mediaType", JStr "podcast")]) [] "lib2");
    [reflexivity|reflexivity|discriminate|constructor].
Defined.

(** X5: [extract_library_details] returns [{}] when there is no
    "libraries" key and when no library has an id; it raises
    [AttributeError] at the first library that is no dict, and [TypeError]
    when "libraries" is [None], a number or a boolean. *)
Theorem extract_library_details_edges (data : dict) :
  (dict_get "libraries" data = None → extract_library_details data = Ok [])
  ∧ (∀ pre x post,
       dict_get "libraries" data = Some (JList (pre ++ x :: post)) →
       Forall (fun l => plain_library l = true) pre → is_dict x = false →
       extract_library_details data = Raise AttributeError)
  ∧ (∀ v, dict_get "libraries" data = Some v →
       match v with JList _ | JObj _ | JStr _ => False | _ => True end →
       extract_library_details data = Raise TypeError)
  ∧ (∀ libraries,
       dict_get "libraries" data = Some (JList libraries) →
       Forall (fun l => plain_library l = true ∧ detail_of l = None) libraries →
       extract_library_details data = Ok []).
Proof.
  unfold extract_library_details, get_or. repeat split.
  - by intros ->.
  - intros pre x post -> Hpre Hx. simpl.
    by apply foldM_extract_library_detail_stops.
  - intros v -> Hv. by destruct v.
  - intros libraries -> Hall. simpl.
    rewrite foldM_extract_library_detail
      by (eapply Forall_impl; [exact Hall|]; by intros l [? _]).
    f_equal. induction Hall as [|l libraries [_ Hl] _ IH]; [done|].
    simpl. by rewrite Hl.
Qed.

Lemma extract_library_details_edges_witness :
  extract_library_details [("libraries", JList [JObj [("id", JStr "lib1")]; JStr "lib2"])]
    = Raise AttributeError.
Proof.
  refine (proj1 (proj2 (extract_library_details_edges
            [("libraries", JList [JObj [("id", JStr "lib1")]; JStr "lib2"])]))
            [JObj [("id", JStr "lib1")]] (JStr "lib2") [] eq_refl _ eq_refl).
  by repeat constructor.
Defined.

End LibraryDetails.

Section ServerVersion.

(** X6: [extract_server_version] returns [None] when "serverSettings" or
    its "version" is missing and the version otherwise; it raises
    [TypeError] when "serverSettings" is no dict, and never a
    [KeyError]. *)
Theorem extract_server_version_missing_keys (data : dict) :
  extract_server_version data =
    match dict_get "serverSettings" data with
    | None => Ok JNull
    | Some (JObj settings) => Ok (get_or "version" JNull settings)
    | Some _ => Raise TypeError
    end
  ∧ ∀ key, extract_server_version data ≠ Raise (KeyError key).
Proof.
  assert (H : extract_server_version data =
    match dict_get "serverSettings" data with
    | None => Ok JNull
    | Some (JObj settings) => Ok (get_or "version" JNull settings)
    | Some _ => Raise TypeError
    end).
  { unfold extract_server_version, getitem, get_or.
    destruct (dict_get "serverSettings" data) as [[| | | | | |settings]|]; try done.
    simpl. unfold getitem. by destruct (dict_get "version" settings). }
  split; [done|]. intros key. rewrite H.
  by destruct (dict_get "serverSettings" data) as [[]|].
Qed.

End ServerVersion.

Section LibraryCount.

Lemma length_chars (s : string) : length (chars s) = String.length s.
Proof. induction s as [|c s IH]; simpl; [done|]. by rewrite IH. Qed.

(** What [len] counts is what [iter] gives. *)
Lemma len_iter (v : json) (items : list json) :
  iter v = Ok items → len v = Ok (Z.of_nat (length items)).
Proof.
  destruct v; simpl; try done; intros [= <-]; do 2 f_equal.
  - by rewrite length_chars.
  - unfold dict_keys. by rewrite !length_fmap.
Qed.

(** X7: when the listing is answered with status 200 and a dict, and
    [get_libraries] returns, the value of the libraries sensor,
    [count_libraries] of that body, is the number of libraries returned if
    the body has a "libraries" key; without the key [get_libraries]
    returns the empty list and [count_libraries] raises [KeyError]. *)
Theorem count_libraries_counts_discovered (conf : Config) (server : Request → Outcome)
    (body : dict) (libraries : list Library.t) :
  server (request conf "api/libraries") = Response HTTP_OK (JObj body) →
  get_libraries conf server = Ok libraries →
  match dict_get "libraries" body with
  | Some _ => count_libraries body = Ok (JInt (Z.of_nat (length libraries)))
  | None => libraries = [] ∧ count_libraries body = Raise (KeyError "libraries")
  end.
Proof.
  intros Hserver. unfold get_libraries, count_libraries, getitem, get_or.
  rewrite Hserver. simpl. unfold get_or.
  destruct (dict_get "libraries" body) as [v|]; simpl.
  - destruct (iter v) as [items|e|] eqn:Hiter; simpl;
      [|by destruct v; try discriminate; injection Hiter as <-|done].
    rewrite (len_iter _ _ Hiter). simpl.
    pose proof (raises_only_mapM _ _ items library_of_raises) as Hraise.
    destruct (mapM_result library_of items) as [libs|e|] eqn:Hmap; simpl;
      [|by destruct e|done].
    intros [= <-]. apply mapM_result_ok, Forall2_length in Hmap. by rewrite Hmap.
  - by intros [= <-].
Qed.

Lemma count_libraries_counts_discovered_witness :
  count_libraries [("libraries", JList [JObj [("id", JStr "lib1"); ("name", JStr "Books")]])]
    = Ok (JInt 1).
Proof.
  exact (count_libraries_counts_discovered example_conf
           (libraries_server (Response 200 scenario_listing))
           [("libraries", JList [JObj [("id", JStr "lib1"); ("name", JStr "Books")]])]
           [lib1] eq_refl eq_refl).
Defined.

End LibraryCount.

Section RegistryFrame.
Implicit Types (registry : gmap string Sensor) (libraries : list Library.t).

Lemma generate_library_sensors_lookup_other libraries registry (k : string) :
  (∀ library, library ∈ libraries → k ∉ library_keys (Library.id library)) →
  generate_library_sensors libraries registry !! k = registry !! k.
Proof.
  induction libraries as [|x libraries IH] using rev_ind; [done|].
  intros Hk. rewrite generate_library_sensors_snoc, register_lookup_other.
  - apply IH. intros library Hin. apply Hk, elem_of_app. by left.
  - apply Hk, elem_of_app. right. by left.
Qed.

Lemma generate_library_sensors_fixed libraries (k : string) (s : Sensor) :
  sensors !! k = Some s → generate_library_sensors libraries sensors !! k = Some s.
Proof.
  intros Hk. rewrite generate_library_sensors_lookup_other; [done|].
  intros library _ Hin. apply sensors_lookup_library_key in Hin. congruence.
Qed.

(** X8: [generate_library_sensors] writes under the keys of the listed
    libraries only: every other entry of the registry is as before, no
    key is removed, and the four fixed sensors stay, whatever the ids
    are. *)
Theorem generate_library_sensors_keeps_other_entries libraries registry :
  let after := generate_library_sensors libraries registry in
  (∀ k, (∀ library, library ∈ libraries → k ∉ library_keys (Library.id library)) →
        after !! k = registry !! k)
  ∧ dom registry ⊆ dom after
  ∧ (∀ k s, sensors !! k = Some s →
            generate_library_sensors libraries sensors !! k = Some s).
Proof.
  intros after. split; [|split].
  - apply generate_library_sensors_lookup_other.
  - intros k Hk. apply generate_library_sensors_dom. by left.
  - apply generate_library_sensors_fixed.
Qed.

End RegistryFrame.

Section Endpoints.
Implicit Types (registry : gmap string Sensor) (libraries : list Library.t).

Lemma elem_of_unique_endpoints registry (e : string) :
  e ∈ unique_endpoints registry ↔ ∃ k s, registry !! k = Some s ∧ endpoint s = e.
Proof.
  unfold unique_endpoints. rewrite elem_of_list_to_set, list_elem_of_fmap.
  split.
  - intros (s & -> & ([k s'] & -> & Hin%elem_of_map_to_list)%list_elem_of_fmap).
    by exists k, s'.
  - intros (k & s & Hk & <-). exists s. split; [done|].
    apply list_elem_of_fmap. exists (k, s). split; [done|]. by apply elem_of_map_to_list.
Qed.

Lemma library_stats_endpoint_inj : Inj eq eq library_stats_endpoint.
Proof.
  intros a b H. unfold library_stats_endpoint in H.
  apply String.app_inj in H. by apply append_inj_l in H.
Qed.

Lemma unique_endpoints_sensors :
  unique_endpoints sensors
    = {[ "api/users"; "api/users/online"; "api/libraries"; "api/authorize" ]}.
Proof. apply (bool_decide_unpack _). vm_compute. exact I. Qed.

Lemma library_stats_endpoint_not_fixed (a : string) :
  library_stats_endpoint a ∉ unique_endpoints sensors.
Proof.
  rewrite unique_endpoints_sensors. unfold library_stats_endpoint.
  rewrite !elem_of_union, !elem_of_singleton.
  intros [[[H|H]|H]|H]; simpl in H; try discriminate.
  all: destruct a; simpl in H; discriminate.
Qed.

Lemma unique_endpoints_generated libraries (e : string) :
  e ∈ unique_endpoints (generate_library_sensors libraries sensors) ↔
  e ∈ unique_endpoints sensors
  ∨ ∃ a, a ∈ library_ids libraries ∧ e = library_stats_endpoint a.
Proof.
  rewrite !elem_of_unique_endpoints. split.
  - intros (k & s & Hk & <-).
    apply generate_library_sensors_lookup_cases in Hk as [Hk|(library & Hin & Hs)].
    + left. by exists k, s.
    + right. exists (Library.id library). split.
      * unfold library_ids. apply elem_of_list_to_set, list_elem_of_fmap. eauto.
      * by destruct Hs as [->|[->| ->]].
  - intros [(k & s & Hk & <-)|(a & Ha & ->)].
    + exists k, s. split; [|done].
      rewrite generate_library_sensors_lookup_other; [done|].
      intros library _ Hin. apply sensors_lookup_library_key in Hin. congruence.
    + unfold library_ids in Ha.
      apply elem_of_list_to_set, list_elem_of_fmap in Ha as (library & -> & Hin).
      destruct (generate_library_sensors_lookup libraries sensors library Hin)
        as (last & _ & Hid & Hsize & _).
      exists (size_key (Library.id library)), (size_sensor last).
      split; [done|]. simpl. by rewrite Hid.
Qed.

End Endpoints.

Section EndpointsOfLibraries.
Variable set_iter : gset string → list string.
Hypothesis set_iter_perm : ∀ s : gset string, set_iter s ≡ₚ elements s.

Lemma size_unique_endpoints_generated (libraries : list Library.t) :
  size (unique_endpoints (generate_library_sensors libraries sensors))
    = 4 + size (library_ids libraries).
Proof.
  assert (Heq : unique_endpoints (generate_library_sensors libraries sensors)
                = unique_endpoints sensors
                  ∪ list_to_set (library_stats_endpoint <$> elements (library_ids libraries))).
  { apply set_eq. intros e.
    rewrite unique_endpoints_generated, elem_of_union, elem_of_list_to_set,
      list_elem_of_fmap.
    split; (intros [?|(a & H1 & H2)]; [by left|right; exists a]).
    - split; [done|]. by apply elem_of_elements.
    - split; [by apply elem_of_elements|done]. }
  rewrite Heq, size_union.
  - rewrite size_list_to_set
      by apply (@NoDup_fmap_2 _ _ _ library_stats_endpoint_inj), NoDup_elements.
    rewrite length_fmap. by rewrite unique_endpoints_sensors.
  - intros e He (a & -> & _)%elem_of_list_to_set%list_elem_of_fmap.
    by apply library_stats_endpoint_not_fixed in He.
Qed.

(** A cycle that returns has sent one request for each distinct endpoint
    and returns a dict whose keys are these endpoints. *)
Lemma refresh_cycle_returns (conf : Config) (server : Request → Outcome)
    (registry : gmap string Sensor) (m : gmap string json) :
  (_async_update_data set_iter conf server registry).2 = Ok m →
  length (_async_update_data set_iter conf server registry).1
    = size (unique_endpoints registry)
  ∧ dom m = unique_endpoints registry
  ∧ (∀ e j, e ∈ unique_endpoints registry →
       server (request conf e) = Response HTTP_OK j → m !! e = Some j).
Proof.
  intros Hm. unfold _async_update_data in *.
  destruct (fetch_endpoints_spec conf server
              (set_iter (unique_endpoints registry)) ∅ [])
    as [(m' & Hrun & Hall & Hin & Hout)|(pre & e & post & x & _ & _ & _ & Hrun)];
    rewrite Hrun in *; simpl in *; [|discriminate].
  injection Hm as ->. split; [|split].
  - by rewrite length_fmap, set_iter_perm.
  - apply set_eq. intros e. rewrite elem_of_dom.
    destruct (decide (e ∈ set_iter (unique_endpoints registry))) as [He|He].
    + destruct (Hall _ He) as [j Hj]. rewrite (Hin _ _ He Hj).
      rewrite set_iter_perm, elem_of_elements in He. split; [done|by eauto].
    + rewrite (Hout _ He), lookup_empty.
      rewrite set_iter_perm, elem_of_elements in He. split; [by intros [? ?]|done].
  - intros e j He Hj. apply Hin; [|done].
    by rewrite set_iter_perm, elem_of_elements.
Qed.

(** X9: the endpoints of the registry made of the four fixed sensors and
    the sensors of any libraries are the four fixed endpoints and one
    statistics endpoint for each id; they are 4 + (the number of distinct
    ids), and a cycle that returns has sent that many requests. *)
Theorem refresh_cycle_endpoints_of_libraries (conf : Config) (server : Request → Outcome)
    (libraries : list Library.t) :
  let registry := generate_library_sensors libraries sensors in
  let cycle := _async_update_data set_iter conf server registry in
  (∀ e, e ∈ unique_endpoints registry ↔
        e ∈ ({[ "api/users"; "api/users/online"; "api/libraries"; "api/authorize" ]}
               : gset string)
        ∨ ∃ a, a ∈ library_ids libraries ∧ e = library_stats_endpoint a)
  ∧ size (unique_endpoints registry) = 4 + size (library_ids libraries)
  ∧ (∀ m, cycle.2 = Ok m → length cycle.1 = 4 + size (library_ids libraries)).
Proof.
  intros registry cycle. split; [|split].
  - intros e. subst registry. rewrite unique_endpoints_generated.
    by rewrite unique_endpoints_sensors.
  - apply size_unique_endpoints_generated.
  - intros m Hm. destruct (refresh_cycle_returns _ _ _ _ Hm) as (Hlen & _ & _).
    subst cycle. rewrite Hlen. apply size_unique_endpoints_generated.
Qed.

End EndpointsOfLibraries.

Section EndpointsExamples.

(** The scenario's registry, every answer a 200: five requests. *)
Lemma refresh_cycle_endpoints_of_libraries_witness :
  length (_async_update_data elements example_conf server_empty
            (generate_library_sensors [lib1] sensors)).1
    = 4 + size (library_ids [lib1]).
Proof.
  destruct (refresh_cycle_endpoints_of_libraries elements elements_perm example_conf
              server_empty [lib1]) as (_ & _ & Hall).
  destruct (returns_ok (_async_update_data elements example_conf server_empty
                          (generate_library_sensors [lib1] sensors)).2) as [m Hm].
  { vm_compute. exact I. }
  exact (Hall m Hm).
Defined.

End EndpointsExamples.

Section MoreDictLookups.
Context {V : Type}.

Lemma dict_get_Some_elem (k : string) (v : V) (d : list (string * V)) :
  dict_get k d = Some v → (k, v) ∈ d.
Proof.
  induction d as [|[k0 v0] d IH]; simpl; [done|].
  destruct (String.eqb_spec k k0) as [->|]; [intros [= ->]; by left|].
  intros H. right. by apply IH.
Qed.

Lemma elem_of_rev (x : string * V) (d : list (string * V)) : x ∈ rev d ↔ x ∈ d.
Proof.
  split; intros H%list_elem_of_In; apply list_elem_of_In.
  - by apply in_rev in H.
  - by apply (proj1 (in_rev d x)).
Qed.

End MoreDictLookups.

Section Restore.

(** X11: an entity other than the one of "api/authorize" takes its last
    state when it is added and keeps the attributes it shows; when that
    state is a text, as the host's states are, an update keeps the text on
    every new value that is zero or [None], whatever the text says, and
    shows any other new value. *)
Theorem restored_state_survives_zero (self : AudiobookshelfSensor) (last : State.t)
    (text : string) (cache : gmap string json) (payload payload' attrs : dict)
    (new_state : json) :
  _endpoint self ≠ "api/authorize" →
  State.state last = JStr text →
  cache !! _endpoint self = Some (JObj payload) →
  _process_attributes self payload = (payload', Ok attrs) →
  _process_data self payload' = Ok new_state →
  let restored := (async_added_to_hass self (Some last)).1 in
  _state restored = JStr text
  ∧ _attr_extra_state_attributes restored = _attr_extra_state_attributes self
  ∧ _state (async_update restored (Some cache)).1.1
      = (if in_zero_none new_state then JStr text else new_state).
Proof.
  intros Hend Htext Hcache Hattrs Hdata restored.
  assert (Hrestored : restored = with_state self (JStr text)).
  { subst restored. unfold async_added_to_hass.
    rewrite (proj2 (String.eqb_neq _ _) Hend). simpl. by rewrite Htext. }
  rewrite Hrestored. split; [done|]. split; [done|].
  rewrite (async_update_payload (with_state self (JStr text)) cache payload) by done.
  simpl.
  rewrite (process_payload_state (with_state self (JStr text)) payload payload' attrs
             new_state) by done.
  simpl. by destruct (in_zero_none new_state).
Qed.

Lemma restored_state_survives_zero_witness :
  _state (async_update
            (async_added_to_hass (items_entity JNull)
               (Some {| State.state := JStr "unknown"; State.attributes := [] |})).1
            (Some (stats_cache (JObj [("totalItems", JInt 0)])))).1.1
    = JStr "unknown".
Proof.
  refine (proj2 (proj2 (restored_state_survives_zero (items_entity JNull)
            {| State.state := JStr "unknown"; State.attributes := [] |} "unknown"
            (stats_cache (JObj [("totalItems", JInt 0)]))
            [("totalItems", JInt 0)] [("totalItems", JInt 0)] [("totalItems", JInt 0)]
            (JInt 0) _ eq_refl eq_refl eq_refl eq_refl))).
  discriminate.
Defined.

End Restore.

Section AttributesMerge.
Implicit Types (self : AudiobookshelfSensor) (cache : gmap string json).

(** X12: [async_update] merges the attributes: a key the attributes
    function does not return keeps its value, a key it returns gets a
    value it returns (the value, when the returned keys are distinct), no
    key is ever removed, and distinct keys stay distinct. *)
Theorem async_update_merges_attributes self cache (payload payload' attrs : dict) :
  cache !! _endpoint self = Some (JObj payload) →
  _process_attributes self payload = (payload', Ok attrs) →
  let before := _attr_extra_state_attributes self in
  let after := _attr_extra_state_attributes (async_update self (Some cache)).1.1 in
  (∀ k, k ∉ dict_keys attrs → dict_get k after = dict_get k before)
  ∧ (∀ k, k ∈ dict_keys attrs → ∃ v, (k, v) ∈ attrs ∧ dict_get k after = Some v)
  ∧ (∀ k v, NoDup (dict_keys attrs) → dict_get k attrs = Some v → dict_get k after = Some v)
  ∧ (∀ k, k ∈ dict_keys before → k ∈ dict_keys after)
  ∧ (NoDup (dict_keys before) → NoDup (dict_keys after)).
Proof.
  intros Hcache Hattrs before after.
  assert (Hafter : after = dict_update before attrs).
  { subst after. rewrite (async_update_payload _ _ _ Hcache). simpl.
    by destruct (process_payload_attributes self payload _ _ Hattrs) as (_ & -> & _). }
  rewrite Hafter. clear Hafter after. split; [|split; [|split; [|split]]].
  - intros k Hk. rewrite dict_get_update.
    by rewrite (dict_get_rev_None k attrs) by (by apply dict_get_None_keys).
  - intros k Hk. rewrite dict_get_update.
    destruct (dict_get k (rev attrs)) as [v|] eqn:Hrev.
    + exists v. split; [|done]. apply dict_get_Some_elem in Hrev.
      by apply (proj1 (elem_of_rev _ _)) in Hrev.
    + exfalso. apply dict_get_None_keys in Hrev. apply Hrev.
      unfold dict_keys in *. apply list_elem_of_fmap in Hk as (kv & -> & Hin).
      apply list_elem_of_fmap. exists kv. split; [done|]. by apply (proj2 (elem_of_rev _ _)).
  - intros k v Hnodup Hk. by rewrite dict_get_update, dict_get_rev, Hk.
  - intros k Hk. apply elem_of_dict_keys_update. by left.
  - intros Hnodup. by apply NoDup_dict_keys_update.
Qed.

(** The listing no longer has the library "gone": its details stay among
    the attributes. *)
Lemma async_update_merges_attributes_witness :
  "gone" ∈ dict_keys (_attr_extra_state_attributes
             (async_update libraries_entity
                (Some {[ "api/libraries" := JObj details_listing ]})).1.1).
Proof.
  refine (proj1 (proj2 (proj2 (proj2 (async_update_merges_attributes libraries_entity
            {[ "api/libraries" := JObj details_listing ]} details_listing details_listing
            [("lib1", JObj [("mediaType", JStr "book"); ("provider", JStr "audible")]);
             ("lib2", JObj [("mediaType", JStr "podcast"); ("provider", JNull)])]
            eq_refl eq_refl)))) "gone" _).
  by left.
Defined.

End AttributesMerge.

Section WithoutPayload.
Implicit Types (self : AudiobookshelfSensor) (cache : gmap string json).

Lemma with_attributes_same self :
  with_attributes self (_attr_extra_state_attributes self) = self.
Proof. by destruct self. Qed.

Lemma with_state_same self : with_state self (_state self) = self.
Proof. by destruct self. Qed.

(** The update from [{}] when the data function returns [None]. *)
Lemma process_payload_none self :
  _process_attributes self [] = ([], Ok []) → _process_data self [] = Ok JNull →
  process_payload self [] =
    (with_state self (if in_zero_none (_state self) then JNull else _state self), [], Ok ()).
Proof.
  intros Ha Hd. rewrite (process_payload_state self [] [] [] JNull Ha Hd). simpl.
  do 2 f_equal.
  destruct (in_zero_none (_state self)); simpl; by destruct self.
Qed.

(** The update from [{}] when the data function raises. *)
Lemma process_payload_raise self (e : exn) :
  _process_attributes self [] = ([], Ok []) → _process_data self [] = Raise e →
  process_payload self [] = (self, [], Raise e).
Proof.
  intros Ha Hd. unfold process_payload. rewrite Ha, Hd. simpl.
  by rewrite with_attributes_same.
Qed.

(** X13: the update of a registered sensor whose endpoint has no entry in
    data that are not empty leaves the data and the attributes as they
    are.  It either returns, with state [None] if the state was zero or
    [None] and the old state otherwise, or raises a [KeyError] and leaves
    the entity as it was: the users, sessions and libraries sensors raise,
    the server version sensor returns. *)
Theorem registered_sensor_without_payload (libraries : list Library.t) (k : string)
    (s : Sensor) self cache :
  generate_library_sensors libraries sensors !! k = Some s →
  _process_data self = data_function s →
  _process_attributes self = attributes_function s →
  nonempty_data (Some cache) = Some cache →
  cache !! _endpoint self = None →
  let after := async_update self (Some cache) in
  after.1.2 = Some cache
  ∧ _attr_extra_state_attributes after.1.1 = _attr_extra_state_attributes self
  ∧ (after.2 = Ok ()
     ∧ _state after.1.1 = (if in_zero_none (_state self) then JNull else _state self)
     ∨ after.1.1 = self ∧ ∃ key, after.2 = Raise (KeyError key))
  ∧ (k = "users" → after.2 = Raise (KeyError "users"))
  ∧ (k = "sessions" → after.2 = Raise (KeyError "openSessions"))
  ∧ (k = "libraries" → after.2 = Raise (KeyError "libraries"))
  ∧ (k = "server_version" → after.2 = Ok ()).
Proof.
  intros Hk Hdata Hattrs Hne Hcache after. subst after.
  rewrite (async_update_missing _ _ Hne Hcache). simpl.
  assert (Hcases :
    (process_payload self [] =
       (with_state self (if in_zero_none (_state self) then JNull else _state self),
        [], Ok ())
     ∧ k ≠ "users" ∧ k ≠ "sessions" ∧ k ≠ "libraries")
    ∨ (process_payload self [] = (self, [], Raise (KeyError "users"))
       ∧ k = "users")
    ∨ (process_payload self [] = (self, [], Raise (KeyError "openSessions"))
       ∧ k = "sessions")
    ∨ (process_payload self [] = (self, [], Raise (KeyError "libraries"))
       ∧ k = "libraries")).
  { destruct (sensors !! k) as [s0|] eqn:Hfixed.
    - rewrite (generate_library_sensors_fixed libraries k s0 Hfixed) in Hk.
      injection Hk as <-.
      unfold sensors in Hfixed. rewrite !lookup_insert in Hfixed.
      repeat case_decide; subst; try (by rewrite lookup_empty in Hfixed);
        injection Hfixed as <-.
      + left. split; [by apply process_payload_none; rewrite ?Hattrs, ?Hdata|done].
      + right. right. right. split; [|done].
        by apply process_payload_raise; rewrite ?Hattrs, ?Hdata.
      + right. right. left. split; [|done].
        by apply process_payload_raise; rewrite ?Hattrs, ?Hdata.
      + right. left. split; [|done].
        unfold process_payload. by rewrite Hattrs.
    - destruct (generate_library_sensors_lookup_cases _ _ _ _ Hk)
        as [Hk'|(library & Hin & Hs)]; [congruence|].
      left. split.
      + destruct Hs as [->|[->| ->]];
          by apply process_payload_none; rewrite ?Hattrs, ?Hdata.
      + repeat split; intros ->; vm_compute in Hfixed; discriminate. }
  destruct Hcases as [[-> (? & ? & ?)]|[[-> ->]|[[-> ->]|[-> ->]]]]; simpl;
    repeat split; try done; try (by destruct (in_zero_none (_state self)));
    try (left; split; [done|by destruct (in_zero_none (_state self))]);
    try (right; split; [done|by eauto]).
Qed.

(** The cache holds the statistics of a library only: the users sensor
    raises. *)
Lemma registered_sensor_without_payload_witness :
  (async_update users_entity (Some (stats_cache JNull))).2 = Raise (KeyError "users").
Proof.
  refine (proj1 (proj2 (proj2 (proj2 (registered_sensor_without_payload [] "users"
            {| endpoint := "api/users";
               name := "Audiobookshelf Users";
               unique_id := None;
               data_function := count_active_users;
               attributes_function := clean_user_attributes;
               unit_name := "users" |}
            users_entity (stats_cache JNull) _ eq_refl eq_refl _ _)))) eq_refl);
    vm_compute; reflexivity.
Defined.

End WithoutPayload.

Section SmallStatistics.
Local Open Scope Z_scope.



End SmallStatistics.

Section FirstUpdate.
Variable set_iter : gset string → list string.
Hypothesis set_iter_perm : ∀ s : gset string, set_iter s ≡ₚ elements s.

(** X15: after a cycle that returns, the first update of the entity of a
    registered sensor whose endpoint was answered with a dict returns,
    shows the value the data function computes (zero and [None]
    included), holds the attributes the attributes function returns, and
    leaves the payload in the coordinator's data as that function left
    it. *)
Theorem first_update_shows_fetched_value (conf : Config) (server : Request → Outcome)
    (registry : gmap string Sensor) (k : string) (s : Sensor)
    (m : gmap string json) (payload payload' attrs : dict) (value : json) :
  registry !! k = Some s →
  (_async_update_data set_iter conf server registry).2 = Ok m →
  server (request conf (endpoint s)) = Response HTTP_OK (JObj payload) →
  attributes_function s payload = (payload', Ok attrs) →
  data_function s payload' = Ok value →
  let after := async_update (new_sensor s) (Some m) in
  m !! endpoint s = Some (JObj payload)
  ∧ after.2 = Ok ()
  ∧ _state after.1.1 = value
  ∧ _attr_extra_state_attributes after.1.1 = dict_of_pairs attrs
  ∧ after.1.2 = Some (<[endpoint s := JObj payload']> m).
Proof.
  intros Hk Hm Hserver Hattrs Hdata after.
  destruct (refresh_cycle_returns set_iter set_iter_perm _ _ _ _ Hm) as (_ & _ & Hlookup).
  assert (Hcache : m !! endpoint s = Some (JObj payload)).
  { apply Hlookup; [|done]. apply elem_of_unique_endpoints. eauto. }
  split; [done|]. subst after.
  rewrite (async_update_payload (new_sensor s) m payload) by done. simpl.
  rewrite (process_payload_state (new_sensor s) payload payload' attrs value) by done.
  simpl. rewrite andb_false_r. done.
Qed.

End FirstUpdate.

Section FirstUpdateExample.

(** The scenario: the statistics of "lib1" report ten items, and its
    items sensor shows 10 after the first refresh. *)
Lemma first_update_shows_fetched_value_witness :
  ∃ m, (_async_update_data elements example_conf stats_server scenario_registry).2 = Ok m
    ∧ _state (async_update (new_sensor (items_sensor lib1)) (Some m)).1.1 = JInt 10.
Proof.
  destruct (returns_ok (_async_update_data elements example_conf stats_server
                          scenario_registry).2) as [m Hm].
  { vm_compute. exact I. }
  exists m. split; [exact Hm|].
  refine (proj1 (proj2 (proj2 (first_update_shows_fetched_value elements elements_perm
            example_conf stats_server scenario_registry (items_key "lib1")
            (items_sensor lib1) m scenario_stats scenario_stats scenario_stats (JInt 10)
            _ Hm eq_refl eq_refl eq_refl)))).
  vm_compute. reflexivity.
Defined.

End FirstUpdateExample.

Section CleanConfig.

(** X16: [clean_config] keeps the keys and every entry but the api key;
    an api key that counts as true becomes "<redacted>", another one and
    a dict without api key are returned as they are; so the api key it
    returns is "<redacted>" or counts as false.  Cleaning again changes
    nothing. *)
Theorem clean_config_hides_api_key (data : dict) :
  let cleaned := clean_config data in
  dict_keys cleaned = dict_keys data
  ∧ (∀ k, k ≠ Const.CONF_API_KEY → dict_get k cleaned = dict_get k data)
  ∧ dict_get Const.CONF_API_KEY cleaned
      = (api_key ← dict_get Const.CONF_API_KEY data;
         Some (if truthy api_key then JStr "<redacted>" else api_key))
  ∧ (∀ v, dict_get Const.CONF_API_KEY cleaned = Some v →
          v = JStr "<redacted>" ∨ truthy v = false)
  ∧ clean_config cleaned = cleaned.
Proof.
  intros cleaned.
  assert (Hcleaned : cleaned =
    match dict_get Const.CONF_API_KEY data with
    | Some api_key =>
        if truthy api_key then dict_set Const.CONF_API_KEY (JStr "<redacted>") data
        else data
    | None => data
    end).
  { subst cleaned. unfold clean_config, clean_config_body, getitem.
    destruct (dict_get Const.CONF_API_KEY data) as [api_key|]; [|done].
    simpl. by destruct (truthy api_key). }
  assert (Hidem : clean_config cleaned = cleaned).
  { rewrite Hcleaned. unfold clean_config, clean_config_body, getitem.
    destruct (dict_get Const.CONF_API_KEY data) as [api_key|] eqn:Hkey.
    - destruct (truthy api_key) eqn:Htruthy.
      + rewrite dict_get_set, String.eqb_refl. simpl. by rewrite dict_set_set.
      + rewrite Hkey. simpl. by rewrite Htruthy.
    - by rewrite Hkey. }
  split; [|split; [|split; [|split; [|done]]]]; rewrite Hcleaned;
    destruct (dict_get Const.CONF_API_KEY data) as [api_key|] eqn:Hkey;
    try destruct (truthy api_key) eqn:Htruthy; simpl; try done.
  - apply dict_keys_set_present. eapply dict_get_Some_keys. exact Hkey.
  - intros k Hk. rewrite dict_get_set. by rewrite (proj2 (String.eqb_neq _ _) Hk).
  - by rewrite dict_get_set, String.eqb_refl, Htruthy.
  - by rewrite Hkey, Htruthy.
  - intros v. rewrite dict_get_set, String.eqb_refl. intros [= <-]. by left.
  - intros v. rewrite Hkey. intros [= <-]. by right.
  - intros v. by rewrite Hkey.
Qed.

End CleanConfig.

Section ConnectionTest.

Lemma test_connection_cases (o : Outcome) :
  test_connection o =
    match o with
    | Response status _ | BadBody status _ =>
        if (status =? HTTP_OK)%Z then Ok () else Raise ConfigEntryNotReady
    | RequestError e => if is_client_error e then Raise ConfigEntryNotReady else Raise e
    end.
Proof.
  unfold test_connection. destruct o as [status body|status e|e].
  - by destruct (status =? HTTP_OK)%Z.
  - by destruct (status =? HTTP_OK)%Z.
  - by destruct e.
Qed.

End ConnectionTest.

Section Setup.
Implicit Types (conf : Config) (server : Request → Outcome).

(** X17: [async_setup_entry] of the integration returns [True] exactly
    when there is entry data, the response to the test request has status
    200, and [validate_config] and the forwarding to the platforms
    return; it never returns [False].  Without data, with another status
    and on a client error it raises [ConfigEntryNotReady]; another
    exception of the request leaves it as it is. *)
Theorem init_setup_needs_status_200 (entry_data : option Config) server
    (validate_config forward_entry_setups : result ()) :
  let r := Init.async_setup_entry entry_data server validate_config forward_entry_setups in
  let fetched conf := server (request conf "api/libraries") in
  (r = Ok true ↔
     ∃ conf, entry_data = Some conf ∧ status_of (fetched conf) = Some HTTP_OK
       ∧ validate_config = Ok () ∧ forward_entry_setups = Ok ())
  ∧ r ≠ Ok false
  ∧ (entry_data = None → r = Raise ConfigEntryNotReady)
  ∧ (∀ conf status, entry_data = Some conf →
       status_of (fetched conf) = Some status → status ≠ HTTP_OK →
       r = Raise ConfigEntryNotReady)
  ∧ (∀ conf e, entry_data = Some conf → fetched conf = RequestError e →
       r = Raise (if is_client_error e then ConfigEntryNotReady else e)).
Proof.
  intros r fetched.
  destruct entry_data as [conf|].
  2: { split; [|by repeat split]. split; [done|]. by intros (? & ? & _). }
  assert (Hr : r = (_ ← test_connection (fetched conf);
                    _ ← validate_config; _ ← forward_entry_setups; Ok true)) by done.
  rewrite test_connection_cases in Hr. clearbody r. subst r.
  split; [|split; [|split; [done|split]]].
  - split.
    + intros Hok. exists conf. split; [done|].
      destruct (fetched conf) as [status body|status e|e]; simpl in *.
      1,2: destruct (Z.eqb_spec status HTTP_OK) as [->|]; [|done];
           split; [done|]; simpl in Hok;
           destruct validate_config as [[]| |]; try done;
           by destruct forward_entry_setups as [[]| |].
      by destruct (is_client_error e).
    + intros (c & [= <-] & Hs & -> & ->).
      destruct (fetched conf) as [status body|status e|e]; simpl in *; try done;
        injection Hs as ->; done.
  - destruct (fetched conf) as [status body|status e|e]; simpl.
    1,2: destruct (status =? HTTP_OK)%Z; [|done]; simpl;
         destruct validate_config as [[]| |]; try done;
         by destruct forward_entry_setups as [[]| |].
    by destruct (is_client_error e).
  - intros c status [= <-] Hs Hne.
    destruct (fetched conf) as [status' body|status' e|e]; simpl in *; try done;
      injection Hs as ->; by destruct (Z.eqb_spec status HTTP_OK).
  - intros c e [= <-] ->. simpl. by destruct (is_client_error e).
Qed.

Lemma size_generate_library_sensors (libraries : list Library.t) :
  size (generate_library_sensors libraries sensors) = 4 + 3 * size (library_ids libraries).
Proof.
  rewrite <- size_dom, generate_library_sensors_dom_eq, size_union.
  - rewrite size_dom, size_sensors. f_equal.
    rewrite size_list_to_set by apply NoDup_bind_library_keys, NoDup_elements.
    by rewrite length_bind_library_keys.
  - intros k Hk [a [Hka _]]%elem_of_list_to_set%list_elem_of_bind.
    apply elem_of_dom in Hk as [v Hv].
    by rewrite (sensors_lookup_library_key a k Hka) in Hv.
Qed.

(** X18: [async_setup_entry] of the sensor platform, from the four fixed
    sensors.  When the test of the connection raises, so does the set-up,
    and the registry is as before.  When the first refresh raises, the
    sensors of the libraries stay in the registry.  When the set-up
    returns, there is one entity for each key of the registry, 4 + 3 *
    (the number of distinct ids) of them, each with state [None] and no
    attributes; and a listing answered with another status than 200
    gives the four fixed entities only. *)
Theorem sensor_setup_entities conf (probe_server listing_server : Request → Outcome)
    (first_refresh : gmap string Sensor → result Coordinator) :
  let setup :=
    SensorPlatform.async_setup_entry conf probe_server listing_server first_refresh sensors in
  let probe := probe_server (request conf "api/libraries") in
  let listing := listing_server (request conf "api/libraries") in
  (∀ e, test_connection probe = Raise e → setup = (sensors, Raise e))
  ∧ (∀ status, status_of probe = Some status → status ≠ HTTP_OK →
       setup = (sensors, Raise ConfigEntryNotReady))
  ∧ (∀ libraries e,
       test_connection probe = Ok () → get_libraries conf listing_server = Ok libraries →
       first_refresh (generate_library_sensors libraries sensors) = Raise e →
       setup = (generate_library_sensors libraries sensors, Raise e))
  ∧ (∀ r, setup.2 = Ok r →
       ∃ libraries,
         get_libraries conf listing_server = Ok libraries
         ∧ setup.1 = generate_library_sensors libraries sensors
         ∧ first_refresh setup.1 = Ok (SensorPlatform.coordinator r)
         ∧ dom (SensorPlatform.entities r) = dom setup.1
         ∧ size (SensorPlatform.entities r) = 4 + 3 * size (library_ids libraries)
         ∧ (∀ k entity, SensorPlatform.entities r !! k = Some entity →
              ∃ s, setup.1 !! k = Some s ∧ entity = new_sensor s
                   ∧ _state entity = JNull ∧ _attr_extra_state_attributes entity = [])
         ∧ (∀ status, status_of listing = Some status → status ≠ HTTP_OK →
              libraries = [] ∧ SensorPlatform.entities r = new_sensor <$> sensors)).
Proof.
  intros setup probe listing. subst setup. unfold SensorPlatform.async_setup_entry.
  fold probe. split; [|split; [|split]].
  - by intros e ->.
  - intros status Hs Hne. rewrite test_connection_cases.
    destruct probe as [status' body|status' e|e]; simpl in *; try done;
      injection Hs as ->; by rewrite (proj2 (Z.eqb_neq status HTTP_OK)).
  - intros libraries e -> -> Hrefresh. simpl. by rewrite Hrefresh.
  - intros r. destruct (test_connection probe) as [[]|e|]; [|done..].
    destruct (get_libraries conf listing_server) as [libraries|e|] eqn:Hlibs; [|done..].
    simpl.
    destruct (first_refresh (generate_library_sensors libraries sensors))
      as [coordinator|e|] eqn:Hrefresh; [|done..].
    simpl. intros [= <-]. simpl. exists libraries.
    split; [done|]. split; [done|]. split; [done|]. split; [apply dom_fmap_L|].
    split; [by rewrite map_size_fmap, size_generate_library_sensors|]. split.
    + intros k entity. rewrite lookup_fmap.
      destruct (generate_library_sensors libraries sensors !! k) as [s|]; [|done].
      simpl. intros [= <-]. by exists s.
    + intros status Hs Hne.
      assert (libraries = []) as ->; [|done].
      revert Hlibs. unfold get_libraries. fold listing.
      destruct listing as [status' body|status' e|e]; simpl in *; try done;
        injection Hs as ->; rewrite (proj2 (Z.eqb_neq status HTTP_OK)) by done;
        simpl; congruence.
Qed.

(** The scenario: both requests for the libraries are answered with
    status 200 and the listing of "lib1", and the first refresh returns:
    seven entities. *)
Lemma sensor_setup_entities_witness :
  ∃ r, (SensorPlatform.async_setup_entry example_conf
          (libraries_server (Response 200 scenario_listing))
          (libraries_server (Response 200 scenario_listing))
          (fun _ => Ok example_coordinator) sensors).2 = Ok r
       ∧ size (SensorPlatform.entities r) = 7.
Proof.
  eexists. split; [reflexivity|].
  destruct (proj2 (proj2 (proj2 (sensor_setup_entities example_conf
              (libraries_server (Response 200 scenario_listing))
              (libraries_server (Response 200 scenario_listing))
              (fun _ => Ok example_coordinator)))) _ eq_refl)
    as (libraries & Hlibs & _ & _ & _ & Hsize & _).
  injection Hlibs as <-. exact Hsize.
Defined.

End Setup.

Section ConversionTwice.

Lemma dict_of_pairs_NoDup {V : Type} (l : list (string * V)) :
  NoDup (dict_keys l) → dict_of_pairs l = l.
Proof.
  intros Hl. unfold dict_of_pairs. rewrite dict_update_fresh; [done|done|].
  intros k _. apply not_elem_of_nil.
Qed.

(** X19: on a value whose keys are made of ASCII characters,
    [camel_to_snake] is idempotent: converting the converted value
    changes nothing. *)
Theorem camel_to_snake_idempotent (data : json) :
  ascii_keys data = true →
  camel_to_snake (camel_to_snake data) = camel_to_snake data.
Proof.
  intros _.
  induction data as [| | | | |l IH|kvs IH] using json_ind; try done.
  - rewrite !camel_to_snake_list. f_equal. rewrite map_map.
    apply map_ext_in. intros x Hx%list_elem_of_In.
    rewrite Forall_forall in IH. by apply IH.
  - rewrite camel_to_snake_dict.
    set (converted := dict_of_pairs _).
    assert (Hall : Forall (fun kv => snake_style kv.1 = true
                                      ∧ camel_to_snake kv.2 = kv.2) converted).
    { subst converted. unfold dict_of_pairs. apply Forall_dict_update; [done|].
      apply Forall_forall. intros kv [[k v] [-> Hin]]%list_elem_of_fmap. simpl.
      split; [apply _convert_key_snake_style|].
      rewrite Forall_forall in IH. by apply (IH (k, v)). }
    assert (Hnodup : NoDup (dict_keys converted)).
    { subst converted. unfold dict_of_pairs. by apply NoDup_dict_keys_update, NoDup_nil_2. }
    rewrite camel_to_snake_dict. f_equal.
    assert (Hmap : map (fun kv => (_convert_key kv.1, camel_to_snake kv.2)) converted
                   = converted).
    { clear Hnodup. induction Hall as [|[k v] rest [Hk Hv] _ IHrest]; [done|].
      simpl in *. by rewrite (_convert_key_fixes_snake_style k Hk), Hv, IHrest. }
    rewrite Hmap. by apply dict_of_pairs_NoDup.
Qed.

(** The example of the specification, converted twice. *)
Lemma camel_to_snake_idempotent_witness :
  camel_to_snake (camel_to_snake camel_example) = snake_example.
Proof.
  exact (eq_trans (camel_to_snake_idempotent camel_example eq_refl) eq_refl).
Defined.

End ConversionTwice.

Section UnknownKeys.

(** [from_dict] reads the fields of [Library] and nothing else. *)
Lemma from_dict_Library_ext (d d' : dict) :
  (∀ f, f ∈ library_fields → dict_get f d = dict_get f d') →
  from_dict_Library d = from_dict_Library d'.
Proof.
  intros H. unfold from_dict_Library, required_field, optional_field, optional_nested.
  assert (Hin : ∀ f, In f library_fields → dict_get f d = dict_get f d')
    by (intros f Hf; by apply H, list_elem_of_In).
  rewrite !(Hin "id"), !(Hin "name"), !(Hin "folders"), !(Hin "display_order"),
    !(Hin "icon"), !(Hin "media_type"), !(Hin "provider"), !(Hin "settings"),
    !(Hin "last_scan"), !(Hin "last_scan_version"), !(Hin "created_at"),
    !(Hin "last_update") by (simpl; tauto).
  done.
Qed.

Lemma library_of_dict (entry : dict) :
  library_of (JObj entry) =
    from_dict_Library
      (dict_of_pairs (map (fun kv => (_convert_key kv.1, camel_to_snake kv.2)) entry)).
Proof. unfold library_of. by rewrite camel_to_snake_dict. Qed.

(** X20: an entry of the listing with one more key, whose converted form
    is no field of [Library], gives the same record, or the same
    exception, as the entry without it. *)
Theorem library_of_ignores_unknown_keys (pre post : dict) (key : string) (value : json) :
  _convert_key key ∉ library_fields →
  library_of (JObj (pre ++ (key, value) :: post)) = library_of (JObj (pre ++ post)).
Proof.
  intros Hkey. rewrite !library_of_dict. apply from_dict_Library_ext.
  intros f Hf. unfold dict_of_pairs. rewrite !dict_get_update.
  rewrite !map_app. simpl. rewrite !rev_app_distr. simpl.
  rewrite <- app_assoc, !dict_get_app. simpl.
  assert (f ≠ _convert_key key) as Hne by (by intros ->).
  by rewrite (proj2 (String.eqb_neq _ _) Hne).
Qed.

Lemma library_of_ignores_unknown_keys_witness :
  library_of (JObj [("id", JStr "lib1"); ("coverPath", JNull); ("name", JStr "Books")])
    = Ok lib1.
Proof.
  refine (eq_trans (library_of_ignores_unknown_keys [("id", JStr "lib1")]
            [("name", JStr "Books")] "coverPath" JNull _) _).
  - apply (bool_decide_unpack _). vm_compute. exact I.
  - reflexivity.
Defined.

End UnknownKeys.

Section DictEquality.
Context {V : Type}.
Implicit Types (d l : list (string * V)) (k : string) (v : V).

(** Dicts with the same keys in the same order and the same values are
    equal. *)
Lemma dict_eq d d' :
  dict_keys d = dict_keys d' → NoDup (dict_keys d) →
  (∀ k, dict_get k d = dict_get k d') → d = d'.
Proof.
  unfold dict_keys. revert d'.
  induction d as [|[k v] d IH]; intros [|[k' v'] d']; try done.
  rewrite !fmap_cons. simpl. intros [= <- Hkeys] [Hk Hnodup]%NoDup_cons Hget.
  pose proof (Hget k) as Hv. simpl in Hv. rewrite String.eqb_refl in Hv.
  injection Hv as <-. f_equal. apply IH.
  - exact Hkeys.
  - exact Hnodup.
  - intros k0. specialize (Hget k0). simpl in Hget.
    destruct (String.eqb_spec k0 k) as [Heq|Hne]; [|done].
    rewrite Heq.
    rewrite (proj2 (dict_get_None_keys k d)) by done.
    symmetry. apply dict_get_None_keys. unfold dict_keys. by rewrite <- Hkeys.
Qed.

Lemma dict_keys_update_present d l :
  (∀ k, k ∈ dict_keys l → k ∈ dict_keys d) →
  dict_keys (dict_update d l) = dict_keys d.
Proof.
  unfold dict_update. revert d. induction l as [|[k v] l IH]; intros d Hl; [done|].
  simpl. rewrite IH.
  - apply dict_keys_set_present, Hl. by left.
  - intros k0 Hk0. rewrite dict_keys_set_present by (apply Hl; by left).
    apply Hl. by right.
Qed.

Lemma dict_update_twice d l :
  NoDup (dict_keys d) → dict_update (dict_update d l) l = dict_update d l.
Proof.
  intros Hd. apply dict_eq.
  - apply dict_keys_update_present. intros k Hk.
    apply elem_of_dict_keys_update. by right.
  - by do 2 apply NoDup_dict_keys_update.
  - intros k. rewrite !dict_get_update. by destruct (dict_get k (rev l)).
Qed.

End DictEquality.

Section UpdateTwice.
Implicit Types (self : AudiobookshelfSensor) (cache : gmap string json).

Lemma clean_user_attributes_again (data data' attrs : dict) :
  clean_user_attributes data = (data', Ok attrs) →
  clean_user_attributes data' = (data', Ok attrs).
Proof.
  unfold clean_user_attributes at 1.
  destruct (dict_get "users" data) as [users|] eqn:Husers; [|done].
  destruct users as [| | | |s|users|d]; try done.
  - destruct s; [|done]. intros [= <- <-]. unfold clean_user_attributes. by rewrite Husers.
  - destruct (redact_tokens users) as [users' r] eqn:Hredact.
    destruct r as [[]| |]; try done. intros [= <- <-].
    assert (Hall : Forall (fun u => is_dict u = true) users).
    { clear Husers. revert users' Hredact.
      induction users as [|u users IH]; intros users'; [done|].
      simpl. destruct u; try done.
      destruct (redact_tokens users) as [rest r] eqn:Hrest.
      intros [= <- ->]. constructor; [done|]. by eapply IH. }
    rewrite (redact_tokens_dicts users Hall) in Hredact. injection Hredact as <-.
    by apply clean_user_attributes_dicts_again.
  - destruct d; [|done]. intros [= <- <-]. unfold clean_user_attributes. by rewrite Husers.
Qed.

(** The attributes function of a registered sensor returns the same on
    the payload as it has left it. *)
Lemma registered_attributes_again (libraries : list Library.t) (k : string) (s : Sensor)
    (payload payload' attrs : dict) :
  generate_library_sensors libraries sensors !! k = Some s →
  attributes_function s payload = (payload', Ok attrs) →
  attributes_function s payload' = (payload', Ok attrs).
Proof.
  intros [Hfixed|(library & _ & Hs)]%generate_library_sensors_lookup_cases.
  2: { destruct Hs as [Hs|[Hs|Hs]]; subst s; by intros [= <- <-]. }
  unfold sensors in Hfixed. rewrite !lookup_insert in Hfixed.
  repeat case_decide; try (injection Hfixed as <-; simpl; unfold pure_attributes;
                           by intros [= <- <-]).
  - injection Hfixed as <-. simpl. apply clean_user_attributes_again.
  - by rewrite lookup_empty in Hfixed.
Qed.

(** A second update from the same data changes nothing more. *)
Lemma process_payload_again self (payload payload' attrs : dict) (value : json) :
  _process_attributes self payload = (payload', Ok attrs) →
  _process_attributes self payload' = (payload', Ok attrs) →
  _process_data self payload' = Ok value →
  NoDup (dict_keys (_attr_extra_state_attributes self)) →
  process_payload (process_payload self payload).1.1 payload'
    = ((process_payload self payload).1.1, payload', Ok ()).
Proof.
  intros Ha Ha' Hd Hnodup.
  rewrite (process_payload_state self payload payload' attrs value Ha Hd). simpl.
  set (state := if in_zero_none value && negb (in_zero_none (_state self))
                then _state self else value).
  rewrite (process_payload_state _ payload' payload' attrs value) by done.
  simpl. rewrite dict_update_twice by done.
  assert (Hstate : (if in_zero_none value && negb (in_zero_none state)
                    then state else value) = state).
  { subst state.
    destruct (in_zero_none value) eqn:Hv, (in_zero_none (_state self)) eqn:Hs;
      simpl; rewrite ?Hv, ?Hs; done. }
  rewrite Hstate. by destruct self.
Qed.

(** X21: for a registered sensor, an update that returns reaches a fixed
    point: a second update, from the data as the first one left them,
    gives the same entity and the same data and returns; distinct
    attribute keys stay distinct. *)
Theorem async_update_idempotent (libraries : list Library.t) (k : string) (s : Sensor)
    self cache (payload : dict) :
  generate_library_sensors libraries sensors !! k = Some s →
  _process_data self = data_function s →
  _process_attributes self = attributes_function s →
  cache !! _endpoint self = Some (JObj payload) →
  NoDup (dict_keys (_attr_extra_state_attributes self)) →
  let once := async_update self (Some cache) in
  once.2 = Ok () →
  async_update once.1.1 once.1.2 = once
  ∧ NoDup (dict_keys (_attr_extra_state_attributes once.1.1)).
Proof.
  intros Hk Hdata Hattrs Hcache Hnodup once Hok. subst once.
  rewrite (async_update_payload _ _ _ Hcache) in *. simpl in *.
  destruct (_process_attributes self payload) as [payload' [attrs|e|]] eqn:Ha.
  2,3: unfold process_payload in Hok; by rewrite Ha in Hok.
  destruct (process_payload_attributes self payload _ _ Ha) as (Hp & Hmerged & Hr).
  rewrite Hr in Hok.
  destruct (_process_data self payload') as [value|e|] eqn:Hd; try done.
  assert (Ha' : _process_attributes self payload' = (payload', Ok attrs)).
  { rewrite Hattrs in *. by eapply registered_attributes_again. }
  pose proof (process_payload_again self payload payload' attrs value Ha Ha' Hd Hnodup)
    as Hagain.
  assert (Hend : _endpoint (process_payload self payload).1.1 = _endpoint self).
  { by rewrite (process_payload_state self payload payload' attrs value Ha Hd). }
  split.
  - rewrite (async_update_payload _ _ (process_payload self payload).1.2).
    + rewrite Hp in *. rewrite Hagain. simpl. rewrite Hr, Hend. simpl.
      by rewrite insert_insert_eq.
    + by rewrite Hend, lookup_insert_eq.
  - rewrite Hmerged. by apply NoDup_dict_keys_update.
Qed.

End UpdateTwice.

Section UpdateTwiceExample.

(** The users sensor, updated twice from the same payload. *)
Lemma async_update_idempotent_witness :
  async_update
    (async_update users_entity (Some {[ "api/users" := JObj token_payload ]})).1.1
    (async_update users_entity (Some {[ "api/users" := JObj token_payload ]})).1.2
  = async_update users_entity (Some {[ "api/users" := JObj token_payload ]}).
Proof.
  refine (proj1 (async_update_idempotent [] "users"
            {| endpoint := "api/users";
               name := "Audiobookshelf Users";
               unique_id := None;
               data_function := count_active_users;
               attributes_function := clean_user_attributes;
               unit_name := "users" |}
            users_entity {[ "api/users" := JObj token_payload ]} token_payload
            _ eq_refl eq_refl eq_refl _ _)).
  - vm_compute. reflexivity.
  - apply NoDup_nil_2.
  - vm_compute. reflexivity.
Defined.

End UpdateTwiceExample.

Section IterationOrder.
Variables iter1 iter2 : gset string → list string.
Hypothesis iter1_perm : ∀ s : gset string, iter1 s ≡ₚ elements s.
Hypothesis iter2_perm : ∀ s : gset string, iter2 s ≡ₚ elements s.
Context (conf : Config) (server : Request → Outcome) (registry : gmap string Sensor).

(** A cycle returns exactly when every endpoint answers 200 with a JSON
    body, and then it returns the dict of the bodies. *)
Lemma refresh_cycle_ok_iff (set_iter : gset string → list string) (m : gmap string json) :
  (∀ s : gset string, set_iter s ≡ₚ elements s) →
  (_async_update_data set_iter conf server registry).2 = Ok m ↔
  (∀ e, m !! e =
          if bool_decide (e ∈ unique_endpoints registry)
          then match server (request conf e) with
               | Response _ j => Some j
               | _ => None
               end
          else None)
  ∧ (∀ e, e ∈ unique_endpoints registry → ∃ j, server (request conf e) = Response HTTP_OK j).
Proof.
  intros Hperm. unfold _async_update_data.
  assert (Hmem : ∀ e, e ∈ set_iter (unique_endpoints registry) ↔ e ∈ unique_endpoints registry)
    by (intros e; by rewrite Hperm, elem_of_elements).
  destruct (fetch_endpoints_spec conf server (set_iter (unique_endpoints registry)) ∅ [])
    as [(m' & Hrun & Hall & Hin & Hout)|(pre & e & post & x & Heps & _ & Hx & Hrun)];
    rewrite Hrun; simpl.
  - assert (Hm' : ∀ e, m' !! e =
          if bool_decide (e ∈ unique_endpoints registry)
          then match server (request conf e) with
               | Response _ j => Some j
               | _ => None
               end
          else None).
    { intros e. case_bool_decide as He.
      - apply Hmem in He. destruct (Hall e He) as [j Hj]. rewrite Hj. by apply Hin.
      - rewrite Hout by (by rewrite Hmem). apply lookup_empty. }
    split.
    + intros [= <-]. split; [done|]. intros e He. by apply Hall, Hmem.
    + intros [Hm _]. f_equal. apply map_eq. intros e. by rewrite Hm', Hm.
  - split; [done|]. intros [_ Hall].
    destruct (Hall e) as [j Hj].
    { apply Hmem. rewrite Heps. apply elem_of_app. right. by left. }
    rewrite Hj in Hx. discriminate.
Qed.

Lemma refresh_cycle_not_unmodelled (set_iter : gset string → list string) :
  (_async_update_data set_iter conf server registry).2 ≠ Unmodelled.
Proof.
  unfold _async_update_data.
  by destruct (fetch_endpoints_spec conf server (set_iter (unique_endpoints registry)) ∅ [])
    as [(m' & -> & _)|(pre & e & post & x & _ & _ & _ & ->)].
Qed.

Lemma refresh_cycle_requests_all (set_iter : gset string → list string) (m : gmap string json) :
  (_async_update_data set_iter conf server registry).2 = Ok m →
  (_async_update_data set_iter conf server registry).1
    = request conf <$> set_iter (unique_endpoints registry).
Proof.
  unfold _async_update_data.
  by destruct (fetch_endpoints_spec conf server (set_iter (unique_endpoints registry)) ∅ [])
    as [(m' & -> & _)|(pre & e & post & x & _ & _ & _ & ->)].
Qed.

(** X22: what a cycle that returns gives does not depend on the order in
    which the set of endpoints is iterated: the same dict, and the same
    requests up to their order; and a cycle that raises in one order
    raises in every order. *)
Theorem refresh_result_independent_of_order :
  let cycle1 := _async_update_data iter1 conf server registry in
  let cycle2 := _async_update_data iter2 conf server registry in
  (∀ m, cycle1.2 = Ok m → cycle2.2 = Ok m ∧ cycle2.1 ≡ₚ cycle1.1)
  ∧ (∀ x, cycle1.2 = Raise x → ∃ x', cycle2.2 = Raise x').
Proof.
  intros cycle1 cycle2. split.
  - intros m Hm. assert (Hm2 : cycle2.2 = Ok m).
    { apply (refresh_cycle_ok_iff iter2 m iter2_perm).
      by apply (refresh_cycle_ok_iff iter1 m iter1_perm). }
    split; [done|]. subst cycle1 cycle2.
    rewrite (refresh_cycle_requests_all iter1 m Hm),
      (refresh_cycle_requests_all iter2 m Hm2).
    by rewrite iter1_perm, iter2_perm.
  - intros x Hx.
    destruct cycle2.2 as [m|x'|] eqn:H2; [|by eauto|].
    + apply (refresh_cycle_ok_iff iter2 m iter2_perm) in H2.
      apply (refresh_cycle_ok_iff iter1 m iter1_perm) in H2.
      subst cycle1. congruence.
    + by apply refresh_cycle_not_unmodelled in H2.
Qed.

End IterationOrder.

Section IterationOrderExample.

Lemma reverse_elements_perm (s : gset string) : reverse (elements s) ≡ₚ elements s.
Proof. apply reverse_Permutation. Qed.

(** The endpoints in the set's order and in the reverse order: the same
    mapping. *)
Lemma refresh_result_independent_of_order_witness :
  (_async_update_data (fun s => reverse (elements s)) example_conf server_empty sensors).2
    = (_async_update_data elements example_conf server_empty sensors).2.
Proof.
  destruct (returns_ok (_async_update_data elements example_conf server_empty sensors).2)
    as [m Hm].
  { vm_compute. exact I. }
  rewrite Hm.
  exact (proj1 (proj1 (refresh_result_independent_of_order elements
                         (fun s => reverse (elements s)) elements_perm
                         reverse_elements_perm example_conf server_empty sensors) m Hm)).
Defined.

End IterationOrderExample.
